(** * Product enrichment scripts: barcodes, rate-limited fetch, pagination

    A shallow embedding of the three scripts of the repository

    - [src/api/update-products-barra.js]  (batch: descriptions and barcodes),
    - [src/unnamed/part_000]              (batch: descriptions only),
    - [src/unnamed/part_001]              (Netlify webhook [product-created]),

    and the properties of their EAN-13 generator, their 429-aware fetch
    helper, the pagination loop, the tag filter and the webhook handler.

    JavaScript strings are modelled as lists of characters ([str]), numbers
    that may be [NaN] as [option Z], and every effect (HTTP request, sleep,
    console output) as an event appended to a trace. *)

From Stdlib Require Import String Ascii List NArith ZArith Bool Lia.
Import ListNotations.

Set Implicit Arguments.

(* ===================================================================== *)
(** ** JavaScript strings and numbers                                      *)
(* ===================================================================== *)

Module JS.

(** A JavaScript string, as the list of its code units.  The model covers
    the code units below 256 (ASCII and Latin-1): the strings the scripts
    build and compare are ASCII, and what they read from the shop is
    trimmed, lowercased and compared unit by unit. *)
Definition str := list ascii.

(** A string literal of the source. *)
Definition lit (s : string) : str := list_ascii_of_string s.

(** The double quote character, written by its code. *)
Definition dquote : ascii := ascii_of_nat 34.

Fixpoint str_eqb (a b : str) : bool :=
  match a, b with
  | [], [] => true
  | x :: a', y :: b' => Ascii.eqb x y && str_eqb a' b'
  | _, _ => false
  end.

(** A JavaScript number that may be [NaN] ([None]). *)
Definition num := option Z.

Definition num_add (a b : num) : num :=
  match a, b with Some x, Some y => Some (x + y)%Z | _, _ => None end.

Definition num_mul (a b : num) : num :=
  match a, b with Some x, Some y => Some (x * y)%Z | _, _ => None end.

Definition num_sub (a b : num) : num :=
  match a, b with Some x, Some y => Some (x - y)%Z | _, _ => None end.

(** [a % b]: the remainder has the sign of the dividend; [NaN] for a zero
    divisor. *)
Definition num_rem (a b : num) : num :=
  match a, b with
  | Some x, Some y => if (y =? 0)%Z then None else Some (Z.rem x y)
  | _, _ => None
  end.

(** Truthiness of a string value that may be [null]/[undefined]. *)
Definition truthy (s : option str) : bool :=
  match s with
  | Some (_ :: _) => true
  | _ => false
  end.

(** *** Decimal rendering: [String(n)] for a non-negative integer *)

Definition digit_char (d : N) : ascii := ascii_of_N (48 + d).

Fixpoint digits_acc (fuel : nat) (n : N) (acc : str) : str :=
  match fuel with
  | O => acc
  | S fuel' =>
      let acc' := digit_char (n mod 10) :: acc in
      if (n / 10 =? 0)%N then acc' else digits_acc fuel' (n / 10) acc'
  end.

(** [String(n)] for an integer [0 <= n] (below [1e21], where JavaScript
    switches to exponent notation). *)
Definition String_of_N (n : N) : str :=
  digits_acc (S (N.to_nat (N.log2 n))) n [].

Definition String_of_Z (z : Z) : str :=
  match z with
  | Zneg p => lit "-" ++ String_of_N (Npos p)
  | _ => String_of_N (Z.to_N z)
  end.

(** String conversion of a number, as in [baseCode + checkDigit]. *)
Definition String_of_num (x : num) : str :=
  match x with
  | Some z => String_of_Z z
  | None => lit "NaN"
  end.

(** *** [padStart], [slice], indexing *)

(** [s.padStart(k, c)] for a one-character filler [c]. *)
Definition padStart (k : nat) (c : ascii) (s : str) : str :=
  repeat c (k - length s) ++ s.

(** [s.slice(-k)]: the last [k] characters (the whole string when it is
    shorter). *)
Definition slice_last (k : nat) (s : str) : str :=
  skipn (length s - k) s.

(** [s[i]], [undefined] out of range. *)
Definition charAt (s : str) (i : nat) : option ascii := nth_error s i.

(** *** [parseInt(s, 10)] *)

Definition is_digit (c : ascii) : bool :=
  let n := N_of_ascii c in ((48 <=? n) && (n <=? 57))%N.

Definition digit_val (c : ascii) : Z := Z.of_N (N_of_ascii c) - 48.

(** White space skipped by [parseInt] and removed by [trim]: the
    characters below 256 of the ECMAScript WhiteSpace and LineTerminator
    classes, that is tab, line feed, vertical tab, form feed, carriage
    return, space and the no-break space U+00A0. *)
Definition is_space (c : ascii) : bool :=
  let n := N_of_ascii c in
  ((n =? 32) || (n =? 9) || (n =? 10) || (n =? 11) || (n =? 12) || (n =? 13)
   || (n =? 160))%N.

Fixpoint skip_spaces (s : str) : str :=
  match s with
  | c :: s' => if is_space c then skip_spaces s' else s
  | [] => []
  end.

(** The value of the longest prefix of digits, [acc] being the value read
    so far; [None] when no digit has been read. *)
Fixpoint read_digits (s : str) (acc : option Z) : option Z :=
  match s with
  | c :: s' =>
      if is_digit c
      then read_digits s' (Some (match acc with
                                 | Some a => 10 * a + digit_val c
                                 | None => digit_val c
                                 end)%Z)
      else acc
  | [] => acc
  end.

Definition parseInt (s : str) : num :=
  match skip_spaces s with
  | c :: s' =>
      if Ascii.eqb c "-"%char then option_map Z.opp (read_digits s' None)
      else if Ascii.eqb c "+"%char then read_digits s' None
      else read_digits (c :: s') None
  | [] => None
  end.

(** [parseInt] of a value that may be [undefined]. *)
Definition parseInt_opt (s : option ascii) : num :=
  match s with
  | Some c => parseInt [c]
  | None => None
  end.

End JS.

Import JS.

(* ===================================================================== *)
(** ** The EAN-13 generator                                                *)
(* ===================================================================== *)

(** [generateUniqueBarcode(productId, index)] of
    [src/api/update-products-barra.js]; [src/unnamed/part_001] has the same
    body (its second parameter defaults to 0 and is always passed). *)
Module Barcode.

(** [`200${String(productId).padStart(6, '0').slice(-6)}${String(index).padStart(3, '0')}`] *)
Definition baseCode (productId index : N) : str :=
  lit "200"
  ++ slice_last 6 (padStart 6 "0"%char (String_of_N productId))
  ++ padStart 3 "0"%char (String_of_N index).

(** One turn of [for (let i = 0; i < 12; i++)]. *)
Definition sum_step (code : str) (sum : num) (i : nat) : num :=
  let digit := parseInt_opt (charAt code i) in
  num_add sum (if Nat.even i then digit else num_mul digit (Some 3%Z)).

Definition weighted_sum (code : str) : num :=
  fold_left (sum_step code) (seq 0 12) (Some 0%Z).

(** [(10 - (sum % 10)) % 10] *)
Definition checkDigit (sum : num) : num :=
  num_rem (num_sub (Some 10%Z) (num_rem sum (Some 10%Z))) (Some 10%Z).

Definition generateUniqueBarcode (productId index : N) : str :=
  let code := baseCode productId index in
  code ++ String_of_num (checkDigit (weighted_sum code)).

End Barcode.


(* ===================================================================== *)
(** ** More string operations of the scripts                               *)
(* ===================================================================== *)

Module Text.

(** [s.split(c)] for a one-character separator: never empty. *)
Fixpoint split (sep : ascii) (s : str) : list str :=
  match s with
  | [] => [[]]
  | c :: s' =>
      if Ascii.eqb c sep then [] :: split sep s'
      else match split sep s' with
           | p :: ps => (c :: p) :: ps
           | [] => [[c]]
           end
  end.

(** [s.trim()] *)
Definition trim (s : str) : str := rev (skip_spaces (rev (skip_spaces s))).

(** The lower case of a character below 256: [A]-[Z], and the Latin-1
    capitals U+00C0-U+00DE except the sign U+00D7, move up by 32. *)
Definition lower_char (c : ascii) : ascii :=
  let n := N_of_ascii c in
  if ((65 <=? n) && (n <=? 90))%N
     || ((192 <=? n) && (n <=? 222) && negb (n =? 215))%N
  then ascii_of_N (n + 32) else c.

(** [s.toLowerCase()] *)
Definition toLowerCase (s : str) : str := map lower_char s.

(** [list.includes(t)] for an array of strings. *)
Definition includes (l : list str) (t : str) : bool := existsb (str_eqb t) l.

Fixpoint starts_with (p s : str) : bool :=
  match p, s with
  | [], _ => true
  | x :: p', y :: s' => Ascii.eqb x y && starts_with p' s'
  | _ :: _, [] => false
  end.

(** [s.includes(sub)] for strings. *)
Fixpoint str_includes (sub s : str) : bool :=
  starts_with sub s
  || match s with
     | [] => false
     | _ :: s' => str_includes sub s'
     end.

(** The longest prefix without [c], and what follows it. *)
Fixpoint span_not (c : ascii) (s : str) : str * str :=
  match s with
  | [] => ([], [])
  | x :: s' =>
      if Ascii.eqb x c then ([], s)
      else let (run, after) := span_not c s' in (x :: run, after)
  end.

(** [; rel="next"] preceded by the closing bracket. *)
Definition next_suffix : str :=
  lit ">; rel=" ++ [dquote] ++ lit "next" ++ [dquote].

(** [rel="next"] *)
Definition rel_next : str := lit "rel=" ++ [dquote] ++ lit "next" ++ [dquote].

(** The regular expression [/<([^>]+)>; rel="next"/] tried just after an
    opening bracket: [[^>]+] can only stop at the first [>], so the capture
    is the longest run without [>], which must not be empty. *)
Definition match_next_here (s : str) : option str :=
  let (run, after) := span_not ">"%char s in
  match run with
  | [] => None
  | _ :: _ => if starts_with next_suffix after then Some run else None
  end.

(** [s.match(/<([^>]+)>; rel="next"/)]: capture group 1 of the leftmost
    match, [None] for [null]. *)
Fixpoint match_next (s : str) : option str :=
  match s with
  | [] => None
  | c :: s' =>
      if Ascii.eqb c "<"%char
      then match match_next_here s' with
           | Some u => Some u
           | None => match_next s'
           end
      else match_next s'
  end.

(** A JavaScript [Set] of strings, in insertion order. *)
Definition StrSet := list str.

Definition Set_has (s : StrSet) (x : str) : bool := existsb (str_eqb x) s.

Definition Set_add (s : StrSet) (x : str) : StrSet :=
  if Set_has s x then s else s ++ [x].

End Text.

Import Text.

(* ===================================================================== *)
(** ** Catalog data, HTTP and the effect monad                             *)
(* ===================================================================== *)

Module Http.

(** The fields of a Shopify product the scripts read.  A missing or empty
    [barcode] or [body_html] is falsy; an [id] of 0 stands for a missing id. *)
Record Variant := { variant_id : N; barcode : option str }.

Record Product := {
  id : N;
  title : str;
  tags : str;
  body_html : option str;
  variants : list Variant
}.

Record Metafield := { namespace : str; key : str; value : str }.

(** [{ id: variant.id, barcode: newBarcode }] *)
Record UpdatedVariant := { uv_id : N; uv_barcode : str }.

(** [updatePayload.product]: [body_html] and [variants] are present only
    when they were set. *)
Record ProductPayload := {
  pp_id : N;
  pp_body_html : option str;
  pp_variants : option (list UpdatedVariant)
}.

(** The object given to [JSON.stringify] as request body. *)
Inductive Payload :=
| PayloadProduct (p : ProductPayload)
| PayloadVariant (v : UpdatedVariant).

Inductive Method := GET | PUT.

(** The [options] argument of [fetch]. *)
Record Options := {
  method : Method;
  req_headers : list (str * str);
  body : option Payload
}.

(** A parsed JSON response body: [data.products] and [data.metafields]. *)
Record Json := {
  products : list Product;
  metafields : option (list Metafield)
}.

(** A response; [json_body] is [None] when the body is not JSON, so that
    [res.json()] rejects. *)
Record Response := {
  status : Z;
  statusText : str;
  headers : list (str * str);
  text_body : str;
  json_body : option Json
}.

(** [res.ok] *)
Definition ok (res : Response) : bool :=
  ((200 <=? status res) && (status res <=? 299))%Z.

(** [res.headers.get(name)]: header names compare without case. *)
Definition headers_get (res : Response) (name : str) : option str :=
  option_map snd
    (find (fun h => str_eqb (toLowerCase (fst h)) (toLowerCase name))
          (headers res)).

Inductive Error :=
| HttpError (status : Z) (text : str)
    (** [new Error(`${res.status} ${res.statusText}`)] and
        [new Error(`${res.status}: ${errorText}`)] *)
| RetriesExhausted (retries : nat) (url : str)
    (** [new Error(`Fallaron ${retries} reintentos para ${url}`)] *)
| FetchFailed (message : str)
    (** the rejection of [fetch] itself *)
| SyntaxError
    (** [res.json()] or [JSON.parse] on a malformed body *)
| TypeError.
    (** a property read on [undefined] *)

(** What the network does with one request. *)
Inductive Outcome :=
| Responded (res : Response)
| Rejected (message : str).

(** Console output ([console.warn] and [console.error]; the progress lines
    of [console.log] are not modelled). *)
Inductive Log :=
| LogRateLimit (retryAfter : num)
| LogRequestError (attempt retries : nat) (e : Error)
| LogNoUniqueBarcode (variant : N)
| LogUpdateError (title : str) (e : Error)
| LogVariantError (variant : N) (e : Error)
| LogGeneralError (e : Error)
| LogMissingEnv
| LogNotAuthentic
| LogInvalidProduct
| LogHandlerError (e : Error).

Inductive Event :=
| EvFetch (url : str) (options : Options)
| EvSleep (ms : num)
| EvConsole (entry : Log).

(** The events so far, newest first. *)
Definition Trace := list Event.

(** The remote API: the outcome of a request, given everything that
    happened before it. *)
Definition Network := Trace -> str -> Options -> Outcome.

Inductive Result (A : Type) :=
| Ok (a : A)
| Throw (e : Error)
| OutOfFuel.
    (** the model's loop bound was reached: no JavaScript counterpart *)

Arguments Throw {A} e.
Arguments OutOfFuel {A}.

Definition M (A : Type) := Trace -> Result A * Trace.

Definition ret {A} (a : A) : M A := fun t => (Ok a, t).

Definition bind {A B} (c : M A) (k : A -> M B) : M B :=
  fun t =>
    match c t with
    | (Ok a, t') => k a t'
    | (Throw e, t') => (Throw e, t')
    | (OutOfFuel, t') => (OutOfFuel, t')
    end.

Definition throw {A} (e : Error) : M A := fun t => (Throw e, t).

Definition out_of_fuel {A} : M A := fun t => (OutOfFuel, t).

(** [try { c } catch (e) { h e }] *)
Definition try_catch {A} (c : M A) (h : Error -> M A) : M A :=
  fun t =>
    match c t with
    | (Throw e, t') => h e t'
    | r => r
    end.

Definition sleep (ms : num) : M unit := fun t => (Ok tt, EvSleep ms :: t).

Definition console (entry : Log) : M unit :=
  fun t => (Ok tt, EvConsole entry :: t).

(** [await res.json()] *)
Definition json (res : Response) : M Json :=
  match json_body res with
  | Some data => ret data
  | None => throw SyntaxError
  end.

End Http.

Import Http.

Declare Scope js_scope.
Delimit Scope js_scope with js.
Notation "x <- c ;; k" := (bind c (fun x => k))
  (at level 100, c at next level, right associativity) : js_scope.
Notation "c ;;; k" := (bind c (fun _ => k))
  (at level 100, right associativity) : js_scope.
Open Scope js_scope.

(** [process.env] *)
Record Env := {
  SHOPIFY_SHOP : option str;
  SHOPIFY_ADMIN_TOKEN : option str;
  SHOPIFY_API_VERSION : option str;
  SHOPIFY_WEBHOOK_SECRET : option str
}.

(** [`${a}`] for a value that may be [undefined]. *)
Definition interpolate (a : option str) : str :=
  match a with
  | Some s => s
  | None => lit "undefined"
  end.

(** [a || b] on strings. *)
Definition or_else (a : option str) (b : str) : str :=
  match a with
  | Some (c :: s) => c :: s
  | _ => b
  end.

(* ===================================================================== *)
(** ** The batch scripts: what both share                                  *)
(* ===================================================================== *)

(** [shopifyFetch] and [fetchAllProducts] are the same text in
    [src/api/update-products-barra.js] and [src/unnamed/part_000]; so are
    the tag list and the description template. *)
Module Batch.

Definition default_retries : nat := 5.

(** [{ "X-Shopify-Access-Token": TOKEN, "Content-Type": "application/json" }] *)
Definition json_headers (TOKEN : str) : list (str * str) :=
  [(lit "X-Shopify-Access-Token", TOKEN);
   (lit "Content-Type", lit "application/json")].

(** [{ "X-Shopify-Access-Token": TOKEN }] *)
Definition token_headers (TOKEN : str) : list (str * str) :=
  [(lit "X-Shopify-Access-Token", TOKEN)].

(** [parseInt(res.headers.get("Retry-After") || "2", 10)] *)
Definition retryAfter (res : Response) : num :=
  parseInt (or_else (headers_get res (lit "Retry-After")) (lit "2")).

Section WithNetwork.

Variable net : Network.

(** [await fetch(url, options)] *)
Definition fetch (url : str) (options : Options) : M Response :=
  fun t =>
    match net t url options with
    | Responded res => (Ok res, EvFetch url options :: t)
    | Rejected msg => (Throw (FetchFailed msg), EvFetch url options :: t)
    end.

(** [for (let i = 0; i < retries; i++) { ... }] followed by the final
    [throw]; [remaining] is [retries - i]. *)
Fixpoint shopifyFetch_loop (url : str) (options : Options) (retries : nat)
    (remaining : nat) : M Response :=
  match remaining with
  | O => throw (RetriesExhausted retries url)
  | S remaining' =>
      res <- fetch url options ;;
      if (status res =? 429)%Z then
        let retryAfter := retryAfter res in
        console (LogRateLimit retryAfter) ;;;
        sleep (num_mul retryAfter (Some 1000%Z)) ;;;
        shopifyFetch_loop url options retries remaining'
      else if negb (ok res) then
        throw (HttpError (status res) (statusText res))
      else
        ret res
  end.

Definition shopifyFetch (url : str) (options : Options) (retries : nat)
  : M Response :=
  shopifyFetch_loop url options retries retries.

(** The new value of [url] after a page. *)
Definition nextUrl (res : Response) : option str :=
  let linkHeader := headers_get res (lit "link") in
  if truthy linkHeader && str_includes rel_next (or_else linkHeader [])
  then match_next (or_else linkHeader [])
  else None.

(** [while (url) { ... }]; [fuel] bounds the number of pages. *)
Fixpoint fetchAllProducts_loop (fuel : nat) (TOKEN : str) (url : option str)
    (allProducts : list Product) : M (list Product) :=
  if truthy url then
    match fuel with
    | O => out_of_fuel
    | S fuel' =>
        res <- shopifyFetch (or_else url [])
                 {| method := GET; req_headers := json_headers TOKEN;
                    body := None |}
                 default_retries ;;
        data <- json res ;;
        fetchAllProducts_loop fuel' TOKEN (nextUrl res)
          (allProducts ++ products data)
    end
  else ret allProducts.

Definition products_url (SHOP API_VERSION : str) : str :=
  lit "https://" ++ SHOP ++ lit "/admin/api/" ++ API_VERSION
  ++ lit "/products.json?limit=250".

Definition fetchAllProducts (fuel : nat) (SHOP API_VERSION TOKEN : str)
  : M (list Product) :=
  fetchAllProducts_loop fuel TOKEN (Some (products_url SHOP API_VERSION)) [].

End WithNetwork.

(** The array literal given to [includes] in the tag filter. *)
Definition targetTags : list str :=
  [lit "all-jumpers"; lit "water-slides"; lit "combos-wet-dry";
   lit "combos wet/dry"; lit "interactives"; lit "obstacle courses";
   lit "Obstacle Courses"; lit "slide combos"; lit "Slide Combos"].

(** [product.tags.split(",").map((t) => t.trim().toLowerCase())] *)
Definition tagsOf (product : Product) : list str :=
  map (fun t => toLowerCase (trim t)) (split ","%char (tags product)).

(** [tags.find((t) => [...].includes(t))] *)
Definition tagMatch (product : Product) : option str :=
  find (includes targetTags) (tagsOf product).

(** [metafields.find((m) => m.namespace === "custom" && m.key === nsKey)?.value || ""] *)
Definition getMeta (metafields : list Metafield) (nsKey : str) : str :=
  match find (fun m => str_eqb (namespace m) (lit "custom")
                       && str_eqb (key m) nsKey) metafields with
  | Some m => value m
  | None => []
  end.

Definition nl : ascii := ascii_of_nat 10.

(** One line of a template literal: indentation, text, line break. *)
Definition line (indent : nat) (text : str) : str :=
  repeat " "%char indent ++ text ++ [nl].

(** [cond ? text : ""] *)
Definition when_set (cond : str) (text : str) : str :=
  match cond with
  | [] => []
  | _ :: _ => text
  end.

(** The three sentences shared by every description template. *)
Definition usp_lines (indent : nat) (tagMatch title : str) : str :=
  line indent (lit "Take Your Business to the Next Level with Tago's Jump Inc.<br>")
  ++ line indent
       (lit "With any inflatable " ++ tagMatch
        ++ lit " from Tago's Jump Inc., you can rest easy knowing you're getting a top-of-the-line, commercial-grade inflatable that's built to last and maximize your investment.<br><br>")
  ++ [nl]
  ++ line indent
       (lit "The " ++ title
        ++ lit " is no exception. It's the perfect option for any event where people want to cool off and have some adrenaline-pumping fun. With a spectacular design and vibrant color scheme, the "
        ++ title
        ++ lit " adds a pop of excitement and visual appeal to any party, ensuring your customers come back for more.<br><br>")
  ++ [nl]
  ++ line indent
       (lit "The " ++ title
        ++ lit " from Tago's Jump Inc. is an ideal choice for any event.<br>").

(** The template literal [description] of [updateProducts]. *)
Definition description (tagMatch title dimensions includes warranty : str)
  : str :=
  [nl]
  ++ line 8 (lit "<div class=" ++ [dquote] ++ lit "product-usp" ++ [dquote]
             ++ lit ">")
  ++ usp_lines 10 tagMatch title
  ++ line 10 (when_set dimensions
                (lit "<strong>Dimensions:</strong> " ++ dimensions ++ lit "<br>"))
  ++ line 10 (when_set includes
                (lit "<strong>Includes:</strong> " ++ includes ++ lit "<br>"))
  ++ line 10 (when_set warranty
                (lit "<strong>Warranty:</strong> " ++ warranty))
  ++ line 8 (lit "</div>")
  ++ repeat " "%char 6.

Definition metafields_url (SHOP API_VERSION : str) (product : Product) : str :=
  lit "https://" ++ SHOP ++ lit "/admin/api/" ++ API_VERSION
  ++ lit "/products/" ++ String_of_N (id product) ++ lit "/metafields.json".

Definition product_url (SHOP API_VERSION : str) (productId : N) : str :=
  lit "https://" ++ SHOP ++ lit "/admin/api/" ++ API_VERSION
  ++ lit "/products/" ++ String_of_N productId ++ lit ".json".

(** The description built from the metafields of a product. *)
Definition descriptionOf (tagMatch : str) (product : Product) (data : Json)
  : str :=
  let metafields := match metafields data with Some l => l | None => [] end in
  description tagMatch (title product)
    (getMeta metafields (lit "dimensions"))
    (getMeta metafields (lit "includes"))
    (getMeta metafields (lit "warranty")).

End Batch.

(* ===================================================================== *)
(** ** [src/api/update-products-barra.js]                                  *)
(* ===================================================================== *)

Module UpdateProductsBarra.

Import Batch.

(** [getExistingBarcodes(products)] *)
Definition getExistingBarcodes (products : list Product) : StrSet :=
  fold_left
    (fun existingBarcodes product =>
       fold_left
         (fun existingBarcodes variant =>
            if truthy (barcode variant)
            then Set_add existingBarcodes (or_else (barcode variant) [])
            else existingBarcodes)
         (variants product) existingBarcodes)
    products [].

Definition maxAttempts : N := 100.

(** [do { newBarcode = generateUniqueBarcode(product.id, base + attempts);
         attempts++; }
     while (existingBarcodes.has(newBarcode) && attempts < maxAttempts)],
    where [base] is [productIndex * 100 + variantIndex].  The result is
    [newBarcode] and [attempts] at the exit of the loop; [fuel] counts the
    turns that may follow this one. *)
Fixpoint doWhile (fuel : nat) (productId base attempts : N)
    (existingBarcodes : StrSet) : str * N :=
  let newBarcode := Barcode.generateUniqueBarcode productId (base + attempts) in
  let attempts := (attempts + 1)%N in
  if Set_has existingBarcodes newBarcode && (attempts <? maxAttempts)%N then
    match fuel with
    | S fuel' => doWhile fuel' productId base attempts existingBarcodes
    | O => (newBarcode, attempts)
    end
  else (newBarcode, attempts).

(** What the loop over the variants of one product changes. *)
Record VariantsState := {
  vs_existingBarcodes : StrSet;
  vs_updatedVariants : list UpdatedVariant;
  vs_barcodesGenerated : nat
}.

(** The body of [for (let variantIndex = 0; ...)]. *)
Definition variant_step (product : Product) (productIndex variantIndex : N)
    (variant : Variant) (st : VariantsState) : M VariantsState :=
  if negb (truthy (barcode variant)) then
    let '(newBarcode, attempts) :=
      doWhile (N.to_nat maxAttempts) (id product)
        (productIndex * 100 + variantIndex) 0 (vs_existingBarcodes st) in
    if (maxAttempts <=? attempts)%N then
      console (LogNoUniqueBarcode (variant_id variant)) ;;;
      ret st
    else
      ret {| vs_existingBarcodes := Set_add (vs_existingBarcodes st) newBarcode;
             vs_updatedVariants :=
               vs_updatedVariants st
               ++ [{| uv_id := variant_id variant; uv_barcode := newBarcode |}];
             vs_barcodesGenerated := S (vs_barcodesGenerated st) |}
  else ret st.

Fixpoint variants_loop (product : Product) (productIndex variantIndex : N)
    (vs : list Variant) (st : VariantsState) : M VariantsState :=
  match vs with
  | [] => ret st
  | variant :: rest =>
      st' <- variant_step product productIndex variantIndex variant st ;;
      variants_loop product productIndex (variantIndex + 1) rest st'
  end.

(** What the loop over the products changes. *)
Record LoopState := {
  existingBarcodes : StrSet;
  updated : list str;
  barcodesGenerated : nat
}.

(** [updatePayload] *)
Definition updatePayload (product : Product) (description : str)
    (updatedVariants : list UpdatedVariant) : ProductPayload :=
  {| pp_id := id product;
     pp_body_html := Some description;
     pp_variants := match updatedVariants with
                    | [] => None
                    | _ :: _ => Some updatedVariants
                    end |}.

Section WithNetwork.

Variable net : Network.
Variables SHOP API_VERSION TOKEN : str.

(** The body of [for (let productIndex = 0; ...)]; returning the state
    unchanged is [continue]. *)
Definition product_step (productIndex : N) (product : Product)
    (st : LoopState) : M LoopState :=
  let tagMatch := tagMatch product in
  if negb (truthy tagMatch) then ret st
  else
    metafieldsRes <- shopifyFetch net (metafields_url SHOP API_VERSION product)
                       {| method := GET; req_headers := token_headers TOKEN;
                          body := None |}
                       default_retries ;;
    data <- json metafieldsRes ;;
    let description := descriptionOf (or_else tagMatch []) product data in
    vst <- variants_loop product productIndex 0 (variants product)
             {| vs_existingBarcodes := existingBarcodes st;
                vs_updatedVariants := [];
                vs_barcodesGenerated := barcodesGenerated st |} ;;
    let payload := updatePayload product description (vs_updatedVariants vst) in
    updated' <-
      try_catch
        (_ <- shopifyFetch net (product_url SHOP API_VERSION (id product))
                {| method := PUT; req_headers := json_headers TOKEN;
                   body := Some (PayloadProduct payload) |}
                default_retries ;;
         ret (updated st ++ [title product]))
        (fun err =>
           console (LogUpdateError (title product) err) ;;;
           ret (updated st)) ;;
    sleep (Some 500%Z) ;;;
    ret {| existingBarcodes := vs_existingBarcodes vst;
           updated := updated';
           barcodesGenerated := vs_barcodesGenerated vst |}.

Fixpoint products_loop (productIndex : N) (products : list Product)
    (st : LoopState) : M LoopState :=
  match products with
  | [] => ret st
  | product :: rest =>
      st' <- product_step productIndex product st ;;
      products_loop (productIndex + 1) rest st'
  end.

End WithNetwork.

(** [updateProducts()]; [fuel] bounds the pages of [fetchAllProducts]. *)
Definition updateProducts (net : Network) (env : Env) (fuel : nat) : M unit :=
  let SHOP := SHOPIFY_SHOP env in
  let TOKEN := SHOPIFY_ADMIN_TOKEN env in
  let API_VERSION := or_else (SHOPIFY_API_VERSION env) (lit "2025-01") in
  if negb (truthy SHOP) || negb (truthy TOKEN) then
    console LogMissingEnv
  else
    try_catch
      (products <- fetchAllProducts net fuel (or_else SHOP []) API_VERSION
                     (or_else TOKEN []) ;;
       let existingBarcodes := getExistingBarcodes products in
       _ <- products_loop net (or_else SHOP []) API_VERSION (or_else TOKEN [])
              0 products
              {| existingBarcodes := existingBarcodes; updated := [];
                 barcodesGenerated := 0 |} ;;
       ret tt)
      (fun e => console (LogGeneralError e)).

Section BarcodeExists.

Variable net : Network.

(** What [console.warn] writes when the check fails: the barcode and the
    error. *)
Variable barcode_warning : str -> Error -> Log.

Definition barcode_url (SHOP API_VERSION barcode : str) : str :=
  lit "https://" ++ SHOP ++ lit "/admin/api/" ++ API_VERSION
  ++ lit "/products.json?limit=1&fields=id&variants.barcode=" ++ barcode.

(** [barcodeExists(SHOP, API_VERSION, TOKEN, barcode)];
    [data.products && data.products.length > 0] on the array of the
    response. *)
Definition barcodeExists (SHOP API_VERSION TOKEN barcode : str) : M bool :=
  try_catch
    (res <- shopifyFetch net (barcode_url SHOP API_VERSION barcode)
              {| method := GET; req_headers := json_headers TOKEN;
                 body := None |}
              default_retries ;;
     data <- json res ;;
     ret (Nat.ltb 0 (length (products data))))
    (fun error =>
       console (barcode_warning barcode error) ;;;
       ret false).

End BarcodeExists.

End UpdateProductsBarra.

(* ===================================================================== *)
(** ** [src/unnamed/part_000] ([api/update-products.js])                   *)
(* ===================================================================== *)

Module UpdateProducts.

Import Batch.

Section WithNetwork.

Variable net : Network.
Variables SHOP API_VERSION TOKEN : str.

(** The body of [for (const product of products)]; [updated] is the list
    of titles pushed so far. *)
Definition product_step (product : Product) (updated : list str)
  : M (list str) :=
  let tagMatch := tagMatch product in
  if negb (truthy tagMatch) then ret updated
  else
    metafieldsRes <- shopifyFetch net (metafields_url SHOP API_VERSION product)
                       {| method := GET; req_headers := token_headers TOKEN;
                          body := None |}
                       default_retries ;;
    data <- json metafieldsRes ;;
    let description := descriptionOf (or_else tagMatch []) product data in
    updated' <-
      try_catch
        (_ <- shopifyFetch net (product_url SHOP API_VERSION (id product))
                {| method := PUT; req_headers := json_headers TOKEN;
                   body := Some (PayloadProduct
                                   {| pp_id := id product;
                                      pp_body_html := Some description;
                                      pp_variants := None |}) |}
                default_retries ;;
         ret (updated ++ [title product]))
        (fun err =>
           console (LogUpdateError (title product) err) ;;;
           ret updated) ;;
    sleep (Some 300%Z) ;;;
    ret updated'.

Fixpoint products_loop (products : list Product) (updated : list str)
  : M (list str) :=
  match products with
  | [] => ret updated
  | product :: rest =>
      updated' <- product_step product updated ;;
      products_loop rest updated'
  end.

End WithNetwork.

Definition updateProducts (net : Network) (env : Env) (fuel : nat) : M unit :=
  let SHOP := SHOPIFY_SHOP env in
  let TOKEN := SHOPIFY_ADMIN_TOKEN env in
  let API_VERSION := or_else (SHOPIFY_API_VERSION env) (lit "2025-01") in
  if negb (truthy SHOP) || negb (truthy TOKEN) then
    console LogMissingEnv
  else
    try_catch
      (products <- fetchAllProducts net fuel (or_else SHOP []) API_VERSION
                     (or_else TOKEN []) ;;
       _ <- products_loop net (or_else SHOP []) API_VERSION (or_else TOKEN [])
              products [] ;;
       ret tt)
      (fun e => console (LogGeneralError e)).

End UpdateProducts.

(* ===================================================================== *)
(** ** [src/unnamed/part_001] ([netlify/functions/product-created.js])     *)
(* ===================================================================== *)

Module ProductCreated.

Import Batch.

Definition default_retries : nat := 3.

(** The same function as in the batch script. *)
Definition generateUniqueBarcode (productId variantIndex : N) : str :=
  Barcode.generateUniqueBarcode productId variantIndex.

(** The array literal of [generateProductDescription]. *)
Definition targetTags : list str :=
  [lit "all-jumpers"; lit "water-slides"; lit "combos-wet-dry";
   lit "combos wet/dry"; lit "interactives"; lit "obstacle courses";
   lit "slide combos"].

(** [generateProductDescription(product)] *)
Definition generateProductDescription (product : Product) : str :=
  let tagMatch := find (includes targetTags) (tagsOf product) in
  if negb (truthy tagMatch) then
    [nl]
    ++ line 6 (lit "<div class=" ++ [dquote] ++ lit "product-description"
               ++ [dquote] ++ lit ">")
    ++ line 8 (lit "<p>High-quality product from Tago's Jump Inc. Built with commercial-grade materials for durability and performance.</p>")
    ++ line 8 (lit "<p>Perfect for events, parties, and commercial use. Trust in our commitment to quality and customer satisfaction.</p>")
    ++ line 6 (lit "</div>")
    ++ repeat " "%char 4
  else
    [nl]
    ++ line 4 (lit "<div class=" ++ [dquote] ++ lit "product-usp" ++ [dquote]
               ++ lit ">")
    ++ usp_lines 6 (or_else tagMatch []) (title product)
    ++ line 4 (lit "</div>")
    ++ repeat " "%char 2.

(** The [forEach] over [product.variants]: the entries pushed to
    [updatedVariants], [index] being the position of the first variant of
    [vs]. *)
Fixpoint newVariants (productId : N) (index : N) (vs : list Variant)
  : list UpdatedVariant :=
  match vs with
  | [] => []
  | variant :: rest =>
      (if negb (truthy (barcode variant))
       then [{| uv_id := variant_id variant;
                uv_barcode := generateUniqueBarcode productId index |}]
       else [])
      ++ newVariants productId (index + 1) rest
  end.

(** [!product.body_html || product.body_html.trim() === ''] *)
Definition needsDescription (product : Product) : bool :=
  negb (truthy (body_html product))
  || str_eqb (trim (or_else (body_html product) [])) [].

(** [updatePayload.product] as it is when the request is prepared. *)
Definition updatePayload (product : Product) : ProductPayload :=
  let updatedVariants := newVariants (id product) 0 (variants product) in
  {| pp_id := id product;
     pp_body_html := if needsDescription product
                     then Some (generateProductDescription product)
                     else None;
     pp_variants := match updatedVariants with
                    | [] => None
                    | _ :: _ => Some updatedVariants
                    end |}.

(** The object [processNewProduct] returns; a field left out is [None]. *)
Record ProcessResult := {
  success : bool;
  changes : bool;
  r_barcodesGenerated : option nat;
  descriptionAdded : option bool;
  partial : option bool
}.

Definition variant_url (SHOP API_VERSION : str) (variantId : N) : str :=
  lit "https://" ++ SHOP ++ lit "/admin/api/" ++ API_VERSION
  ++ lit "/variants/" ++ String_of_N variantId ++ lit ".json".

(** How one turn of the loop of [shopifyFetch] ends when it does not
    throw. *)
Inductive Turn :=
| Continue
| Return (res : Response).

Section WithNetwork.

Variable net : Network.

(** The [try] block of [shopifyFetch]. *)
Definition attempt (url : str) (options : Options) : M Turn :=
  res <- Batch.fetch net url options ;;
  if (status res =? 429)%Z then
    let retryAfter := retryAfter res in
    console (LogRateLimit retryAfter) ;;;
    sleep (num_mul retryAfter (Some 1000%Z)) ;;;
    ret Continue
  else if negb (ok res) then
    let errorText := text_body res in
    throw (HttpError (status res) errorText)
  else
    ret (Return res).

(** [for (let i = 0; i < retries; i++) { try {...} catch (error) {...} }];
    [remaining] is [retries - i].  Leaving the loop returns [undefined]
    ([None]). *)
Fixpoint shopifyFetch_loop (url : str) (options : Options) (retries : nat)
    (i : nat) (remaining : nat) : M (option Response) :=
  match remaining with
  | O => ret None
  | S remaining' =>
      turn <- try_catch (attempt url options)
                (fun error =>
                   console (LogRequestError (i + 1) retries error) ;;;
                   if Nat.eqb i (retries - 1) then throw error
                   else sleep (Some 1000%Z) ;;; ret Continue) ;;
      match turn with
      | Continue => shopifyFetch_loop url options retries (S i) remaining'
      | Return res => ret (Some res)
      end
  end.

Definition shopifyFetch (url : str) (options : Options) (retries : nat)
  : M (option Response) :=
  shopifyFetch_loop url options retries 0 retries.

Variables SHOP API_VERSION TOKEN : str.

(** [for (const variant of updatedVariants) { try {...} catch {...} }] of
    the fallback; the result is [variantsUpdated]. *)
Fixpoint updateVariants (updatedVariants : list UpdatedVariant)
    (variantsUpdated : nat) : M nat :=
  match updatedVariants with
  | [] => ret variantsUpdated
  | variant :: rest =>
      variantsUpdated' <-
        try_catch
          (_ <- shopifyFetch (variant_url SHOP API_VERSION (uv_id variant))
                  {| method := PUT; req_headers := json_headers TOKEN;
                     body := Some (PayloadVariant variant) |}
                  default_retries ;;
           ret (S variantsUpdated))
          (fun variantError =>
             console (LogVariantError (uv_id variant) variantError) ;;;
             ret variantsUpdated) ;;
      updateVariants rest variantsUpdated'
  end.

(** [processNewProduct(product)] once [SHOP], [TOKEN] and [API_VERSION]
    are read. *)
Definition processNewProduct (product : Product) : M ProcessResult :=
  let updatedVariants := newVariants (id product) 0 (variants product) in
  let barcodesGenerated := length updatedVariants in
  let payload := updatePayload product in
  if negb (truthy (pp_body_html payload))
     && Nat.eqb (length updatedVariants) 0
  then
    ret {| success := true; changes := false; r_barcodesGenerated := None;
           descriptionAdded := None; partial := None |}
  else
    try_catch
      (response <- shopifyFetch (product_url SHOP API_VERSION (id product))
                     {| method := PUT; req_headers := json_headers TOKEN;
                        body := Some (PayloadProduct payload) |}
                     default_retries ;;
       _ <- match response with
            | Some res => json res
            | None => throw TypeError
            end ;;
       ret {| success := true; changes := true;
              r_barcodesGenerated := Some barcodesGenerated;
              descriptionAdded := Some (truthy (pp_body_html payload));
              partial := None |})
      (fun error =>
         console (LogUpdateError (title product) error) ;;;
         if Nat.ltb 0 (length updatedVariants) then
           variantsUpdated <- updateVariants updatedVariants 0 ;;
           ret {| success := Nat.ltb 0 variantsUpdated;
                  changes := Nat.ltb 0 variantsUpdated;
                  r_barcodesGenerated := Some variantsUpdated;
                  descriptionAdded := Some false;
                  partial := Some true |}
         else throw error).

End WithNetwork.

(** The [event] Netlify passes to the handler. *)
Record WebhookEvent := {
  httpMethod : str;
  ev_headers : list (str * str);
  ev_body : str
}.

(** [event.headers[name]] *)
Definition header (event : WebhookEvent) (name : str) : option str :=
  option_map snd (find (fun h => str_eqb (fst h) name) (ev_headers event)).

(** The [body] of the handler's answer, before [JSON.stringify]; the
    clock readings ([processingTime], [timestamp]) are left out. *)
Inductive AnswerBody :=
| MethodNotAllowed
| NotAuthorized
| InvalidData
| Processed (success : bool) (changes : bool) (productId : N)
    (productTitle : str) (barcodesGenerated : nat)
    (descriptionAdded partial : bool)
| InternalError (e : Error).

Record Answer := { statusCode : Z; answer : AnswerBody }.

Section Handler.

Variable net : Network.

(** [crypto.createHmac('sha256', key).update(data, 'utf8').digest('base64')] *)
Variable hmac_sha256_base64 : str -> str -> str.

(** [JSON.parse(event.body)]: [None] when it throws, [Some None] for a
    falsy value such as [null]. *)
Variable JSON_parse : str -> option (option Product).

Variable env : Env.

(** [verifyWebhook(data, hmacHeader)]; creating the HMAC throws without a
    key. *)
Definition verifyWebhook (data hmacHeader : str) : M bool :=
  match SHOPIFY_WEBHOOK_SECRET env with
  | Some secret =>
      let calculated := hmac_sha256_base64 secret data in
      ret (str_eqb calculated hmacHeader)
  | None => throw TypeError
  end.

(** The handler after the signature check: parse and process. *)
Definition handleProduct (event : WebhookEvent) : M Answer :=
  match JSON_parse (ev_body event) with
  | None => throw SyntaxError
  | Some product =>
      match product with
      | None =>
          console LogInvalidProduct ;;;
          ret {| statusCode := 400; answer := InvalidData |}
      | Some product =>
          if (id product =? 0)%N then
            console LogInvalidProduct ;;;
            ret {| statusCode := 400; answer := InvalidData |}
          else
            result <- processNewProduct net
                        (interpolate (SHOPIFY_SHOP env))
                        (or_else (SHOPIFY_API_VERSION env) (lit "2024-10"))
                        (interpolate (SHOPIFY_ADMIN_TOKEN env))
                        product ;;
            ret {| statusCode := 200;
                   answer :=
                     Processed (success result) (changes result) (id product)
                       (title product)
                       (match r_barcodesGenerated result with
                        | Some n => n
                        | None => 0
                        end)
                       (match descriptionAdded result with
                        | Some b => b
                        | None => false
                        end)
                       (match partial result with
                        | Some b => b
                        | None => false
                        end) |}
      end
  end.

(** [exports.handler] *)
Definition handler (event : WebhookEvent) : M Answer :=
  if negb (str_eqb (httpMethod event) (lit "POST")) then
    ret {| statusCode := 405; answer := MethodNotAllowed |}
  else
    try_catch
      (let hmacHeader := header event (lit "x-shopify-hmac-sha256") in
       if truthy (SHOPIFY_WEBHOOK_SECRET env) && truthy hmacHeader then
         authentic <- verifyWebhook (ev_body event) (or_else hmacHeader []) ;;
         if negb authentic then
           console LogNotAuthentic ;;;
           ret {| statusCode := 401; answer := NotAuthorized |}
         else handleProduct event
       else handleProduct event)
      (fun error =>
         console (LogHandlerError error) ;;;
         ret {| statusCode := 500; answer := InternalError error |}).

End Handler.

End ProductCreated.

Unset Implicit Arguments.

(* ===================================================================== *)
(** ** Specification-level definitions                                     *)
(* ===================================================================== *)

(** The [k] low decimal digits of [n], most significant first. *)
Fixpoint fixed_digits (k : nat) (n : N) : str :=
  match k with
  | O => []
  | S k' => fixed_digits k' (n / 10) ++ [digit_char (n mod 10)]
  end.

(** The EAN-13 weights of the first twelve digits. *)
Definition ean13_weights : list Z := [1; 3; 1; 3; 1; 3; 1; 3; 1; 3; 1; 3]%Z.

Fixpoint dot (ws ds : list Z) : Z :=
  match ws, ds with
  | w :: ws', d :: ds' => (d * w + dot ws' ds')%Z
  | _, _ => 0%Z
  end.

(** The check digit EAN-13 prescribes for twelve digits [d1..d12]:
    [(10 - ((sum of di * wi) mod 10)) mod 10]. *)
Definition ean13_check (ds : list Z) : Z :=
  ((10 - (dot ean13_weights ds) mod 10) mod 10)%Z.

(** A string of exactly 13 decimal digits whose last digit is the check
    digit of the first twelve. *)
Definition is_ean13 (s : str) : bool :=
  Nat.eqb (length s) 13
  && forallb is_digit s
  && (nth 12 (map digit_val s) 0 =? ean13_check (firstn 12 (map digit_val s)))%Z.

(** The events a 429 response adds to the trace [t] it was received in:
    the request, the warning and the sleep. *)
Definition after_429 (url : str) (options : Options) (res : Response)
    (t : Trace) : Trace :=
  EvSleep (num_mul (Batch.retryAfter res) (Some 1000%Z))
  :: EvConsole (LogRateLimit (Batch.retryAfter res))
  :: EvFetch url options :: t.

(** [rate_limited net url options t j t']: starting in [t], the request
    was issued [j] times, each time answered 429 and followed by the
    back-off, which leads to [t']. *)
Inductive rate_limited (net : Network) (url : str) (options : Options)
  : Trace -> nat -> Trace -> Prop :=
| rate_limited_0 t : rate_limited net url options t 0 t
| rate_limited_S t res j t' :
    net t url options = Responded res ->
    status res = 429%Z ->
    rate_limited net url options (after_429 url options res t) j t' ->
    rate_limited net url options t (S j) t'.

(** How a call of the batch [shopifyFetch] ends, after [j] rate-limited
    attempts that led to the trace [t1]. *)
Definition batch_outcome (net : Network) (url : str) (options : Options)
    (retries j : nat) (t1 : Trace)
    (r : Result Response * Trace) : Prop :=
  (j = retries /\ r = (Throw (RetriesExhausted retries url), t1))
  \/ (j < retries
      /\ ((exists res, net t1 url options = Responded res
                       /\ status res <> 429%Z /\ ok res = true
                       /\ r = (Ok res, EvFetch url options :: t1))
          \/ (exists res, net t1 url options = Responded res
                          /\ status res <> 429%Z /\ ok res = false
                          /\ r = (Throw (HttpError (status res) (statusText res)),
                                  EvFetch url options :: t1))
          \/ (exists msg, net t1 url options = Rejected msg
                          /\ r = (Throw (FetchFailed msg),
                                  EvFetch url options :: t1)))).

(** The number of requests in a trace. *)
Fixpoint count_fetches (t : Trace) : nat :=
  match t with
  | [] => 0
  | EvFetch _ _ :: t' => S (count_fetches t')
  | _ :: t' => count_fetches t'
  end.

(** *** Sample responses and networks *)

Definition sample_response (status : Z) (headers : list (str * str))
    (data : option Json) : Response :=
  {| status := status; statusText := []; headers := headers;
     text_body := []; json_body := data |}.

Definition no_data : Json := {| products := []; metafields := None |}.


(** A 429 response without [Retry-After]. *)
Definition res_429_plain : Response := sample_response 429 [] None.

Definition res_500 : Response := sample_response 500 [] None.

Definition res_200 : Response := sample_response 200 [] (Some no_data).

(** A network that answers the [n]-th request with the [n]-th outcome of a
    script, and with [last] once the script is over. *)
Definition scripted (script : list Outcome) (last : Outcome) : Network :=
  fun t _ _ => nth (count_fetches t) script last.

Definition get_options : Options :=
  {| method := GET; req_headers := []; body := None |}.

Definition sample_url : str := lit "https://shop.example/admin/api/2025-01/products/1.json".

(** The options [fetchAllProducts] gives to [shopifyFetch]. *)
Definition page_options (TOKEN : str) : Options :=
  {| method := GET; req_headers := Batch.json_headers TOKEN; body := None |}.

(** [page_chain net TOKEN t url pages t']: starting in [t], the pages
    reached from [url] by following the [next] links are fetched without
    error, the last one has no [next] link, their [products] arrays are
    [pages], in this order, and the trace is [t'] in the end. *)
Inductive page_chain (net : Network) (TOKEN : str)
  : Trace -> str -> list (list Product) -> Trace -> Prop :=
| page_chain_last t url res data t' :
    Batch.shopifyFetch net url (page_options TOKEN) Batch.default_retries t
    = (Ok res, t') ->
    json_body res = Some data ->
    Batch.nextUrl res = None ->
    page_chain net TOKEN t url [products data] t'
| page_chain_next t url res data t' url' pages t'' :
    Batch.shopifyFetch net url (page_options TOKEN) Batch.default_retries t
    = (Ok res, t') ->
    json_body res = Some data ->
    Batch.nextUrl res = Some url' ->
    page_chain net TOKEN t' url' pages t'' ->
    page_chain net TOKEN t url (products data :: pages) t''.

(** [<url>; rel="next"] *)
Definition link_next (url : str) : str := lit "<" ++ url ++ next_suffix.

(** [<prev>; rel="previous", <url>; rel="next"] *)
Definition link_previous_next (prev url : str) : str :=
  lit "<" ++ prev ++ lit ">; rel=" ++ [dquote] ++ lit "previous" ++ [dquote]
  ++ lit ", " ++ link_next url.

Definition sample_product (id : N) (tags : string) (body_html : option str)
    (variants : list Variant) : Product :=
  {| id := id; title := lit "Castle"; tags := lit tags;
     body_html := body_html; variants := variants |}.

Definition p1 : Product := sample_product 1 "all-jumpers" None [].
Definition p2 : Product := sample_product 2 "other" None [].
Definition p3 : Product := sample_product 3 "Water-Slides, new" None [].

Definition page (link : option str) (ps : list Product) : Response :=
  sample_response 200
    (match link with Some l => [(lit "Link", l)] | None => [] end)
    (Some {| products := ps; metafields := None |}).

Definition page1_url : str :=
  Batch.products_url (lit "shop.example") (lit "2025-01").
Definition page2_url : str := lit "https://shop.example/p?page_info=b".
Definition page3_url : str := lit "https://shop.example/p?page_info=c".

(** A catalog of three pages; any other address answers 404. *)
Definition three_pages : Network :=
  fun _ url _ =>
    if str_eqb url page1_url
    then Responded (page (Some (link_next page2_url)) [p1; p2])
    else if str_eqb url page2_url
    then Responded (page (Some (link_previous_next page1_url page3_url)) [p3])
    else if str_eqb url page3_url
    then Responded (page (Some (lit "<https://shop.example/p?page_info=a>; rel="
                                ++ [dquote] ++ lit "previous" ++ [dquote])) [])
    else Responded (sample_response 404 [] None).

(** The options of the request for the metafields of a product. *)
Definition metafields_options (TOKEN : str) : Options :=
  {| method := GET; req_headers := Batch.token_headers TOKEN; body := None |}.

(** The options of an update request. *)
Definition put_options (TOKEN : str) (payload : Payload) : Options :=
  {| method := PUT; req_headers := Batch.json_headers TOKEN;
     body := Some payload |}.

(** The state the loop over the variants of a product starts in. *)
Definition variants_start (st : UpdateProductsBarra.LoopState)
  : UpdateProductsBarra.VariantsState :=
  {| UpdateProductsBarra.vs_existingBarcodes :=
       UpdateProductsBarra.existingBarcodes st;
     UpdateProductsBarra.vs_updatedVariants := [];
     UpdateProductsBarra.vs_barcodesGenerated :=
       UpdateProductsBarra.barcodesGenerated st |}.

(** The payload [update-products-barra.js] sends for a product. *)
Definition barra_payload (tag : str) (product : Product) (data : Json)
    (vst : UpdateProductsBarra.VariantsState) : Payload :=
  PayloadProduct
    (UpdateProductsBarra.updatePayload product
       (Batch.descriptionOf tag product data)
       (UpdateProductsBarra.vs_updatedVariants vst)).

(** The payload [update-products.js] sends for a product. *)
Definition plain_payload (tag : str) (product : Product) (data : Json)
  : Payload :=
  PayloadProduct
    {| pp_id := id product;
       pp_body_html := Some (Batch.descriptionOf tag product data);
       pp_variants := None |}.

(** The state after the turn of a product in [update-products-barra.js]. *)
Definition barra_state (vst : UpdateProductsBarra.VariantsState)
    (updated : list str) : UpdateProductsBarra.LoopState :=
  {| UpdateProductsBarra.existingBarcodes :=
       UpdateProductsBarra.vs_existingBarcodes vst;
     UpdateProductsBarra.updated := updated;
     UpdateProductsBarra.barcodesGenerated :=
       UpdateProductsBarra.vs_barcodesGenerated vst |}.

(** The two requests the batch scripts make for a product. *)
Definition get_metafields (net : Network) (SHOP API_VERSION TOKEN : str)
    (product : Product) : M Response :=
  Batch.shopifyFetch net (Batch.metafields_url SHOP API_VERSION product)
    (metafields_options TOKEN) Batch.default_retries.

Definition put_product (net : Network) (SHOP API_VERSION TOKEN : str)
    (product : Product) (payload : Payload) : M Response :=
  Batch.shopifyFetch net (Batch.product_url SHOP API_VERSION (id product))
    (put_options TOKEN payload) Batch.default_retries.

(** *** The turn of one product in the batch loops *)

(** The five ways the turn of [product] can go in
    [update-products-barra.js], from the state [st] and the trace [t]. *)
Inductive barra_turn (net : Network) (SHOP API_VERSION TOKEN : str)
    (productIndex : N) (product : Product)
    (st : UpdateProductsBarra.LoopState) (t : Trace)
  : Result UpdateProductsBarra.LoopState * Trace -> Prop :=
| barra_skipped :
    truthy (Batch.tagMatch product) = false ->
    barra_turn net SHOP API_VERSION TOKEN productIndex product st t (Ok st, t)
| barra_metafields_failed e t1 :
    truthy (Batch.tagMatch product) = true ->
    get_metafields net SHOP API_VERSION TOKEN product t = (Throw e, t1) ->
    barra_turn net SHOP API_VERSION TOKEN productIndex product st t
      (Throw e, t1)
| barra_metafields_not_json res t1 :
    truthy (Batch.tagMatch product) = true ->
    get_metafields net SHOP API_VERSION TOKEN product t = (Ok res, t1) ->
    json_body res = None ->
    barra_turn net SHOP API_VERSION TOKEN productIndex product st t
      (Throw SyntaxError, t1)
| barra_updated res t1 data vst t2 x t3 :
    truthy (Batch.tagMatch product) = true ->
    get_metafields net SHOP API_VERSION TOKEN product t = (Ok res, t1) ->
    json_body res = Some data ->
    UpdateProductsBarra.variants_loop product productIndex 0
      (variants product) (variants_start st) t1 = (Ok vst, t2) ->
    put_product net SHOP API_VERSION TOKEN product
      (barra_payload (or_else (Batch.tagMatch product) []) product data vst) t2
    = (Ok x, t3) ->
    barra_turn net SHOP API_VERSION TOKEN productIndex product st t
      (Ok (barra_state vst (UpdateProductsBarra.updated st ++ [title product])),
       EvSleep (Some 500%Z) :: t3)
| barra_update_failed res t1 data vst t2 e t3 :
    truthy (Batch.tagMatch product) = true ->
    get_metafields net SHOP API_VERSION TOKEN product t = (Ok res, t1) ->
    json_body res = Some data ->
    UpdateProductsBarra.variants_loop product productIndex 0
      (variants product) (variants_start st) t1 = (Ok vst, t2) ->
    put_product net SHOP API_VERSION TOKEN product
      (barra_payload (or_else (Batch.tagMatch product) []) product data vst) t2
    = (Throw e, t3) ->
    barra_turn net SHOP API_VERSION TOKEN productIndex product st t
      (Ok (barra_state vst (UpdateProductsBarra.updated st)),
       EvSleep (Some 500%Z)
       :: EvConsole (LogUpdateError (title product) e) :: t3).

(** The same for [update-products.js] ([src/unnamed/part_000]). *)
Inductive plain_turn (net : Network) (SHOP API_VERSION TOKEN : str)
    (product : Product) (updated : list str) (t : Trace)
  : Result (list str) * Trace -> Prop :=
| plain_skipped :
    truthy (Batch.tagMatch product) = false ->
    plain_turn net SHOP API_VERSION TOKEN product updated t (Ok updated, t)
| plain_metafields_failed e t1 :
    truthy (Batch.tagMatch product) = true ->
    get_metafields net SHOP API_VERSION TOKEN product t = (Throw e, t1) ->
    plain_turn net SHOP API_VERSION TOKEN product updated t (Throw e, t1)
| plain_metafields_not_json res t1 :
    truthy (Batch.tagMatch product) = true ->
    get_metafields net SHOP API_VERSION TOKEN product t = (Ok res, t1) ->
    json_body res = None ->
    plain_turn net SHOP API_VERSION TOKEN product updated t
      (Throw SyntaxError, t1)
| plain_updated res t1 data x t3 :
    truthy (Batch.tagMatch product) = true ->
    get_metafields net SHOP API_VERSION TOKEN product t = (Ok res, t1) ->
    json_body res = Some data ->
    put_product net SHOP API_VERSION TOKEN product
      (plain_payload (or_else (Batch.tagMatch product) []) product data) t1
    = (Ok x, t3) ->
    plain_turn net SHOP API_VERSION TOKEN product updated t
      (Ok (updated ++ [title product]), EvSleep (Some 300%Z) :: t3)
| plain_update_failed res t1 data e t3 :
    truthy (Batch.tagMatch product) = true ->
    get_metafields net SHOP API_VERSION TOKEN product t = (Ok res, t1) ->
    json_body res = Some data ->
    put_product net SHOP API_VERSION TOKEN product
      (plain_payload (or_else (Batch.tagMatch product) []) product data) t1
    = (Throw e, t3) ->
    plain_turn net SHOP API_VERSION TOKEN product updated t
      (Ok updated,
       EvSleep (Some 300%Z)
       :: EvConsole (LogUpdateError (title product) e) :: t3).

(** *** Reading a trace *)

(** Every event of [t] is still in [t']. *)
Definition grows (t t' : Trace) : Prop := forall e, In e t -> In e t'.

(** Every request of [t'] was already in [t] or satisfies [P]. *)
Definition only_fetches (P : str -> Options -> Prop) (t t' : Trace) : Prop :=
  forall url options,
    In (EvFetch url options) t' -> In (EvFetch url options) t \/ P url options.

(** [url] is one of the two addresses the batch scripts request for
    [product]. *)
Definition request_for (SHOP API_VERSION : str) (product : Product)
    (url : str) : Prop :=
  url = Batch.metafields_url SHOP API_VERSION product
  \/ url = Batch.product_url SHOP API_VERSION (id product).

(** The requests of [t'] that are not in [t] are for products of the list
    that pass the tag filter. *)
Definition only_tagged (SHOP API_VERSION : str) (products : list Product)
    (t t' : Trace) : Prop :=
  only_fetches
    (fun url _ =>
       exists p, In p products /\ truthy (Batch.tagMatch p) = true
                 /\ request_for SHOP API_VERSION p url)
    t t'.

(** An update request for [product] is in [t'], and the description it
    carries was generated from the tag, the title and some metafields. *)
Definition update_sent (SHOP API_VERSION TOKEN : str) (product : Product)
    (t' : Trace) : Prop :=
  exists pp data,
    In (EvFetch (Batch.product_url SHOP API_VERSION (id product))
          (put_options TOKEN (PayloadProduct pp))) t'
    /\ pp_id pp = id product
    /\ pp_body_html pp
       = Some (Batch.descriptionOf (or_else (Batch.tagMatch product) [])
                 product data).

(** Every product of the list that passes the tag filter has an update
    request in [t']. *)
Definition all_tagged_updated (SHOP API_VERSION TOKEN : str)
    (products : list Product) (t' : Trace) : Prop :=
  forall p, In p products -> truthy (Batch.tagMatch p) = true ->
    update_sent SHOP API_VERSION TOKEN p t'.

(** The tag condition in the words of the filter: some entry of the
    comma-separated [tags], trimmed and lowercased, is in the list. *)
Definition has_target_tag (product : Product) : Prop :=
  exists entry,
    In entry (split ","%char (tags product))
    /\ In (toLowerCase (trim entry)) Batch.targetTags.

(** *** A sample shop *)

Definition shop : str := lit "shop.example".
Definition api : str := lit "2025-01".
Definition token : str := lit "token".

(** A shop whose catalog fits on one page; the requests for the metafields
    and the updates of a product are answered with the status given for its
    id, and unknown addresses with 404. *)
Definition shop_net (catalog : list Product)
    (metafields_status put_status : N -> Z) : Network :=
  fun _ url _ =>
    if str_eqb url page1_url then Responded (page None catalog)
    else
      match find (fun p => str_eqb url (Batch.metafields_url shop api p))
              catalog with
      | Some p =>
          Responded (sample_response (metafields_status (id p)) []
                       (Some {| products := []; metafields := Some [] |}))
      | None =>
          match find (fun p => str_eqb url (Batch.product_url shop api (id p)))
                  catalog with
          | Some p =>
              Responded (sample_response (put_status (id p)) [] (Some no_data))
          | None => Responded (sample_response 404 [] None)
          end
      end.

Definition always (status : Z) : N -> Z := fun _ => status.

(** 500 for the product with id [n], 200 for the others. *)
Definition fails_for (n : N) : N -> Z :=
  fun id => if (id =? n)%N then 500%Z else 200%Z.

Definition sample_env : Env :=
  {| SHOPIFY_SHOP := Some shop; SHOPIFY_ADMIN_TOKEN := Some token;
     SHOPIFY_API_VERSION := Some api; SHOPIFY_WEBHOOK_SECRET := None |}.

Definition barra_start : UpdateProductsBarra.LoopState :=
  {| UpdateProductsBarra.existingBarcodes := [];
     UpdateProductsBarra.updated := [];
     UpdateProductsBarra.barcodesGenerated := 0 |}.

(** The requests for the metafields of the products that pass the filter
    succeed, whenever they are made. *)
Definition metafields_available (net : Network) (SHOP API_VERSION TOKEN : str)
    (ps : list Product) : Prop :=
  forall p t, In p ps -> truthy (Batch.tagMatch p) = true ->
    exists res data t1,
      get_metafields net SHOP API_VERSION TOKEN p t = (Ok res, t1)
      /\ json_body res = Some data.

(** A product that has its own description. *)
Definition p_described : Product :=
  sample_product 5 "all-jumpers" (Some (lit "<p>Hand-written</p>"))
    [{| variant_id := 50; barcode := Some (lit "0123456789012") |}].

(** What [processNewProduct] returns when there is nothing to write. *)
Definition no_changes : ProductCreated.ProcessResult :=
  {| ProductCreated.success := true; ProductCreated.changes := false;
     ProductCreated.r_barcodesGenerated := None;
     ProductCreated.descriptionAdded := None;
     ProductCreated.partial := None |}.

(** [u] was generated for a variant of the list that had no barcode. *)
Definition for_variant_without_barcode (vs : list Variant)
    (u : UpdatedVariant) : Prop :=
  exists v, In v vs /\ truthy (barcode v) = false /\ uv_id u = variant_id v.


(** *** The webhook handler *)

(** The [catch] block of the handler. *)
Definition handler_catch (error : Error) : M ProductCreated.Answer :=
  console (LogHandlerError error) ;;;
  ret {| ProductCreated.statusCode := 500;
         ProductCreated.answer := ProductCreated.InternalError error |}.

(** The handler of a POST request without the signature check: parse,
    process, and answer 500 on an error. *)
Definition handler_unchecked (net : Network)
    (JSON_parse : str -> option (option Product)) (env : Env)
    (event : ProductCreated.WebhookEvent) : M ProductCreated.Answer :=
  try_catch (ProductCreated.handleProduct net JSON_parse env event)
    handler_catch.

(** The signature header of an event. *)
Definition hmac_header (event : ProductCreated.WebhookEvent) : option str :=
  ProductCreated.header event (lit "x-shopify-hmac-sha256").

(** The secret and the header are both there, and the HMAC of the body
    differs from the header. *)
Definition signature_mismatch (hmac : str -> str -> str) (env : Env)
    (event : ProductCreated.WebhookEvent) : Prop :=
  exists secret h,
    SHOPIFY_WEBHOOK_SECRET env = Some secret /\ secret <> []
    /\ hmac_header event = Some h /\ h <> []
    /\ hmac secret (ProductCreated.ev_body event) <> h.

Definition post_event (headers : list (str * str)) : ProductCreated.WebhookEvent :=
  {| ProductCreated.httpMethod := lit "POST";
     ProductCreated.ev_headers := headers;
     ProductCreated.ev_body := lit "{}" |}.

(** A stand-in for the HMAC in the examples: the key itself. *)
Definition sample_hmac : str -> str -> str := fun key _ => key.

Definition env_with_secret : Env :=
  {| SHOPIFY_SHOP := Some shop; SHOPIFY_ADMIN_TOKEN := Some token;
     SHOPIFY_API_VERSION := Some api;
     SHOPIFY_WEBHOOK_SECRET := Some (lit "secret") |}.

Definition parse_described : str -> option (option Product) :=
  fun _ => Some (Some p_described).

(** *** Uniqueness of the generated barcodes *)

(** A product whose first variant carries the barcode the generator gives
    for the second one. *)
Definition p_clash : Product :=
  sample_product 1 "all-jumpers" (Some (lit "<p>Hand-written</p>"))
    [{| variant_id := 10; barcode := Some (lit "2000000010014") |};
     {| variant_id := 11; barcode := None |}].

(** [b] is the barcode of a variant of the catalog. *)
Definition present_barcode (ps : list Product) (b : str) : Prop :=
  exists p v, In p ps /\ In v (variants p) /\ barcode v = Some b /\ b <> [].

(** The barcodes generated in the turn of one product of
    [update-products-barra.js]: none when the product is skipped or the
    turn throws before the variants are reached. *)
Inductive turn_assigns (net : Network) (SHOP API_VERSION TOKEN : str)
    (productIndex : N) (product : Product)
    (st : UpdateProductsBarra.LoopState) (t : Trace)
  : list UpdatedVariant -> Prop :=
| assigns_nothing :
    truthy (Batch.tagMatch product) = false ->
    turn_assigns net SHOP API_VERSION TOKEN productIndex product st t []
| assigns_generated res t1 data vst t2 :
    truthy (Batch.tagMatch product) = true ->
    get_metafields net SHOP API_VERSION TOKEN product t = (Ok res, t1) ->
    json_body res = Some data ->
    UpdateProductsBarra.variants_loop product productIndex 0
      (variants product) (variants_start st) t1 = (Ok vst, t2) ->
    turn_assigns net SHOP API_VERSION TOKEN productIndex product st t
      (UpdateProductsBarra.vs_updatedVariants vst).

(** [barra_run ... productIndex ps st t assigned]: the loop over [ps],
    started in [st] and [t], generates the barcodes [assigned], in this
    order, until it ends or throws. *)
Inductive barra_run (net : Network) (SHOP API_VERSION TOKEN : str)
  : N -> list Product -> UpdateProductsBarra.LoopState -> Trace
    -> list UpdatedVariant -> Prop :=
| barra_run_end productIndex st t :
    barra_run net SHOP API_VERSION TOKEN productIndex [] st t []
| barra_run_turn productIndex p rest st t mine st1 t1 others :
    turn_assigns net SHOP API_VERSION TOKEN productIndex p st t mine ->
    UpdateProductsBarra.product_step net SHOP API_VERSION TOKEN productIndex
      p st t = (Ok st1, t1) ->
    barra_run net SHOP API_VERSION TOKEN (productIndex + 1) rest st1 t1 others ->
    barra_run net SHOP API_VERSION TOKEN productIndex (p :: rest) st t
      (mine ++ others)
| barra_run_thrown productIndex p rest st t e t1 :
    UpdateProductsBarra.product_step net SHOP API_VERSION TOKEN productIndex
      p st t = (Throw e, t1) ->
    barra_run net SHOP API_VERSION TOKEN productIndex (p :: rest) st t [].

(** The state [updateProducts] starts its loop in. *)
Definition barra_initial (ps : list Product) : UpdateProductsBarra.LoopState :=
  {| UpdateProductsBarra.existingBarcodes :=
       UpdateProductsBarra.getExistingBarcodes ps;
     UpdateProductsBarra.updated := [];
     UpdateProductsBarra.barcodesGenerated := 0 |}.

(* ===================================================================== *)
(** ** Further specification-level definitions                             *)
(* ===================================================================== *)

(** The number a string of decimal digits denotes. *)
Definition value_of (s : str) : N :=
  fold_left (fun a c => (10 * a + (N_of_ascii c - 48))%N) s 0%N.

(** The [j]-th barcode the batch script tries for a variant. *)
Definition candidate (product : Product) (productIndex variantIndex j : N)
  : str :=
  Barcode.generateUniqueBarcode (id product)
    (productIndex * 100 + variantIndex + j).

(** The state after a barcode was given to a variant. *)
Definition with_barcode (st : UpdateProductsBarra.VariantsState)
    (variant : Variant) (b : str) : UpdateProductsBarra.VariantsState :=
  {| UpdateProductsBarra.vs_existingBarcodes :=
       Set_add (UpdateProductsBarra.vs_existingBarcodes st) b;
     UpdateProductsBarra.vs_updatedVariants :=
       UpdateProductsBarra.vs_updatedVariants st
       ++ [{| uv_id := variant_id variant; uv_barcode := b |}];
     UpdateProductsBarra.vs_barcodesGenerated :=
       S (UpdateProductsBarra.vs_barcodesGenerated st) |}.

(** The state of the variants loop for [p_clash] as first product of a
    catalog that holds nothing else. *)
Definition clash_state : UpdateProductsBarra.VariantsState :=
  variants_start (barra_initial [p_clash]).

Definition variant_11 : Variant := {| variant_id := 11; barcode := None |}.

(** The shop answers every request with a 429 response. *)
Definition always_429 (net : Network) : Prop :=
  forall t url options,
    exists res, net t url options = Responded res /\ status res = 429%Z.

(** A network that always answers 429. *)
Definition busy_net : Network := fun _ _ _ => Responded res_429_plain.

(** What [processNewProduct] returns from its fallback when
    [variantsUpdated] variant requests did not throw. *)
Definition partial_result (variantsUpdated : nat)
  : ProductCreated.ProcessResult :=
  {| ProductCreated.success := Nat.ltb 0 variantsUpdated;
     ProductCreated.changes := Nat.ltb 0 variantsUpdated;
     ProductCreated.r_barcodesGenerated := Some variantsUpdated;
     ProductCreated.descriptionAdded := Some false;
     ProductCreated.partial := Some true |}.

(** The update request [processNewProduct] prepares for a product. *)
Definition webhook_put (SHOP API_VERSION TOKEN : str) (product : Product)
  : Event :=
  EvFetch (Batch.product_url SHOP API_VERSION (id product))
    (put_options TOKEN (PayloadProduct (ProductCreated.updatePayload product))).

(** The request of the fallback for one new variant. *)
Definition variant_put (SHOP API_VERSION TOKEN : str) (u : UpdatedVariant)
  : Event :=
  EvFetch (ProductCreated.variant_url SHOP API_VERSION (uv_id u))
    (put_options TOKEN (PayloadVariant u)).

(** Something of the product is missing: its description is blank or a
    variant has no barcode. *)
Definition lacks_something (product : Product) : Prop :=
  ProductCreated.needsDescription product = true
  \/ exists v, In v (variants product) /\ truthy (barcode v) = false.

(** What [processNewProduct] returns when the update of the product went
    through. *)
Definition full_result (product : Product) : ProductCreated.ProcessResult :=
  {| ProductCreated.success := true; ProductCreated.changes := true;
     ProductCreated.r_barcodesGenerated :=
       Some (length (ProductCreated.newVariants (id product) 0
                       (variants product)));
     ProductCreated.descriptionAdded :=
       Some (truthy (pp_body_html (ProductCreated.updatePayload product)));
     ProductCreated.partial := None |}.

(** The status codes the handler can answer with. *)
Definition handler_status (code : Z) : Prop :=
  code = 405%Z \/ code = 401%Z \/ code = 400%Z \/ code = 200%Z
  \/ code = 500%Z.

(** A product with no description and no variants. *)
Definition p_bare : Product := sample_product 7 "other" None [].

(** The signature check lets the event through: the secret or the header
    is missing, or the HMAC of the body equals the header. *)
Definition passes_check (hmac : str -> str -> str) (env : Env)
    (event : ProductCreated.WebhookEvent) : Prop :=
  truthy (SHOPIFY_WEBHOOK_SECRET env) = false
  \/ truthy (hmac_header event) = false
  \/ exists secret h,
       SHOPIFY_WEBHOOK_SECRET env = Some secret /\ secret <> []
       /\ hmac_header event = Some h /\ h <> []
       /\ hmac secret (ProductCreated.ev_body event) = h.

(** The answer to a body that is no product. *)
Definition invalid_data : ProductCreated.Answer :=
  {| ProductCreated.statusCode := 400;
     ProductCreated.answer := ProductCreated.InvalidData |}.

(** The body parses to nothing, or to an object without id. *)
Definition no_product (JSON_parse : str -> option (option Product))
    (event : ProductCreated.WebhookEvent) : Prop :=
  JSON_parse (ProductCreated.ev_body event) = Some None
  \/ exists p, JSON_parse (ProductCreated.ev_body event) = Some (Some p)
               /\ id p = 0%N.

Definition signed_event : ProductCreated.WebhookEvent :=
  post_event [(lit "x-shopify-hmac-sha256", lit "secret")].

Definition parse_nothing : str -> option (option Product) :=
  fun _ => Some None.

(** Every address of [P] is answered, after the retries, by a page whose
    [next] link is again in [P]. *)
Definition endless (net : Network) (TOKEN : str) (P : str -> Prop) : Prop :=
  forall url t, P url ->
    exists res data t1 url',
      Batch.shopifyFetch net url (page_options TOKEN) Batch.default_retries t
      = (Ok res, t1)
      /\ json_body res = Some data
      /\ Batch.nextUrl res = Some url'
      /\ P url'.

(** A shop whose first page names itself as the next one. *)
Definition looping_net : Network :=
  fun _ _ _ => Responded (page (Some (link_next page1_url)) [p1]).

(** A tagged product with one variant that has no barcode. *)
Definition p_late : Product :=
  sample_product 42 "all-jumpers" None [{| variant_id := 70; barcode := None |}].

(** The text holds a bracketed address followed by [; rel="next"]: the
    shape the regular expression of [fetchAllProducts] looks for. *)
Definition has_next_link (h : str) : Prop :=
  exists pre u post,
    h = pre ++ link_next u ++ post /\ u <> [] /\ ~ In ">"%char u.

(** A text that [parseInt] reads no number from: after the white space
    comes nothing, or something that is neither a digit nor a sign. *)
Definition not_numeric (v : str) : bool :=
  match skip_spaces v with
  | c :: _ => negb (is_digit c) && negb (Ascii.eqb c "-"%char)
              && negb (Ascii.eqb c "+"%char)
  | [] => true
  end.

(** A 429 response whose [Retry-After] is a date. *)
Definition res_429_date : Response :=
  sample_response 429 [(lit "Retry-After", lit "Wed, 21 Oct 2026 07:28:00 GMT")]
    None.

(** What the webhook generates for the variant [v] at position [k]. *)
Definition new_variant (product : Product) (k : nat) (v : Variant)
  : UpdatedVariant :=
  {| uv_id := variant_id v;
     uv_barcode :=
       ProductCreated.generateUniqueBarcode (id product) (N.of_nat k) |}.

(** A product whose description is a space, a no-break space and a line
    feed. *)
Definition p_blank : Product :=
  sample_product 8 "other"
    (Some [" "%char; ascii_of_nat 160; ascii_of_nat 10]) [].

(** A 2xx response whose body is not JSON. *)
Definition res_200_no_json : Response := sample_response 200 [] None.

(** A shop that answers every request with 200 and a body that does not
    parse. *)
Definition mute_net : Network := fun _ _ _ => Responded res_200_no_json.


(** *** What the batch scripts write *)





(** No request for the update of [product] is in [t'] that was not in
    [t]. *)
Definition no_update (SHOP API_VERSION : str) (product : Product)
    (t t' : Trace) : Prop :=
  forall options,
    In (EvFetch (Batch.product_url SHOP API_VERSION (id product)) options) t' ->
    In (EvFetch (Batch.product_url SHOP API_VERSION (id product)) options) t.

(** The request for the metafields of [product] made in [t] fails: it
    throws [e], or its answer is no JSON and [e] is the parse error; [t']
    is the trace after it. *)
Definition metafields_fail (net : Network) (SHOP API_VERSION TOKEN : str)
    (product : Product) (t : Trace) (e : Error) (t' : Trace) : Prop :=
  get_metafields net SHOP API_VERSION TOKEN product t = (Throw e, t')
  \/ exists res,
       get_metafields net SHOP API_VERSION TOKEN product t = (Ok res, t')
       /\ json_body res = None /\ e = SyntaxError.

(** The barcodes an update of a product carries. *)
Definition payload_barcodes (pp : ProductPayload) : list str :=
  match pp_variants pp with
  | Some us => map uv_barcode us
  | None => []
  end.

(** The trace holds a request to [url] that carries the update [pp]. *)
Definition update_in (t : Trace) (url : str) (pp : ProductPayload) : Prop :=
  exists options,
    In (EvFetch url options) t /\ body options = Some (PayloadProduct pp).

(* ===================================================================== *)
(** ** The model at work                                                   *)
(* ===================================================================== *)

Example parseInt_examples :
  parseInt (lit " 12abc") = Some 12%Z /\ parseInt (lit "-7") = Some (-7)%Z
  /\ parseInt (lit "abc") = None /\ parseInt (lit "") = None.
Proof. repeat split; reflexivity. Qed.

Example split_trim_example :
  map trim (split ","%char (lit "a, B ,,c")) = [lit "a"; lit "B"; []; lit "c"].
Proof. reflexivity. Qed.

Example tagMatch_example : Batch.tagMatch p3 = Some (lit "water-slides").
Proof. reflexivity. Qed.

Example match_next_example :
  match_next (link_previous_next page1_url page3_url) = Some page3_url.
Proof. reflexivity. Qed.

Example generateUniqueBarcode_example :
  Barcode.generateUniqueBarcode 7890123456789 7 = lit "2004567890072".
Proof. reflexivity. Qed.

(** Answered 429 every time, the batch [shopifyFetch] throws after its
    last attempt, while the one of the webhook handler leaves its loop and
    returns [undefined]. *)
Example shopifyFetch_always_429 :
  let net := scripted [] (Responded res_429_plain) in
  fst (Batch.shopifyFetch net sample_url get_options 3 [])
  = Throw (RetriesExhausted 3 sample_url)
  /\ fst (ProductCreated.shopifyFetch net sample_url get_options 3 [])
     = Ok None
  /\ count_fetches (snd (Batch.shopifyFetch net sample_url get_options 3 []))
     = 3
  /\ count_fetches
       (snd (ProductCreated.shopifyFetch net sample_url get_options 3 []))
     = 3.
Proof. repeat split; reflexivity. Qed.

(* ===================================================================== *)
(** ** Facts about the string helpers                                      *)
(* ===================================================================== *)

Lemma str_eqb_eq (a b : str) : str_eqb a b = true <-> a = b.
Proof.
  revert b; induction a as [|x a IH]; intros [|y b]; simpl;
    try (split; [discriminate | congruence]); try tauto.
  rewrite andb_true_iff, Ascii.eqb_eq, IH.
  split; [intros [-> ->]; reflexivity | intros H; inversion H; auto].
Qed.

Lemma str_eqb_refl (a : str) : str_eqb a a = true.
Proof. apply str_eqb_eq; reflexivity. Qed.

Lemma str_eqb_neq (a b : str) : str_eqb a b = false <-> a <> b.
Proof.
  rewrite <- str_eqb_eq. destruct (str_eqb a b); split; congruence.
Qed.

Lemma digits_acc_app (fuel : nat) :
  forall n acc, digits_acc fuel n acc = digits_acc fuel n [] ++ acc.
Proof.
  induction fuel as [|fuel IH]; intros n acc; simpl; [reflexivity|].
  destruct (n / 10 =? 0)%N; [reflexivity|].
  rewrite IH, (IH _ [_]), <- app_assoc. reflexivity.
Qed.

Lemma log2_div10 (n : N) : (n / 10 <> 0 -> N.log2 (n / 10) < N.log2 n)%N.
Proof.
  intros Hq.
  assert (Hle : (2 * (n / 10) <= n)%N).
  { pose proof (N.Div0.mul_div_le n 10). lia. }
  apply N.log2_le_mono in Hle.
  assert (Hpos : (0 < n / 10)%N) by (apply N.neq_0_lt_0; exact Hq).
  rewrite (N.log2_double _ Hpos) in Hle.
  apply N.le_succ_l. exact Hle.
Qed.

Lemma digits_acc_fuel (f1 : nat) :
  forall f2 n acc,
    N.to_nat (N.log2 n) < f1 -> N.to_nat (N.log2 n) < f2 ->
    digits_acc f1 n acc = digits_acc f2 n acc.
Proof.
  induction f1 as [|f1 IH]; intros f2 n acc H1 H2; [lia|].
  destruct f2 as [|f2]; [lia|]. simpl.
  destruct (n / 10 =? 0)%N eqn:Hq; [reflexivity|].
  apply N.eqb_neq in Hq. pose proof (log2_div10 _ Hq).
  apply IH; lia.
Qed.

(** [String(n)] is [String(n / 10)] followed by the last digit. *)
Lemma String_of_N_step (n : N) :
  String_of_N n =
  (if (n / 10 =? 0)%N then [] else String_of_N (n / 10))
  ++ [digit_char (n mod 10)].
Proof.
  unfold String_of_N at 1. simpl.
  destruct (n / 10 =? 0)%N eqn:Hq; [reflexivity|].
  apply N.eqb_neq in Hq. pose proof (log2_div10 _ Hq).
  rewrite digits_acc_app. f_equal.
  unfold String_of_N. apply digits_acc_fuel; lia.
Qed.

Lemma padStart_snoc (k : nat) (c d : ascii) (s : str) :
  padStart (S k) c (s ++ [d]) = padStart k c s ++ [d].
Proof.
  unfold padStart. rewrite length_app. simpl length.
  replace (S k - (length s + 1)) with (k - length s) by lia.
  rewrite app_assoc. reflexivity.
Qed.

Lemma slice_last_snoc (k : nat) (d : ascii) (s : str) :
  slice_last (S k) (s ++ [d]) = slice_last k s ++ [d].
Proof.
  unfold slice_last. rewrite length_app, skipn_app. simpl.
  replace (length s + 1 - S k) with (length s - k) by lia.
  replace (length s - k - length s) with 0 by lia. reflexivity.
Qed.

Lemma fixed_digits_zero (k : nat) : fixed_digits k 0 = repeat "0"%char k.
Proof.
  induction k as [|k IH]; [reflexivity|].
  simpl fixed_digits. change (0 / 10)%N with 0%N. rewrite IH.
  change (digit_char (0 mod 10)) with "0"%char.
  rewrite <- repeat_cons. reflexivity.
Qed.

(** Padding to [k] characters and keeping the last [k] gives the [k] low
    digits. *)
Lemma slice_pad_digits (k : nat) :
  forall n, slice_last k (padStart k "0"%char (String_of_N n)) = fixed_digits k n.
Proof.
  induction k as [|k IH]; intros n.
  - unfold slice_last. rewrite Nat.sub_0_r. apply skipn_all.
  - rewrite String_of_N_step. rewrite padStart_snoc, slice_last_snoc.
    simpl fixed_digits. f_equal.
    destruct (n / 10 =? 0)%N eqn:Hq.
    + apply N.eqb_eq in Hq. rewrite Hq, fixed_digits_zero.
      unfold padStart, slice_last. simpl. rewrite app_nil_r, repeat_length.
      rewrite Nat.sub_0_r, Nat.sub_diag. reflexivity.
    + apply IH.
Qed.

Lemma fixed_digits_length (k : nat) : forall n, length (fixed_digits k n) = k.
Proof.
  induction k as [|k IH]; intros n; simpl; [reflexivity|].
  rewrite length_app, IH. simpl. lia.
Qed.

(** Below 1000 the rendering has at most three characters, so [padStart]
    gives exactly the three low digits. *)
Lemma padStart3_digits (n : N) :
  (n < 1000)%N -> padStart 3 "0"%char (String_of_N n) = fixed_digits 3 n.
Proof.
  intros Hn.
  rewrite (String_of_N_step n).
  destruct (n / 10 =? 0)%N eqn:H1.
  { apply N.eqb_eq in H1. simpl fixed_digits. rewrite H1. reflexivity. }
  rewrite (String_of_N_step (n / 10)).
  destruct (n / 10 / 10 =? 0)%N eqn:H2.
  { apply N.eqb_eq in H2. simpl fixed_digits. rewrite H2. reflexivity. }
  rewrite (String_of_N_step (n / 10 / 10)).
  assert (H3 : (n / 10 / 10 / 10 = 0)%N).
  { rewrite !N.Div0.div_div. apply N.div_small. exact Hn. }
  rewrite H3. reflexivity.
Qed.

Lemma fixed_digits_mod (k : nat) :
  forall n, fixed_digits k n = fixed_digits k (n mod 10 ^ N.of_nat k).
Proof.
  induction k as [|k IH]; intros n; [reflexivity|].
  rewrite Nat2N.inj_succ, N.pow_succ_r', N.Div0.mod_mul_r.
  cbn [fixed_digits].
  assert (Hq : ((n mod 10 + 10 * ((n / 10) mod 10 ^ N.of_nat k)) / 10
                = (n / 10) mod 10 ^ N.of_nat k)%N).
  { rewrite N.add_comm, N.mul_comm, N.div_add_l by discriminate.
    rewrite (N.div_small (n mod 10)) by (apply N.mod_lt; discriminate).
    apply N.add_0_r. }
  assert (Hr : ((n mod 10 + 10 * ((n / 10) mod 10 ^ N.of_nat k)) mod 10
                = n mod 10)%N).
  { rewrite (N.mul_comm 10), N.Div0.mod_add.
    apply N.Div0.mod_mod. }
  rewrite Hq, Hr, <- IH. reflexivity.
Qed.

Lemma fixed_digits_spec (k : nat) :
  forall n, exists ds,
    fixed_digits k n = map digit_char ds /\ length ds = k
    /\ Forall (fun d => (d < 10)%N) ds.
Proof.
  induction k as [|k IH]; intros n.
  - exists []. repeat split; constructor.
  - destruct (IH (n / 10)%N) as (ds & Heq & Hlen & Hall).
    exists (ds ++ [(n mod 10)%N]). simpl fixed_digits.
    rewrite Heq, map_app, length_app, Hlen. simpl. repeat split; [lia|].
    apply Forall_app; split; [assumption|].
    constructor; [apply N.mod_lt; discriminate | constructor].
Qed.

Lemma digit_cases (d : N) :
  (d < 10)%N ->
  d = 0%N \/ d = 1%N \/ d = 2%N \/ d = 3%N \/ d = 4%N \/ d = 5%N \/ d = 6%N
  \/ d = 7%N \/ d = 8%N \/ d = 9%N.
Proof. lia. Qed.

Ltac each_digit H :=
  apply digit_cases in H;
  repeat (destruct H as [H | H]); subst.

Lemma parseInt_digit (d : N) :
  (d < 10)%N -> parseInt [digit_char d] = Some (Z.of_N d).
Proof. intros H. each_digit H; reflexivity. Qed.

Lemma is_digit_digit_char (d : N) : (d < 10)%N -> is_digit (digit_char d) = true.
Proof. intros H. each_digit H; reflexivity. Qed.

Lemma digit_val_digit_char (d : N) :
  (d < 10)%N -> digit_val (digit_char d) = Z.of_N d.
Proof. intros H. each_digit H; reflexivity. Qed.

Lemma String_of_N_digit (d : N) : (d < 10)%N -> String_of_N d = [digit_char d].
Proof. intros H. each_digit H; reflexivity. Qed.

Lemma map_digit_val (ds : list N) :
  Forall (fun d => (d < 10)%N) ds ->
  map digit_val (map digit_char ds) = map Z.of_N ds.
Proof.
  induction 1 as [|d ds Hd _ IH]; simpl; [reflexivity|].
  rewrite digit_val_digit_char, IH by assumption. reflexivity.
Qed.

Lemma forallb_is_digit (ds : list N) :
  Forall (fun d => (d < 10)%N) ds -> forallb is_digit (map digit_char ds) = true.
Proof.
  induction 1 as [|d ds Hd _ IH]; simpl; [reflexivity|].
  rewrite is_digit_digit_char, IH by assumption. reflexivity.
Qed.

Lemma dot_nonneg (ws : list Z) :
  forall ds, Forall (fun w => 0 <= w)%Z ws -> Forall (fun d => 0 <= d)%Z ds ->
             (0 <= dot ws ds)%Z.
Proof.
  induction ws as [|w ws IH]; intros ds Hw Hd; simpl; [lia|].
  destruct ds as [|d ds]; [lia|].
  inversion Hw; inversion Hd; subst.
  specialize (IH ds ltac:(assumption) ltac:(assumption)). nia.
Qed.

(** The loop of the source computes the weighted sum of the first twelve
    digits. *)
Lemma weighted_sum_digits (ds rest : list N) :
  length ds = 12 -> Forall (fun d => (d < 10)%N) ds ->
  Barcode.weighted_sum (map digit_char (ds ++ rest))
  = Some (dot ean13_weights (map Z.of_N ds)).
Proof.
  intros Hlen Hall.
  do 12 (destruct ds as [|? ds]; [discriminate Hlen|]).
  destruct ds; [|discriminate Hlen].
  repeat match goal with
         | H : Forall _ (_ :: _) |- _ => inversion H; clear H; subst
         end.
  unfold Barcode.weighted_sum, Barcode.sum_step. simpl.
  rewrite !parseInt_digit by assumption. simpl. f_equal. lia.
Qed.

Lemma checkDigit_ean13 (s : Z) :
  (0 <= s)%Z ->
  Barcode.checkDigit (Some s) = Some ((10 - s mod 10) mod 10)%Z.
Proof.
  intros Hs. unfold Barcode.checkDigit, num_rem, num_sub.
  change (10 =? 0)%Z with false. cbv beta iota.
  rewrite (Z.rem_mod_nonneg s 10) by lia.
  pose proof (Z.mod_pos_bound s 10 ltac:(lia)).
  rewrite Z.rem_mod_nonneg by lia. reflexivity.
Qed.

(** The code before the check digit: prefix, six digits of the id, and the
    rendering of the index. *)
Lemma baseCode_id (productId index : N) :
  Barcode.baseCode productId index
  = lit "200" ++ fixed_digits 6 productId
    ++ padStart 3 "0"%char (String_of_N index).
Proof. unfold Barcode.baseCode. rewrite slice_pad_digits. reflexivity. Qed.

(** With an index below 1000, the result is a valid EAN-13 code. *)
Lemma generateUniqueBarcode_ean13 (productId index : N) :
  (index < 1000)%N ->
  is_ean13 (Barcode.generateUniqueBarcode productId index) = true.
Proof.
  intros Hidx. unfold Barcode.generateUniqueBarcode.
  rewrite baseCode_id, padStart3_digits by assumption.
  destruct (fixed_digits_spec 6 productId) as (a & -> & Ha & HaF).
  destruct (fixed_digits_spec 3 index) as (b & -> & Hb & HbF).
  change (lit "200") with (map digit_char [2; 0; 0]%N).
  rewrite <- !map_app.
  set (ds := ([2; 0; 0] ++ a ++ b)%N).
  assert (Hlen : length ds = 12).
  { unfold ds. rewrite !length_app, Ha, Hb. reflexivity. }
  assert (HF : Forall (fun d => (d < 10)%N) ds).
  { unfold ds. repeat (apply Forall_app; split); try assumption.
    repeat constructor. }
  rewrite <- (app_nil_r ds) at 2.
  rewrite weighted_sum_digits by assumption.
  assert (Hnn : (0 <= dot ean13_weights (map Z.of_N ds))%Z).
  { apply dot_nonneg; [repeat constructor; lia|].
    apply Forall_map. eapply Forall_impl; [|exact HF]. intros; simpl; lia. }
  rewrite checkDigit_ean13 by assumption.
  fold (ean13_check (map Z.of_N ds)).
  set (c := ean13_check (map Z.of_N ds)).
  assert (Hc : (0 <= c < 10)%Z) by (apply Z.mod_pos_bound; lia).
  unfold String_of_num.
  replace (String_of_Z c) with (map digit_char [Z.to_N c]).
  2:{ destruct c; simpl; try lia; symmetry;
      [reflexivity | apply String_of_N_digit; lia]. }
  rewrite <- map_app.
  assert (HF' : Forall (fun d => (d < 10)%N) (ds ++ [Z.to_N c])).
  { apply Forall_app; split; [assumption|]. repeat constructor. lia. }
  unfold is_ean13.
  rewrite length_map, length_app, Hlen, forallb_is_digit, map_digit_val
    by assumption.
  rewrite map_app, firstn_app, length_map, Hlen, Nat.sub_diag.
  rewrite firstn_all2 by (rewrite length_map; lia).
  simpl firstn. rewrite app_nil_r.
  rewrite app_nth2 by (rewrite length_map; lia).
  rewrite length_map, Hlen. simpl nth.
  rewrite Z2N.id by lia. fold c. rewrite Z.eqb_refl. reflexivity.
Qed.

(* ===================================================================== *)
(** ** The generator: length and determinism                               *)
(* ===================================================================== *)

(** C1 (the code departs from the claim): for product id 1 and index 1000
    [generateUniqueBarcode] returns the 14-character string
    [20000000110004], which is not a 13-digit EAN-13 code: [padStart(3)]
    does not shorten a four-digit index.  The batch script reaches this
    index for the first variant of its eleventh product
    ([productIndex * 100 + variantIndex + attempts] with [productIndex = 10]). *)
Theorem generateUniqueBarcode_index_1000 :
  Barcode.generateUniqueBarcode 1 1000 = lit "20000000110004"
  /\ length (Barcode.generateUniqueBarcode 1 1000) = 14
  /\ is_ean13 (Barcode.generateUniqueBarcode 1 1000) = false
  /\ UpdateProductsBarra.doWhile 100 1 (10 * 100 + 0) 0 []
     = (lit "20000000110004", 1%N).
Proof. vm_compute. repeat split; reflexivity. Qed.

(** C9: [generateUniqueBarcode] is a function of the last six decimal
    digits of the product id and of the index: two ids that agree modulo
    [10^6] give the same barcode for the same index; and two distinct ids
    (1 and 1000001) do give the same barcode. *)
Theorem generateUniqueBarcode_last_six_digits :
  (forall id1 id2 index : N,
      (id1 mod 1000000 = id2 mod 1000000)%N ->
      Barcode.generateUniqueBarcode id1 index
      = Barcode.generateUniqueBarcode id2 index)
  /\ (exists id1 id2 index : N,
         id1 <> id2
         /\ Barcode.generateUniqueBarcode id1 index
            = Barcode.generateUniqueBarcode id2 index).
Proof.
  split.
  - intros id1 id2 index Hmod.
    unfold Barcode.generateUniqueBarcode. rewrite !baseCode_id.
    rewrite (fixed_digits_mod 6 id1), (fixed_digits_mod 6 id2).
    change (10 ^ N.of_nat 6)%N with 1000000%N. rewrite Hmod. reflexivity.
  - exists 1%N, 1000001%N, 0%N. split; [discriminate | reflexivity].
Qed.

Lemma generateUniqueBarcode_last_six_digits_witness :
  (7890123456789 mod 1000000 = 456789 mod 1000000)%N
  /\ Barcode.generateUniqueBarcode 7890123456789 7
     = Barcode.generateUniqueBarcode 456789 7.
Proof.
  split; [reflexivity|].
  apply (proj1 generateUniqueBarcode_last_six_digits). reflexivity.
Defined.

(* ===================================================================== *)
(** ** [shopifyFetch]                                                      *)
(* ===================================================================== *)

Section ShopifyFetch.

Variable net : Network.
Variables (url : str) (options : Options).

(** *** The batch scripts *)

Lemma batch_429 retries k t res :
  net t url options = Responded res -> status res = 429%Z ->
  Batch.shopifyFetch_loop net url options retries (S k) t
  = Batch.shopifyFetch_loop net url options retries k
      (after_429 url options res t).
Proof.
  intros Hnet Hst. simpl. unfold bind at 1, Batch.fetch. rewrite Hnet, Hst.
  reflexivity.
Qed.

Lemma batch_error retries k t res :
  net t url options = Responded res -> status res <> 429%Z -> ok res = false ->
  Batch.shopifyFetch_loop net url options retries (S k) t
  = (Throw (HttpError (status res) (statusText res)), EvFetch url options :: t).
Proof.
  intros Hnet Hst Hok. simpl. unfold bind at 1, Batch.fetch. rewrite Hnet.
  apply Z.eqb_neq in Hst. rewrite Hst, Hok. reflexivity.
Qed.

Lemma batch_ok retries k t res :
  net t url options = Responded res -> status res <> 429%Z -> ok res = true ->
  Batch.shopifyFetch_loop net url options retries (S k) t
  = (Ok res, EvFetch url options :: t).
Proof.
  intros Hnet Hst Hok. simpl. unfold bind at 1, Batch.fetch. rewrite Hnet.
  apply Z.eqb_neq in Hst. rewrite Hst, Hok. reflexivity.
Qed.

Lemma batch_rejected retries k t msg :
  net t url options = Rejected msg ->
  Batch.shopifyFetch_loop net url options retries (S k) t
  = (Throw (FetchFailed msg), EvFetch url options :: t).
Proof.
  intros Hnet. simpl. unfold bind at 1, Batch.fetch. rewrite Hnet.
  reflexivity.
Qed.

Lemma batch_loop_shape retries :
  forall remaining t, remaining <= retries ->
    exists j t1,
      j <= remaining
      /\ rate_limited net url options t j t1
      /\ batch_outcome net url options retries (retries - remaining + j) t1
           (Batch.shopifyFetch_loop net url options retries remaining t).
Proof.
  induction remaining as [|k IH]; intros t Hle.
  - exists 0, t. split; [lia|]. split; [constructor|].
    left. split; [lia | reflexivity].
  - destruct (net t url options) as [res|msg] eqn:Hnet.
    + destruct (Z.eq_dec (status res) 429) as [H429|Hn429].
      * destruct (IH (after_429 url options res t) ltac:(lia))
          as (j & t1 & Hj & Hrl & Hout).
        exists (S j), t1. split; [lia|].
        split; [econstructor; eassumption|].
        rewrite (batch_429 _ _ _ _ Hnet H429).
        replace (retries - S k + S j) with (retries - k + j) by lia.
        exact Hout.
      * exists 0, t. split; [lia|]. split; [constructor|].
        right. split; [lia|].
        destruct (ok res) eqn:Hok.
        -- left. exists res. rewrite (batch_ok _ _ _ _ Hnet Hn429 Hok). auto.
        -- right; left. exists res.
           rewrite (batch_error _ _ _ _ Hnet Hn429 Hok). auto.
    + exists 0, t. split; [lia|]. split; [constructor|].
      right. split; [lia|]. right; right. exists msg.
      rewrite (batch_rejected _ _ _ _ Hnet). auto.
Qed.

(** *** The webhook handler *)

Lemma webhook_429 retries i k t res :
  net t url options = Responded res -> status res = 429%Z ->
  ProductCreated.shopifyFetch_loop net url options retries i (S k) t
  = ProductCreated.shopifyFetch_loop net url options retries (S i) k
      (after_429 url options res t).
Proof.
  intros Hnet Hst. simpl.
  unfold bind at 1, try_catch, ProductCreated.attempt, bind at 1, Batch.fetch.
  rewrite Hnet, Hst. reflexivity.
Qed.

Lemma webhook_error_retried retries i k t res :
  net t url options = Responded res -> status res <> 429%Z -> ok res = false ->
  i <> retries - 1 ->
  ProductCreated.shopifyFetch_loop net url options retries i (S k) t
  = ProductCreated.shopifyFetch_loop net url options retries (S i) k
      (EvSleep (Some 1000%Z)
       :: EvConsole (LogRequestError (i + 1) retries
                       (HttpError (status res) (text_body res)))
       :: EvFetch url options :: t).
Proof.
  intros Hnet Hst Hok Hi. simpl.
  unfold bind at 1, try_catch, ProductCreated.attempt, bind at 1, Batch.fetch.
  rewrite Hnet. apply Z.eqb_neq in Hst. rewrite Hst, Hok. simpl.
  apply Nat.eqb_neq in Hi. unfold throw, bind at 1, console. rewrite Hi.
  reflexivity.
Qed.

Lemma webhook_error_last retries i k t res :
  net t url options = Responded res -> status res <> 429%Z -> ok res = false ->
  i = retries - 1 ->
  ProductCreated.shopifyFetch_loop net url options retries i (S k) t
  = (Throw (HttpError (status res) (text_body res)),
     EvConsole (LogRequestError (i + 1) retries
                  (HttpError (status res) (text_body res)))
     :: EvFetch url options :: t).
Proof.
  intros Hnet Hst Hok Hi. simpl.
  unfold bind at 1, try_catch, ProductCreated.attempt, bind at 1, Batch.fetch.
  rewrite Hnet. apply Z.eqb_neq in Hst. rewrite Hst, Hok. simpl.
  apply Nat.eqb_eq in Hi. unfold throw, bind at 1, console. rewrite Hi.
  reflexivity.
Qed.

Lemma webhook_ok retries i k t res :
  net t url options = Responded res -> status res <> 429%Z -> ok res = true ->
  ProductCreated.shopifyFetch_loop net url options retries i (S k) t
  = (Ok (Some res), EvFetch url options :: t).
Proof.
  intros Hnet Hst Hok. simpl.
  unfold bind at 1, try_catch, ProductCreated.attempt, bind at 1, Batch.fetch.
  rewrite Hnet. apply Z.eqb_neq in Hst. rewrite Hst, Hok. reflexivity.
Qed.

End ShopifyFetch.





Lemma webhook_rejected net url options retries i k t msg :
  net t url options = Rejected msg ->
  ProductCreated.shopifyFetch_loop net url options retries i (S k) t
  = if Nat.eqb i (retries - 1)
    then (Throw (FetchFailed msg),
          EvConsole (LogRequestError (i + 1) retries (FetchFailed msg))
          :: EvFetch url options :: t)
    else ProductCreated.shopifyFetch_loop net url options retries (S i) k
           (EvSleep (Some 1000%Z)
            :: EvConsole (LogRequestError (i + 1) retries (FetchFailed msg))
            :: EvFetch url options :: t).
Proof.
  intros Hnet. simpl.
  unfold bind at 1, try_catch, ProductCreated.attempt, bind at 1, Batch.fetch.
  rewrite Hnet. unfold bind at 1, console. simpl.
  destruct (Nat.eqb i (retries - 1)); reflexivity.
Qed.

Section BackOff.

Variable net : Network.
Variables (url : str) (options : Options) (retries : nat).





End BackOff.




(** C2 (amended): the batch [shopifyFetch] (5 attempts by default)
    re-issues a request only after a 429 response and at most [retries]
    times in all; when every attempt was answered 429 it throws, a non-429
    error response or a failed request makes it throw at once, and a 2xx
    response is returned.  The [shopifyFetch] of the webhook handler (3
    attempts by default) goes on after a 429 response too, but it also
    retries after a non-429 error response: the error is logged and,
    unless this was the last attempt, where it is thrown again, the
    function sleeps one second and issues the request again. *)
Theorem shopifyFetch_retry_policy :
  Batch.default_retries = 5 /\ ProductCreated.default_retries = 3
  /\ (forall net url options retries t,
         exists j t1,
           j <= retries
           /\ rate_limited net url options t j t1
           /\ batch_outcome net url options retries j t1
                (Batch.shopifyFetch net url options retries t))
  /\ (forall net url options retries i k t res,
         net t url options = Responded res -> status res = 429%Z ->
         ProductCreated.shopifyFetch_loop net url options retries i (S k) t
         = ProductCreated.shopifyFetch_loop net url options retries (S i) k
             (after_429 url options res t))
  /\ (forall net url options retries i k t res,
         net t url options = Responded res ->
         status res <> 429%Z -> ok res = false ->
         let error := HttpError (status res) (text_body res) in
         let logged := EvConsole (LogRequestError (i + 1) retries error)
                       :: EvFetch url options :: t in
         ProductCreated.shopifyFetch_loop net url options retries i (S k) t
         = if Nat.eqb i (retries - 1)
           then (Throw error, logged)
           else ProductCreated.shopifyFetch_loop net url options retries
                  (S i) k (EvSleep (Some 1000%Z) :: logged)).
Proof.
  split; [reflexivity|]. split; [reflexivity|]. split; [|split].
  - intros net url options retries t.
    destruct (batch_loop_shape net url options retries retries t (le_n _))
      as (j & t1 & Hj & Hrl & Hout).
    exists j, t1. split; [assumption|]. split; [assumption|].
    replace (retries - retries + j) with j in Hout by lia. exact Hout.
  - intros. apply webhook_429; assumption.
  - intros net url options retries i k t res Hnet Hst Hok error logged.
    destruct (Nat.eqb i (retries - 1)) eqn:Hi.
    + apply Nat.eqb_eq in Hi. apply webhook_error_last; assumption.
    + apply Nat.eqb_neq in Hi. apply webhook_error_retried; assumption.
Qed.

Lemma shopifyFetch_retry_policy_witness :
  let net := scripted [Responded res_500] (Responded res_200) in
  net [] sample_url get_options = Responded res_500
  /\ status res_500 <> 429%Z /\ ok res_500 = false
  /\ ProductCreated.shopifyFetch_loop net sample_url get_options 3 2 1 []
     = (Throw (HttpError 500 []),
        [EvConsole (LogRequestError 3 3 (HttpError 500 []));
         EvFetch sample_url get_options]).
Proof.
  intros net. split; [reflexivity|]. split; [discriminate|].
  split; [reflexivity|].
  apply (proj2 (proj2 (proj2 (proj2 shopifyFetch_retry_policy)))
           net sample_url get_options 3 2 0 [] res_500);
    [reflexivity | discriminate | reflexivity].
Defined.

(** C2 as stated fails in the webhook handler: answered 500 and then 200,
    its [shopifyFetch] does not throw on the 500 response; it logs the
    error, sleeps one second, issues the request again and returns the
    second response. *)
Lemma shopifyFetch_webhook_retries_after_500 :
  let net := scripted [Responded res_500] (Responded res_200) in
  net [] sample_url get_options = Responded res_500
  /\ status res_500 <> 429%Z /\ ok res_500 = false
  /\ ProductCreated.shopifyFetch net sample_url get_options
       ProductCreated.default_retries []
     = (Ok (Some res_200),
        [EvFetch sample_url get_options; EvSleep (Some 1000%Z);
         EvConsole (LogRequestError 1 3 (HttpError 500 []));
         EvFetch sample_url get_options]).
Proof.
  intros net. split; [reflexivity|]. split; [discriminate|].
  split; reflexivity.
Qed.

(* ===================================================================== *)
(** ** Pagination                                                          *)
(* ===================================================================== *)

Lemma starts_with_app (p s : str) : starts_with p (p ++ s) = true.
Proof.
  induction p as [|c p IH]; simpl; [reflexivity|].
  rewrite Ascii.eqb_refl, IH. reflexivity.
Qed.

Lemma str_includes_unfold (sub s : str) :
  str_includes sub s
  = starts_with sub s
    || match s with [] => false | _ :: s' => str_includes sub s' end.
Proof. destruct s; reflexivity. Qed.

Lemma str_includes_app (sub a b : str) : str_includes sub (a ++ sub ++ b) = true.
Proof.
  induction a as [|c a IH].
  - rewrite str_includes_unfold. simpl app. rewrite starts_with_app.
    reflexivity.
  - rewrite str_includes_unfold.
    change ((c :: a) ++ sub ++ b) with (c :: (a ++ sub ++ b)).
    cbv iota. rewrite IH. apply orb_true_r.
Qed.

Lemma span_not_app (c : ascii) (u rest : str) :
  ~ In c u -> span_not c (u ++ c :: rest) = (u, c :: rest).
Proof.
  induction u as [|x u IH]; simpl; intros Hin.
  - rewrite Ascii.eqb_refl. reflexivity.
  - destruct (Ascii.eqb x c) eqn:E.
    + apply Ascii.eqb_eq in E. tauto.
    + rewrite IH by tauto. reflexivity.
Qed.

Lemma match_next_here_nonempty (s u : str) :
  match_next_here s = Some u -> u <> [].
Proof.
  unfold match_next_here. destruct (span_not ">"%char s) as [run after].
  destruct run; [discriminate|].
  destruct (starts_with next_suffix after); [|discriminate].
  intros H; inversion H; discriminate.
Qed.

Lemma match_next_nonempty (s u : str) : match_next s = Some u -> u <> [].
Proof.
  induction s as [|c s IH]; simpl; [discriminate|].
  destruct (Ascii.eqb c "<"%char); [|exact IH].
  destruct (match_next_here s) eqn:E; [|exact IH].
  intros H; inversion H; subst. eapply match_next_here_nonempty; eassumption.
Qed.

(** The capture is the text between [<] and [>; rel="next"]. *)
Lemma match_next_here_hit (u post : str) :
  u <> [] -> ~ In ">"%char u ->
  match_next_here (u ++ next_suffix ++ post) = Some u.
Proof.
  intros Hne Hin. unfold match_next_here.
  change (next_suffix ++ post) with (">"%char :: tl next_suffix ++ post).
  rewrite span_not_app by assumption.
  destruct u; [congruence|].
  change (">"%char :: tl next_suffix ++ post) with (next_suffix ++ post).
  rewrite starts_with_app. reflexivity.
Qed.

Lemma match_next_skip (pre s : str) :
  ~ In "<"%char pre -> match_next (pre ++ s) = match_next s.
Proof.
  induction pre as [|c pre IH]; simpl; intros Hin; [reflexivity|].
  destruct (Ascii.eqb c "<"%char) eqn:E.
  - apply Ascii.eqb_eq in E. subst. tauto.
  - apply IH. tauto.
Qed.

Lemma match_next_bracket (s : str) :
  match_next ("<"%char :: s)
  = match match_next_here s with
    | Some u => Some u
    | None => match_next s
    end.
Proof. reflexivity. Qed.

Lemma match_next_link (pre u post : str) :
  ~ In "<"%char pre -> u <> [] -> ~ In ">"%char u ->
  match_next (pre ++ link_next u ++ post) = Some u.
Proof.
  intros Hpre Hne Hin. rewrite match_next_skip by assumption.
  change (link_next u ++ post) with ("<"%char :: (u ++ next_suffix) ++ post).
  rewrite <- app_assoc, match_next_bracket.
  rewrite match_next_here_hit by assumption. reflexivity.
Qed.

Lemma includes_rel_next (pre u post : str) :
  str_includes rel_next (pre ++ link_next u ++ post) = true.
Proof.
  unfold link_next, next_suffix.
  replace (pre ++ (lit "<" ++ u ++ lit ">; rel=" ++ [dquote] ++ lit "next"
                   ++ [dquote]) ++ post)
    with ((pre ++ lit "<" ++ u ++ lit ">; ") ++ rel_next ++ post).
  - apply str_includes_app.
  - unfold rel_next. rewrite <- !app_assoc. reflexivity.
Qed.

Lemma nextUrl_nonempty (res : Response) (u : str) :
  Batch.nextUrl res = Some u -> u <> [].
Proof.
  unfold Batch.nextUrl.
  destruct (truthy _ && str_includes _ _); [|discriminate].
  apply match_next_nonempty.
Qed.

Lemma nextUrl_absent (res : Response) :
  headers_get res (lit "link") = None -> Batch.nextUrl res = None.
Proof. intros H. unfold Batch.nextUrl. rewrite H. reflexivity. Qed.

Lemma nextUrl_no_rel_next (res : Response) (h : str) :
  headers_get res (lit "link") = Some h -> str_includes rel_next h = false ->
  Batch.nextUrl res = None.
Proof.
  intros H Hinc. unfold Batch.nextUrl. rewrite H.
  destruct h; [reflexivity|]. simpl or_else. rewrite Hinc.
  rewrite andb_false_r. reflexivity.
Qed.

Lemma nextUrl_link (res : Response) (pre u post : str) :
  headers_get res (lit "link") = Some (pre ++ link_next u ++ post) ->
  ~ In "<"%char pre -> u <> [] -> ~ In ">"%char u ->
  Batch.nextUrl res = Some u.
Proof.
  intros H Hpre Hne Hin. unfold Batch.nextUrl. rewrite H.
  assert (Hs : exists c s, pre ++ link_next u ++ post = c :: s).
  { destruct pre; simpl; eauto. }
  destruct Hs as (c & s & Hs). rewrite Hs. simpl truthy. simpl or_else.
  rewrite <- Hs, includes_rel_next, match_next_link by assumption.
  reflexivity.
Qed.

(** The loop returns what it had accumulated followed by the pages of the
    chain. *)
Lemma fetchAllProducts_loop_chain (net : Network) (TOKEN : str)
    (t : Trace) (url : str) (pages : list (list Product)) (t' : Trace) :
  page_chain net TOKEN t url pages t' ->
  forall fuel allProducts,
    url <> [] -> length pages <= fuel ->
    Batch.fetchAllProducts_loop net fuel TOKEN (Some url) allProducts t
    = (Ok (allProducts ++ concat pages), t').
Proof.
  induction 1 as [t url res data t' Hfetch Hjson Hnext
                 |t url res data t' url' pages t'' Hfetch Hjson Hnext _ IH];
    intros fuel allProducts Hurl Hfuel;
    (destruct fuel as [|fuel]; [simpl in Hfuel; lia|]);
    (destruct url as [|c url]; [congruence|]);
    simpl; unfold bind at 1; fold (page_options TOKEN); rewrite Hfetch;
    unfold bind at 1, json; rewrite Hjson; unfold ret at 1; rewrite Hnext.
  - destruct fuel; simpl; rewrite app_nil_r; reflexivity.
  - rewrite IH.
    + rewrite <- app_assoc. reflexivity.
    + eapply nextUrl_nonempty; eassumption.
    + simpl in Hfuel. lia.
Qed.

(** C4: [fetchAllProducts] starts at [products.json?limit=250], takes the
    next address from the [link] header of each page (the text between
    [<] and [>; rel="next"]), stops at the first page without such a link,
    and returns the [products] arrays of the pages it fetched, concatenated
    in page order; a number of loop turns equal to the number of pages is
    enough. *)
Theorem fetchAllProducts_follows_next_links :
  (forall net SHOP API_VERSION TOKEN t pages t' fuel,
      page_chain net TOKEN t (Batch.products_url SHOP API_VERSION) pages t' ->
      length pages <= fuel ->
      Batch.fetchAllProducts net fuel SHOP API_VERSION TOKEN t
      = (Ok (concat pages), t'))
  /\ (forall res,
         headers_get res (lit "link") = None -> Batch.nextUrl res = None)
  /\ (forall res h,
         headers_get res (lit "link") = Some h ->
         str_includes rel_next h = false -> Batch.nextUrl res = None)
  /\ (forall res pre u post,
         headers_get res (lit "link") = Some (pre ++ link_next u ++ post) ->
         ~ In "<"%char pre -> u <> [] -> ~ In ">"%char u ->
         Batch.nextUrl res = Some u).
Proof.
  split; [|split; [|split]].
  - intros net SHOP API_VERSION TOKEN t pages t' fuel Hchain Hfuel.
    unfold Batch.fetchAllProducts.
    rewrite (fetchAllProducts_loop_chain net TOKEN t _ pages t' Hchain);
      [reflexivity | discriminate | assumption].
  - exact nextUrl_absent.
  - exact nextUrl_no_rel_next.
  - exact nextUrl_link.
Qed.

Lemma fetchAllProducts_follows_next_links_witness :
  let TOKEN := lit "token" in
  let t' := [EvFetch page3_url (page_options TOKEN);
             EvFetch page2_url (page_options TOKEN);
             EvFetch page1_url (page_options TOKEN)] in
  page_chain three_pages TOKEN [] page1_url [[p1; p2]; [p3]; []] t'
  /\ Batch.fetchAllProducts three_pages 3 (lit "shop.example") (lit "2025-01")
       TOKEN []
     = (Ok [p1; p2; p3], t').
Proof.
  intros TOKEN t'.
  assert (Hchain : page_chain three_pages TOKEN [] page1_url
                     [[p1; p2]; [p3]; []] t').
  { eapply (page_chain_next three_pages TOKEN [] page1_url
              (page (Some (link_next page2_url)) [p1; p2])
              {| products := [p1; p2]; metafields := None |});
      [reflexivity | reflexivity | reflexivity |].
    eapply (page_chain_next three_pages TOKEN _ page2_url
              (page (Some (link_previous_next page1_url page3_url)) [p3])
              {| products := [p3]; metafields := None |});
      [reflexivity | reflexivity | reflexivity |].
    eapply (page_chain_last three_pages TOKEN _ page3_url _
              {| products := []; metafields := None |});
      reflexivity. }
  split; [exact Hchain|].
  exact (proj1 fetchAllProducts_follows_next_links three_pages
           (lit "shop.example") (lit "2025-01") TOKEN [] _ t' 3 Hchain
           (le_n 3)).
Defined.

(* ===================================================================== *)
(** ** The effect monad                                                    *)
(* ===================================================================== *)

Lemma bind_ok {A B} {c : M A} {k : A -> M B} {t t' : Trace} {a : A} :
  c t = (Ok a, t') -> bind c k t = k a t'.
Proof. intros H. unfold bind. rewrite H. reflexivity. Qed.

Lemma bind_throw {A B} {c : M A} {k : A -> M B} {t t' : Trace} {e : Error} :
  c t = (Throw e, t') -> bind c k t = (Throw e, t').
Proof. intros H. unfold bind. rewrite H. reflexivity. Qed.

Lemma try_catch_ok {A} {c : M A} {h : Error -> M A} {t t' : Trace} {a : A} :
  c t = (Ok a, t') -> try_catch c h t = (Ok a, t').
Proof. intros H. unfold try_catch. rewrite H. reflexivity. Qed.

Lemma try_catch_throw {A} {c : M A} {h : Error -> M A} {t t' : Trace}
    {e : Error} :
  c t = (Throw e, t') -> try_catch c h t = h e t'.
Proof. intros H. unfold try_catch. rewrite H. reflexivity. Qed.

(** The batch [shopifyFetch] returns a response or throws. *)
Lemma batch_shopifyFetch_total (net : Network) (url : str) (options : Options)
    (retries : nat) (t : Trace) :
  exists t',
    (exists res, Batch.shopifyFetch net url options retries t = (Ok res, t'))
    \/ (exists e, Batch.shopifyFetch net url options retries t = (Throw e, t')).
Proof.
  destruct (batch_loop_shape net url options retries retries t (le_n _))
    as (j & t1 & _ & _ & Hout).
  unfold Batch.shopifyFetch.
  destruct Hout as [[_ ->] | [_ [(res & _ & _ & _ & ->)
                                | [(res & _ & _ & _ & ->) | (msg & _ & ->)]]]];
    eauto.
Qed.

(* ===================================================================== *)
(** ** [update-products-barra.js]: one product                             *)
(* ===================================================================== *)

Section BarraStep.

Import UpdateProductsBarra.

Variable net : Network.
Variables SHOP API_VERSION TOKEN : str.

Ltac open_step :=
  unfold get_metafields, put_product, metafields_options, put_options,
    barra_payload, variants_start in *;
  unfold product_step.

Lemma variant_step_total product productIndex variantIndex variant st t :
  exists st' t',
    variant_step product productIndex variantIndex variant st t = (Ok st', t').
Proof.
  unfold variant_step.
  destruct (negb (truthy (barcode variant))); [|unfold ret; eauto].
  destruct (doWhile _ _ _ _ _) as [newBarcode attempts].
  destruct (maxAttempts <=? attempts)%N;
    unfold bind, console, ret; simpl; eauto.
Qed.

Lemma variants_loop_total product productIndex :
  forall vs variantIndex st t,
    exists st' t',
      variants_loop product productIndex variantIndex vs st t = (Ok st', t').
Proof.
  induction vs as [|variant rest IH]; intros variantIndex st t; simpl.
  - unfold ret; eauto.
  - destruct (variant_step_total product productIndex variantIndex variant st t)
      as (st1 & t1 & H1).
    rewrite (bind_ok H1). apply IH.
Qed.

Lemma barra_step_skip productIndex product st t :
  truthy (Batch.tagMatch product) = false ->
  product_step net SHOP API_VERSION TOKEN productIndex product st t = (Ok st, t).
Proof. intros H. open_step. rewrite H. reflexivity. Qed.

Lemma barra_step_metafields_throw productIndex product st t e t1 :
  truthy (Batch.tagMatch product) = true ->
  get_metafields net SHOP API_VERSION TOKEN product t = (Throw e, t1) ->
  product_step net SHOP API_VERSION TOKEN productIndex product st t = (Throw e, t1).
Proof.
  intros H H1. open_step. rewrite H; cbn [negb].
  apply bind_throw. exact H1.
Qed.

Lemma barra_step_metafields_not_json productIndex product st t res t1 :
  truthy (Batch.tagMatch product) = true ->
  get_metafields net SHOP API_VERSION TOKEN product t = (Ok res, t1) ->
  json_body res = None ->
  product_step net SHOP API_VERSION TOKEN productIndex product st t = (Throw SyntaxError, t1).
Proof.
  intros H H1 Hj. open_step. rewrite H; cbn [negb].
  rewrite (bind_ok H1). apply bind_throw. unfold json. rewrite Hj.
  reflexivity.
Qed.

Lemma barra_step_updated productIndex product st t res t1 data vst t2 x t3 :
  truthy (Batch.tagMatch product) = true ->
  get_metafields net SHOP API_VERSION TOKEN product t = (Ok res, t1) ->
  json_body res = Some data ->
  variants_loop product productIndex 0 (variants product) (variants_start st) t1
  = (Ok vst, t2) ->
  put_product net SHOP API_VERSION TOKEN product
    (barra_payload (or_else (Batch.tagMatch product) []) product data vst) t2
  = (Ok x, t3) ->
  product_step net SHOP API_VERSION TOKEN productIndex product st t
  = (Ok (barra_state vst (updated st ++ [title product])),
     EvSleep (Some 500%Z) :: t3).
Proof.
  intros H H1 Hj H2 H3. open_step. rewrite H; cbn [negb].
  rewrite (bind_ok H1).
  rewrite (bind_ok (c := json res) (t := t1) (t' := t1) (a := data))
    by (unfold json; rewrite Hj; reflexivity).
  rewrite (bind_ok H2).
  erewrite bind_ok.
  2:{ apply try_catch_ok. rewrite (bind_ok H3). reflexivity. }
  reflexivity.
Qed.

Lemma barra_step_update_failed productIndex product st t res t1 data vst t2 e t3 :
  truthy (Batch.tagMatch product) = true ->
  get_metafields net SHOP API_VERSION TOKEN product t = (Ok res, t1) ->
  json_body res = Some data ->
  variants_loop product productIndex 0 (variants product) (variants_start st) t1
  = (Ok vst, t2) ->
  put_product net SHOP API_VERSION TOKEN product
    (barra_payload (or_else (Batch.tagMatch product) []) product data vst) t2
  = (Throw e, t3) ->
  product_step net SHOP API_VERSION TOKEN productIndex product st t
  = (Ok (barra_state vst (updated st)),
     EvSleep (Some 500%Z) :: EvConsole (LogUpdateError (title product) e) :: t3).
Proof.
  intros H H1 Hj H2 H3. open_step. rewrite H; cbn [negb].
  rewrite (bind_ok H1).
  rewrite (bind_ok (c := json res) (t := t1) (t' := t1) (a := data))
    by (unfold json; rewrite Hj; reflexivity).
  rewrite (bind_ok H2).
  erewrite bind_ok.
  2:{ rewrite (try_catch_throw (t' := t3) (e := e))
        by (apply bind_throw; exact H3).
      reflexivity. }
  reflexivity.
Qed.

(** Every turn of the loop is one of the five cases of [barra_turn]. *)
Lemma barra_step_turn productIndex product st t :
  barra_turn net SHOP API_VERSION TOKEN productIndex product st t
    (product_step net SHOP API_VERSION TOKEN productIndex product st t).
Proof.
  destruct (truthy (Batch.tagMatch product)) eqn:Htag.
  2:{ rewrite barra_step_skip by assumption. constructor; assumption. }
  destruct (batch_shopifyFetch_total net
              (Batch.metafields_url SHOP API_VERSION product)
              (metafields_options TOKEN) Batch.default_retries t)
    as (t1 & [(res & H1) | (e & H1)]).
  2:{ rewrite (barra_step_metafields_throw _ _ _ _ _ _ Htag H1).
      econstructor; eassumption. }
  destruct (json_body res) as [data|] eqn:Hj.
  2:{ rewrite (barra_step_metafields_not_json _ _ _ _ _ _ Htag H1 Hj).
      econstructor; eassumption. }
  destruct (variants_loop_total product productIndex (variants product) 0%N
              (variants_start st) t1) as (vst & t2 & H2).
  destruct (batch_shopifyFetch_total net
              (Batch.product_url SHOP API_VERSION (id product))
              (put_options TOKEN
                 (barra_payload (or_else (Batch.tagMatch product) []) product
                    data vst))
              Batch.default_retries t2)
    as (t3 & [(x & H3) | (e & H3)]).
  - rewrite (barra_step_updated _ _ _ _ _ _ _ _ _ _ _ Htag H1 Hj H2 H3).
    econstructor; eassumption.
  - rewrite (barra_step_update_failed _ _ _ _ _ _ _ _ _ _ _ Htag H1 Hj H2 H3).
    econstructor; eassumption.
Qed.

End BarraStep.

(* ===================================================================== *)
(** ** [update-products.js]: one product                                   *)
(* ===================================================================== *)

Section PlainStep.

Import UpdateProducts.

Variable net : Network.
Variables SHOP API_VERSION TOKEN : str.

(** Every turn of the loop is one of the five cases of [plain_turn]. *)
Lemma plain_step_turn product updated t :
  plain_turn net SHOP API_VERSION TOKEN product updated t
    (product_step net SHOP API_VERSION TOKEN product updated t).
Proof.
  unfold product_step.
  destruct (truthy (Batch.tagMatch product)) eqn:Htag; cbn [negb].
  2:{ constructor; assumption. }
  destruct (batch_shopifyFetch_total net
              (Batch.metafields_url SHOP API_VERSION product)
              (metafields_options TOKEN) Batch.default_retries t)
    as (t1 & [(res & H1) | (e & H1)]).
  2:{ rewrite (bind_throw H1). econstructor; eassumption. }
  rewrite (bind_ok H1).
  destruct (json_body res) as [data|] eqn:Hj.
  2:{ rewrite (bind_throw (c := json res) (t := t1) (t' := t1)
                 (e := SyntaxError))
        by (unfold json; rewrite Hj; reflexivity).
      econstructor; eassumption. }
  rewrite (bind_ok (c := json res) (t := t1) (t' := t1) (a := data))
    by (unfold json; rewrite Hj; reflexivity).
  destruct (batch_shopifyFetch_total net
              (Batch.product_url SHOP API_VERSION (id product))
              (put_options TOKEN
                 (plain_payload (or_else (Batch.tagMatch product) []) product
                    data))
              Batch.default_retries t1)
    as (t3 & [(x & H3) | (e & H3)]).
  - erewrite bind_ok.
    2:{ apply try_catch_ok. unfold put_options, plain_payload in H3.
        rewrite (bind_ok H3). reflexivity. }
    eapply plain_updated; eassumption.
  - erewrite bind_ok.
    2:{ unfold put_options, plain_payload in H3.
        rewrite (try_catch_throw (t' := t3) (e := e))
          by (apply bind_throw; exact H3).
        reflexivity. }
    eapply plain_update_failed; eassumption.
Qed.

End PlainStep.

(* ===================================================================== *)
(** ** What the loops add to the trace                                     *)
(* ===================================================================== *)

Lemma grows_refl t : grows t t.
Proof. intros e H; exact H. Qed.

Lemma grows_trans t1 t2 t3 : grows t1 t2 -> grows t2 t3 -> grows t1 t3.
Proof. intros H1 H2 e H. auto. Qed.

Lemma grows_cons e t t' : grows t t' -> grows t (e :: t').
Proof. intros H x Hx. right. auto. Qed.

Lemma only_fetches_refl P t : only_fetches P t t.
Proof. intros u o H; left; exact H. Qed.

Lemma only_fetches_trans P t1 t2 t3 :
  only_fetches P t1 t2 -> only_fetches P t2 t3 -> only_fetches P t1 t3.
Proof.
  intros H1 H2 u o H. destruct (H2 u o H) as [H'|H']; [auto | right; exact H'].
Qed.

Lemma only_fetches_weaken (P Q : str -> Options -> Prop) t t' :
  (forall u o, P u o -> Q u o) -> only_fetches P t t' -> only_fetches Q t t'.
Proof. intros HPQ H u o Hin. destruct (H u o Hin); auto. Qed.

Lemma only_fetches_sleep P t t' ms :
  only_fetches P t t' -> only_fetches P t (EvSleep ms :: t').
Proof. intros H u o [Hin|Hin]; [discriminate | auto]. Qed.

Lemma only_fetches_console P t t' entry :
  only_fetches P t t' -> only_fetches P t (EvConsole entry :: t').
Proof. intros H u o [Hin|Hin]; [discriminate | auto]. Qed.

Lemma only_fetches_fetch (P : str -> Options -> Prop) t t' url options :
  P url options -> only_fetches P t t' ->
  only_fetches P t (EvFetch url options :: t').
Proof.
  intros HP H u o [Hin|Hin]; [inversion Hin; subst; auto | auto].
Qed.

Lemma rate_limited_trace net url options t j t1 :
  rate_limited net url options t j t1 ->
  grows t t1 /\ only_fetches (fun u o => u = url /\ o = options) t t1.
Proof.
  induction 1 as [t | t res j t' Hnet Hst _ [IHg IHo]].
  - split; [apply grows_refl | apply only_fetches_refl].
  - split.
    + eapply grows_trans; [|exact IHg]. unfold after_429.
      do 3 apply grows_cons. apply grows_refl.
    + eapply only_fetches_trans; [|exact IHo]. unfold after_429.
      apply only_fetches_sleep, only_fetches_console, only_fetches_fetch;
        [auto | apply only_fetches_refl].
Qed.

(** The batch [shopifyFetch] only adds requests for its own address, and
    at least one when it returns a response. *)
Lemma batch_shopifyFetch_trace net url options retries t r t' :
  Batch.shopifyFetch net url options retries t = (r, t') ->
  grows t t'
  /\ only_fetches (fun u o => u = url /\ o = options) t t'
  /\ (forall res, r = Ok res -> In (EvFetch url options) t').
Proof.
  intros Hrun.
  destruct (batch_loop_shape net url options retries retries t (le_n _))
    as (j & t1 & _ & Hrl & Hout).
  apply rate_limited_trace in Hrl. destruct Hrl as [Hg Ho].
  unfold Batch.shopifyFetch in Hrun. rewrite Hrun in Hout.
  assert (Hone : grows t (EvFetch url options :: t1)
                 /\ only_fetches (fun u o => u = url /\ o = options) t
                      (EvFetch url options :: t1)).
  { split; [apply grows_cons; exact Hg|].
    apply only_fetches_fetch; [auto | exact Ho]. }
  destruct Hout as [[_ Heq] | [_ [(res & _ & _ & _ & Heq)
                                 | [(res & _ & _ & _ & Heq) | (msg & _ & Heq)]]]];
    inversion Heq; subst; clear Heq.
  - repeat split; try assumption. discriminate.
  - destruct Hone. repeat split; try assumption. intros; left; reflexivity.
  - destruct Hone. repeat split; try assumption. discriminate.
  - destruct Hone. repeat split; try assumption. discriminate.
Qed.

Lemma batch_loop_grows net url options retries :
  forall k t r t',
    Batch.shopifyFetch_loop net url options retries k t = (r, t') ->
    grows t t'.
Proof.
  induction k as [|k IH]; intros t r t' Hrun; simpl in Hrun.
  - inversion Hrun; subst. apply grows_refl.
  - unfold bind at 1, Batch.fetch in Hrun.
    destruct (net t url options) as [res|msg].
    + destruct (status res =? 429)%Z.
      * unfold bind at 1, console in Hrun. simpl in Hrun.
        unfold bind at 1, sleep in Hrun. simpl in Hrun.
        apply IH in Hrun.
        eapply grows_trans; [|exact Hrun]. do 3 apply grows_cons.
        apply grows_refl.
      * destruct (negb (ok res)); inversion Hrun; subst;
          apply grows_cons, grows_refl.
    + inversion Hrun; subst. apply grows_cons, grows_refl.
Qed.

(** With at least one attempt, the request is issued. *)
Lemma batch_loop_issues net url options retries k t r t' :
  Batch.shopifyFetch_loop net url options retries (S k) t = (r, t') ->
  In (EvFetch url options) t'.
Proof.
  intros Hrun. simpl in Hrun. unfold bind at 1, Batch.fetch in Hrun.
  destruct (net t url options) as [res|msg].
  - destruct (status res =? 429)%Z.
    + unfold bind at 1, console in Hrun. simpl in Hrun.
      unfold bind at 1, sleep in Hrun. simpl in Hrun.
      apply batch_loop_grows in Hrun. apply Hrun.
      right; right; left; reflexivity.
    + destruct (negb (ok res)); inversion Hrun; subst; left; reflexivity.
  - inversion Hrun; subst. left; reflexivity.
Qed.

(** The loop over the variants makes no request. *)
Lemma variants_loop_trace product productIndex :
  forall vs variantIndex st t st' t',
    UpdateProductsBarra.variants_loop product productIndex variantIndex vs st t
    = (Ok st', t') ->
    grows t t' /\ only_fetches (fun _ _ => False) t t'.
Proof.
  induction vs as [|variant rest IH]; intros variantIndex st t st' t' Hrun;
    simpl in Hrun.
  - inversion Hrun; subst. split; [apply grows_refl | apply only_fetches_refl].
  - destruct (variant_step_total product productIndex variantIndex variant st t)
      as (st1 & t1 & H1).
    rewrite (bind_ok H1) in Hrun. apply IH in Hrun. destruct Hrun as [Hg Ho].
    assert (Hstep : grows t t1 /\ only_fetches (fun _ _ => False) t t1).
    { unfold UpdateProductsBarra.variant_step in H1.
      destruct (negb (truthy (barcode variant))).
      - destruct (UpdateProductsBarra.doWhile _ _ _ _ _) as [b a].
        destruct (UpdateProductsBarra.maxAttempts <=? a)%N;
          inversion H1; subst.
        + split; [apply grows_cons, grows_refl
                 | apply only_fetches_console, only_fetches_refl].
        + split; [apply grows_refl | apply only_fetches_refl].
      - inversion H1; subst.
        split; [apply grows_refl | apply only_fetches_refl]. }
    destruct Hstep as [Hg1 Ho1].
    split; [eapply grows_trans | eapply only_fetches_trans]; eassumption.
Qed.

Section BatchTraces.

Variable net : Network.
Variables SHOP API_VERSION TOKEN : str.

Lemma get_metafields_trace product t r t' :
  get_metafields net SHOP API_VERSION TOKEN product t = (r, t') ->
  truthy (Batch.tagMatch product) = true ->
  grows t t' /\ only_tagged SHOP API_VERSION [product] t t'.
Proof.
  intros Hrun Htag. apply batch_shopifyFetch_trace in Hrun.
  destruct Hrun as (Hg & Ho & _). split; [exact Hg|].
  eapply only_fetches_weaken; [|exact Ho].
  intros u o [-> _]. exists product. split; [left; reflexivity|].
  split; [assumption | left; reflexivity].
Qed.

Lemma put_product_trace product payload t r t' :
  put_product net SHOP API_VERSION TOKEN product payload t = (r, t') ->
  truthy (Batch.tagMatch product) = true ->
  grows t t' /\ only_tagged SHOP API_VERSION [product] t t'
  /\ (forall x, r = Ok x ->
        In (EvFetch (Batch.product_url SHOP API_VERSION (id product))
              (put_options TOKEN payload)) t').
Proof.
  intros Hrun Htag. apply batch_shopifyFetch_trace in Hrun.
  destruct Hrun as (Hg & Ho & Hin). split; [exact Hg|]. split; [|exact Hin].
  eapply only_fetches_weaken; [|exact Ho].
  intros u o [-> _]. exists product. split; [left; reflexivity|].
  split; [assumption | right; reflexivity].
Qed.

(** A failed update request was issued all the same. *)
Lemma put_product_issued product payload t r t' :
  put_product net SHOP API_VERSION TOKEN product payload t = (r, t') ->
  In (EvFetch (Batch.product_url SHOP API_VERSION (id product))
        (put_options TOKEN payload)) t'.
Proof.
  intros Hrun. unfold put_product, Batch.shopifyFetch in Hrun.
  eapply batch_loop_issues. exact Hrun.
Qed.

End BatchTraces.

Lemma only_tagged_incl SHOP API_VERSION (l l' : list Product) t t' :
  incl l l' -> only_tagged SHOP API_VERSION l t t' ->
  only_tagged SHOP API_VERSION l' t t'.
Proof.
  intros Hincl. unfold only_tagged. apply only_fetches_weaken.
  intros u o (p & Hin & Htag & Hreq). exists p. auto.
Qed.

Lemma only_tagged_nil_refl SHOP API_VERSION l t :
  only_tagged SHOP API_VERSION l t t.
Proof. apply only_fetches_refl. Qed.

Section BatchLoops.

Variable net : Network.
Variables SHOP API_VERSION TOKEN : str.

Lemma barra_turn_trace productIndex product st t r t' :
  barra_turn net SHOP API_VERSION TOKEN productIndex product st t (r, t') ->
  grows t t' /\ only_tagged SHOP API_VERSION [product] t t'
  /\ (forall st', r = Ok st' -> truthy (Batch.tagMatch product) = true ->
        update_sent SHOP API_VERSION TOKEN product t').
Proof.
  intros Hturn.
  inversion Hturn as [Htag | e t1 Htag H1 | res t1 Htag H1 Hj
                     | res t1 data vst t2 x t3 Htag H1 Hj H2 H3
                     | res t1 data vst t2 e t3 Htag H1 Hj H2 H3]; subst.
  - repeat split; try apply grows_refl; try apply only_fetches_refl.
    intros st' _ Htag'. congruence.
  - destruct (get_metafields_trace _ _ _ _ _ _ _ _ H1 Htag) as [Hg Ho].
    repeat split; try assumption. discriminate.
  - destruct (get_metafields_trace _ _ _ _ _ _ _ _ H1 Htag) as [Hg Ho].
    repeat split; try assumption. discriminate.
  - destruct (get_metafields_trace _ _ _ _ _ _ _ _ H1 Htag) as [Hg1 Ho1].
    destruct (variants_loop_trace _ _ _ _ _ _ _ _ H2) as [Hg2 Ho2].
    destruct (put_product_trace _ _ _ _ _ _ _ _ _ H3 Htag) as (Hg3 & Ho3 & Hin).
    split; [|split].
    + apply grows_cons. eauto using grows_trans.
    + apply only_fetches_sleep.
      eapply only_fetches_trans; [|exact Ho3].
      eapply only_fetches_trans; [exact Ho1|].
      eapply only_fetches_weaken; [|exact Ho2]. intros ? ? [].
    + intros st' _ _. do 2 eexists.
      split; [right; eapply Hin; reflexivity | split; reflexivity].
  - destruct (get_metafields_trace _ _ _ _ _ _ _ _ H1 Htag) as [Hg1 Ho1].
    destruct (variants_loop_trace _ _ _ _ _ _ _ _ H2) as [Hg2 Ho2].
    destruct (put_product_trace _ _ _ _ _ _ _ _ _ H3 Htag) as (Hg3 & Ho3 & _).
    split; [|split].
    + do 2 apply grows_cons. eauto using grows_trans.
    + apply only_fetches_sleep, only_fetches_console.
      eapply only_fetches_trans; [|exact Ho3].
      eapply only_fetches_trans; [exact Ho1|].
      eapply only_fetches_weaken; [|exact Ho2]. intros ? ? [].
    + intros st' _ _. do 2 eexists.
      split; [right; right; eapply put_product_issued; exact H3
             | split; reflexivity].
Qed.

Lemma plain_turn_trace product updated t r t' :
  plain_turn net SHOP API_VERSION TOKEN product updated t (r, t') ->
  grows t t' /\ only_tagged SHOP API_VERSION [product] t t'
  /\ (forall updated', r = Ok updated' ->
        truthy (Batch.tagMatch product) = true ->
        update_sent SHOP API_VERSION TOKEN product t').
Proof.
  intros Hturn.
  inversion Hturn as [Htag | e t1 Htag H1 | res t1 Htag H1 Hj
                     | res t1 data x t3 Htag H1 Hj H3
                     | res t1 data e t3 Htag H1 Hj H3]; subst.
  - repeat split; try apply grows_refl; try apply only_fetches_refl.
    intros st' _ Htag'. congruence.
  - destruct (get_metafields_trace _ _ _ _ _ _ _ _ H1 Htag) as [Hg Ho].
    repeat split; try assumption. discriminate.
  - destruct (get_metafields_trace _ _ _ _ _ _ _ _ H1 Htag) as [Hg Ho].
    repeat split; try assumption. discriminate.
  - destruct (get_metafields_trace _ _ _ _ _ _ _ _ H1 Htag) as [Hg1 Ho1].
    destruct (put_product_trace _ _ _ _ _ _ _ _ _ H3 Htag) as (Hg3 & Ho3 & Hin).
    split; [|split].
    + apply grows_cons. eauto using grows_trans.
    + apply only_fetches_sleep.
      eapply only_fetches_trans; [exact Ho1 | exact Ho3].
    + intros st' _ _. do 2 eexists.
      split; [right; eapply Hin; reflexivity | split; reflexivity].
  - destruct (get_metafields_trace _ _ _ _ _ _ _ _ H1 Htag) as [Hg1 Ho1].
    destruct (put_product_trace _ _ _ _ _ _ _ _ _ H3 Htag) as (Hg3 & Ho3 & _).
    split; [|split].
    + do 2 apply grows_cons. eauto using grows_trans.
    + apply only_fetches_sleep, only_fetches_console.
      eapply only_fetches_trans; [exact Ho1 | exact Ho3].
    + intros st' _ _. do 2 eexists.
      split; [right; right; eapply put_product_issued; exact H3
             | split; reflexivity].
Qed.

Lemma barra_loop_trace :
  forall products productIndex st t r t',
    UpdateProductsBarra.products_loop net SHOP API_VERSION TOKEN productIndex
      products st t = (r, t') ->
    grows t t' /\ only_tagged SHOP API_VERSION products t t'
    /\ (forall st', r = Ok st' ->
                    all_tagged_updated SHOP API_VERSION TOKEN products t').
Proof.
  intros ps. induction ps as [|p rest IH]; intros productIndex st t r t' Hrun;
    simpl in Hrun.
  - inversion Hrun; subst.
    repeat split; try apply grows_refl; try apply only_fetches_refl.
    intros st' _ p [].
  - pose proof (barra_step_turn net SHOP API_VERSION TOKEN productIndex p st t)
      as Hturn.
    destruct (UpdateProductsBarra.product_step _ _ _ _ _ _ _ _) as [r1 t1] eqn:E.
    destruct (barra_turn_trace _ _ _ _ _ _ Hturn) as (Hg1 & Ho1 & Hin1).
    apply (only_tagged_incl _ _ _ (p :: rest)) in Ho1;
      [|intros x [->|[]]; left; reflexivity].
    unfold bind in Hrun. rewrite E in Hrun.
    destruct r1 as [st1|e|].
    + apply IH in Hrun. destruct Hrun as (Hg2 & Ho2 & Hin2).
      apply (only_tagged_incl _ _ _ (p :: rest)) in Ho2;
        [|intros x Hx; right; exact Hx].
      split; [eapply grows_trans; eassumption|].
      split; [eapply only_fetches_trans; eassumption|].
      intros st' Hr q [->|Hq] Htag.
      * destruct (Hin1 st1 eq_refl Htag) as (pp & data & Hin & Hid & Hbody).
        exists pp, data. split; [apply Hg2; exact Hin | auto].
      * eapply Hin2; eassumption.
    + inversion Hrun; subst. repeat split; try assumption. discriminate.
    + inversion Hrun; subst. repeat split; try assumption. discriminate.
Qed.

Lemma plain_loop_trace :
  forall products updated t r t',
    UpdateProducts.products_loop net SHOP API_VERSION TOKEN products updated t
    = (r, t') ->
    grows t t' /\ only_tagged SHOP API_VERSION products t t'
    /\ (forall updated', r = Ok updated' ->
                         all_tagged_updated SHOP API_VERSION TOKEN products t').
Proof.
  intros ps. induction ps as [|p rest IH]; intros updated t r t' Hrun;
    simpl in Hrun.
  - inversion Hrun; subst.
    repeat split; try apply grows_refl; try apply only_fetches_refl.
    intros st' _ p [].
  - pose proof (plain_step_turn net SHOP API_VERSION TOKEN p updated t)
      as Hturn.
    destruct (UpdateProducts.product_step _ _ _ _ _ _ _) as [r1 t1] eqn:E.
    destruct (plain_turn_trace _ _ _ _ _ Hturn) as (Hg1 & Ho1 & Hin1).
    apply (only_tagged_incl _ _ _ (p :: rest)) in Ho1;
      [|intros x [->|[]]; left; reflexivity].
    unfold bind in Hrun. rewrite E in Hrun.
    destruct r1 as [updated1|e|].
    + apply IH in Hrun. destruct Hrun as (Hg2 & Ho2 & Hin2).
      apply (only_tagged_incl _ _ _ (p :: rest)) in Ho2;
        [|intros x Hx; right; exact Hx].
      split; [eapply grows_trans; eassumption|].
      split; [eapply only_fetches_trans; eassumption|].
      intros st' Hr q [->|Hq] Htag.
      * destruct (Hin1 updated1 eq_refl Htag)
          as (pp & data & Hin & Hid & Hbody).
        exists pp, data. split; [apply Hg2; exact Hin | auto].
      * eapply Hin2; eassumption.
    + inversion Hrun; subst. repeat split; try assumption. discriminate.
    + inversion Hrun; subst. repeat split; try assumption. discriminate.
Qed.

End BatchLoops.

(* ===================================================================== *)
(** ** The tag filter                                                      *)
(* ===================================================================== *)

Lemma includes_In (l : list str) (t : str) : includes l t = true <-> In t l.
Proof.
  unfold includes. rewrite existsb_exists. split.
  - intros (x & Hin & Heq). apply str_eqb_eq in Heq. subst. exact Hin.
  - intros Hin. exists t. split; [exact Hin | apply str_eqb_refl].
Qed.

Lemma targetTags_nonempty (t : str) : In t Batch.targetTags -> t <> [].
Proof.
  unfold Batch.targetTags. simpl.
  intros H; repeat (destruct H as [H|H]; [subst; discriminate|]); destruct H.
Qed.

(** The filter of the code is the tag condition. *)
Lemma tagMatch_truthy (product : Product) :
  truthy (Batch.tagMatch product) = true <-> has_target_tag product.
Proof.
  unfold Batch.tagMatch, Batch.tagsOf, has_target_tag. split.
  - destruct (find _ _) as [t|] eqn:E; [|discriminate]. intros _.
    apply find_some in E. destruct E as [Hin Hinc].
    apply in_map_iff in Hin. destruct Hin as (entry & <- & Hentry).
    exists entry. split; [exact Hentry | apply includes_In; exact Hinc].
  - intros (entry & Hentry & Htarget).
    destruct (find _ _) as [t|] eqn:E.
    + apply find_some in E. destruct E as [_ Hinc].
      apply includes_In, targetTags_nonempty in Hinc.
      destruct t; [congruence | reflexivity].
    + exfalso.
      assert (Hin : In (toLowerCase (trim entry))
                      (map (fun t => toLowerCase (trim t))
                         (split ","%char (tags product)))).
      { apply in_map_iff. exists entry. auto. }
      pose proof (find_none _ _ E (toLowerCase (trim entry)) Hin) as Hnone.
      rewrite (proj2 (includes_In _ _) Htarget) in Hnone. discriminate.
Qed.

(* ===================================================================== *)
(** ** Errors in the batch loops                                           *)
(* ===================================================================== *)

Section BatchErrors.

Variable net : Network.
Variables SHOP API_VERSION TOKEN : str.

Lemma metafields_available_tail p ps :
  metafields_available net SHOP API_VERSION TOKEN (p :: ps) ->
  metafields_available net SHOP API_VERSION TOKEN ps.
Proof. intros H q t Hin. apply H. right. exact Hin. Qed.

(** The turn of a product whose metafields are available does not throw. *)
Lemma barra_turn_ok productIndex p st t r t' :
  (truthy (Batch.tagMatch p) = true ->
   exists res data t1,
     get_metafields net SHOP API_VERSION TOKEN p t = (Ok res, t1)
     /\ json_body res = Some data) ->
  barra_turn net SHOP API_VERSION TOKEN productIndex p st t (r, t') ->
  exists st', r = Ok st'.
Proof.
  intros Hav Hturn.
  inversion Hturn as [Htag | e t1 Htag H1 | res t1 Htag H1 Hj
                     | res t1 data vst t2 x t3 Htag H1 Hj H2 H3
                     | res t1 data vst t2 e t3 Htag H1 Hj H2 H3]; subst;
    eauto;
    destruct (Hav Htag) as (res' & data' & t1' & H1' & Hj'); congruence.
Qed.

Lemma plain_turn_ok p updated t r t' :
  (truthy (Batch.tagMatch p) = true ->
   exists res data t1,
     get_metafields net SHOP API_VERSION TOKEN p t = (Ok res, t1)
     /\ json_body res = Some data) ->
  plain_turn net SHOP API_VERSION TOKEN p updated t (r, t') ->
  exists updated', r = Ok updated'.
Proof.
  intros Hav Hturn.
  inversion Hturn as [Htag | e t1 Htag H1 | res t1 Htag H1 Hj
                     | res t1 data x t3 Htag H1 Hj H3
                     | res t1 data e t3 Htag H1 Hj H3]; subst;
    eauto;
    destruct (Hav Htag) as (res' & data' & t1' & H1' & Hj'); congruence.
Qed.

(** Whatever happens to the update requests, the loop reaches its end. *)
Lemma barra_loop_never_aborts :
  forall ps, metafields_available net SHOP API_VERSION TOKEN ps ->
    forall productIndex st t,
      exists st' t',
        UpdateProductsBarra.products_loop net SHOP API_VERSION TOKEN
          productIndex ps st t = (Ok st', t').
Proof.
  intros ps. induction ps as [|p rest IH]; intros Hav productIndex st t; simpl.
  - unfold ret. eauto.
  - pose proof (barra_step_turn net SHOP API_VERSION TOKEN productIndex p st t)
      as Hturn.
    destruct (UpdateProductsBarra.product_step _ _ _ _ _ _ _ _) as [r1 t1] eqn:E.
    destruct (barra_turn_ok _ _ _ _ _ _
                (fun Htag => Hav p t (or_introl eq_refl) Htag) Hturn)
      as (st1 & ->).
    rewrite (bind_ok E). apply IH. eapply metafields_available_tail; eauto.
Qed.

Lemma plain_loop_never_aborts :
  forall ps, metafields_available net SHOP API_VERSION TOKEN ps ->
    forall updated t,
      exists updated' t',
        UpdateProducts.products_loop net SHOP API_VERSION TOKEN ps updated t
        = (Ok updated', t').
Proof.
  intros ps. induction ps as [|p rest IH]; intros Hav updated t; simpl.
  - unfold ret. eauto.
  - pose proof (plain_step_turn net SHOP API_VERSION TOKEN p updated t)
      as Hturn.
    destruct (UpdateProducts.product_step _ _ _ _ _ _ _) as [r1 t1] eqn:E.
    destruct (plain_turn_ok _ _ _ _ _
                (fun Htag => Hav p t (or_introl eq_refl) Htag) Hturn)
      as (updated1 & ->).
    rewrite (bind_ok E). apply IH. eapply metafields_available_tail; eauto.
Qed.

(** A failed update is logged and the loop goes on with the next product. *)
Lemma barra_update_failure_continues
    productIndex p rest st t res t1 data vst t2 e t3 :
  truthy (Batch.tagMatch p) = true ->
  get_metafields net SHOP API_VERSION TOKEN p t = (Ok res, t1) ->
  json_body res = Some data ->
  UpdateProductsBarra.variants_loop p productIndex 0 (variants p)
    (variants_start st) t1 = (Ok vst, t2) ->
  put_product net SHOP API_VERSION TOKEN p
    (barra_payload (or_else (Batch.tagMatch p) []) p data vst) t2
  = (Throw e, t3) ->
  UpdateProductsBarra.products_loop net SHOP API_VERSION TOKEN productIndex
    (p :: rest) st t
  = UpdateProductsBarra.products_loop net SHOP API_VERSION TOKEN
      (productIndex + 1) rest
      (barra_state vst (UpdateProductsBarra.updated st))
      (EvSleep (Some 500%Z) :: EvConsole (LogUpdateError (title p) e) :: t3).
Proof.
  intros Htag H1 Hj H2 H3. simpl.
  rewrite (bind_ok (barra_step_update_failed _ _ _ _ _ _ _ _ _ _ _ _ _ _ _
                      Htag H1 Hj H2 H3)).
  reflexivity.
Qed.

Lemma plain_update_failure_continues p rest updated t res t1 data e t3 :
  truthy (Batch.tagMatch p) = true ->
  get_metafields net SHOP API_VERSION TOKEN p t = (Ok res, t1) ->
  json_body res = Some data ->
  put_product net SHOP API_VERSION TOKEN p
    (plain_payload (or_else (Batch.tagMatch p) []) p data) t1
  = (Throw e, t3) ->
  UpdateProducts.products_loop net SHOP API_VERSION TOKEN (p :: rest) updated t
  = UpdateProducts.products_loop net SHOP API_VERSION TOKEN rest updated
      (EvSleep (Some 300%Z) :: EvConsole (LogUpdateError (title p) e) :: t3).
Proof.
  intros Htag H1 Hj H3. simpl.
  unfold get_metafields, put_product, metafields_options, put_options,
    plain_payload in *.
  erewrite bind_ok; [reflexivity|].
  unfold UpdateProducts.product_step. rewrite Htag; cbn [negb].
  rewrite (bind_ok H1).
  rewrite (bind_ok (c := json res) (t := t1) (t' := t1) (a := data))
    by (unfold json; rewrite Hj; reflexivity).
  erewrite bind_ok.
  2:{ rewrite (try_catch_throw (t' := t3) (e := e))
        by (apply bind_throw; exact H3).
      reflexivity. }
  reflexivity.
Qed.

(** An error of the request for the metafields ends the loop. *)
Lemma barra_metafields_failure_aborts productIndex p rest st t e t1 :
  truthy (Batch.tagMatch p) = true ->
  get_metafields net SHOP API_VERSION TOKEN p t = (Throw e, t1) ->
  UpdateProductsBarra.products_loop net SHOP API_VERSION TOKEN productIndex
    (p :: rest) st t = (Throw e, t1).
Proof.
  intros Htag H1. simpl. apply bind_throw.
  apply barra_step_metafields_throw; assumption.
Qed.

Lemma plain_metafields_failure_aborts p rest updated t e t1 :
  truthy (Batch.tagMatch p) = true ->
  get_metafields net SHOP API_VERSION TOKEN p t = (Throw e, t1) ->
  UpdateProducts.products_loop net SHOP API_VERSION TOKEN (p :: rest) updated t
  = (Throw e, t1).
Proof.
  intros Htag H1. simpl. apply bind_throw.
  unfold UpdateProducts.product_step. rewrite Htag. cbn [negb].
  apply bind_throw. exact H1.
Qed.

End BatchErrors.

(** C6 (amended): in both batch scripts an error of the update request of
    a product is caught, logged for that product, and the loop goes on
    with the next product; as long as the requests for the metafields
    succeed, the loop reaches its end whatever happens to the update
    requests.  An error raised while fetching the metafields of a product
    is not caught per product: it leaves the loop, and no later product is
    processed. *)
Theorem update_failure_does_not_abort_batch :
  forall net SHOP API_VERSION TOKEN,
    (forall ps, metafields_available net SHOP API_VERSION TOKEN ps ->
       (forall productIndex st t,
           exists st' t',
             UpdateProductsBarra.products_loop net SHOP API_VERSION TOKEN
               productIndex ps st t = (Ok st', t'))
       /\ (forall updated t,
              exists updated' t',
                UpdateProducts.products_loop net SHOP API_VERSION TOKEN
                  ps updated t = (Ok updated', t')))
    /\ (forall productIndex p rest st t res t1 data vst t2 e t3,
           truthy (Batch.tagMatch p) = true ->
           get_metafields net SHOP API_VERSION TOKEN p t = (Ok res, t1) ->
           json_body res = Some data ->
           UpdateProductsBarra.variants_loop p productIndex 0 (variants p)
             (variants_start st) t1 = (Ok vst, t2) ->
           put_product net SHOP API_VERSION TOKEN p
             (barra_payload (or_else (Batch.tagMatch p) []) p data vst) t2
           = (Throw e, t3) ->
           UpdateProductsBarra.products_loop net SHOP API_VERSION TOKEN
             productIndex (p :: rest) st t
           = UpdateProductsBarra.products_loop net SHOP API_VERSION TOKEN
               (productIndex + 1) rest
               (barra_state vst (UpdateProductsBarra.updated st))
               (EvSleep (Some 500%Z)
                :: EvConsole (LogUpdateError (title p) e) :: t3))
    /\ (forall p rest updated t res t1 data e t3,
           truthy (Batch.tagMatch p) = true ->
           get_metafields net SHOP API_VERSION TOKEN p t = (Ok res, t1) ->
           json_body res = Some data ->
           put_product net SHOP API_VERSION TOKEN p
             (plain_payload (or_else (Batch.tagMatch p) []) p data) t1
           = (Throw e, t3) ->
           UpdateProducts.products_loop net SHOP API_VERSION TOKEN
             (p :: rest) updated t
           = UpdateProducts.products_loop net SHOP API_VERSION TOKEN rest
               updated
               (EvSleep (Some 300%Z)
                :: EvConsole (LogUpdateError (title p) e) :: t3))
    /\ (forall productIndex p rest st t e t1,
           truthy (Batch.tagMatch p) = true ->
           get_metafields net SHOP API_VERSION TOKEN p t = (Throw e, t1) ->
           UpdateProductsBarra.products_loop net SHOP API_VERSION TOKEN
             productIndex (p :: rest) st t = (Throw e, t1))
    /\ (forall p rest updated t e t1,
           truthy (Batch.tagMatch p) = true ->
           get_metafields net SHOP API_VERSION TOKEN p t = (Throw e, t1) ->
           UpdateProducts.products_loop net SHOP API_VERSION TOKEN
             (p :: rest) updated t = (Throw e, t1)).
Proof.
  intros net SHOP API_VERSION TOKEN. split; [|split; [|split; [|split]]].
  - intros ps Hav. split.
    + apply barra_loop_never_aborts. exact Hav.
    + apply plain_loop_never_aborts. exact Hav.
  - apply barra_update_failure_continues.
  - apply plain_update_failure_continues.
  - apply barra_metafields_failure_aborts.
  - apply plain_metafields_failure_aborts.
Qed.

Lemma update_failure_does_not_abort_batch_witness :
  let net := shop_net [p1; p3] (always 200) (fails_for 1) in
  let res := sample_response 200 []
               (Some {| products := []; metafields := Some [] |}) in
  let data := {| products := []; metafields := Some [] |} in
  let t1 := [EvFetch (Batch.metafields_url shop api p1)
               (metafields_options token)] in
  let vst := variants_start barra_start in
  let payload := barra_payload (lit "all-jumpers") p1 data vst in
  let t3 := EvFetch (Batch.product_url shop api 1) (put_options token payload)
            :: t1 in
  metafields_available net shop api token [p1; p3]
  /\ (exists st' t',
         UpdateProductsBarra.products_loop net shop api token 0 [p1; p3]
           barra_start [] = (Ok st', t'))
  /\ put_product net shop api token p1 payload t1
     = (Throw (HttpError 500 []), t3)
  /\ UpdateProductsBarra.products_loop net shop api token 0 [p1; p3]
       barra_start []
     = UpdateProductsBarra.products_loop net shop api token 1 [p3]
         (barra_state vst [])
         (EvSleep (Some 500%Z)
          :: EvConsole (LogUpdateError (title p1) (HttpError 500 [])) :: t3).
Proof.
  intros net res data t1 vst payload t3.
  assert (Hav : metafields_available net shop api token [p1; p3]).
  { intros p t [<-|[<-|[]]] _;
      do 3 eexists; split; vm_compute; reflexivity. }
  split; [exact Hav|]. split; [|split].
  - exact (proj1 (proj1 (update_failure_does_not_abort_batch net shop api token)
                    [p1; p3] Hav) 0%N barra_start []).
  - reflexivity.
  - exact (proj1 (proj2 (update_failure_does_not_abort_batch net shop api token))
             0%N p1 [p3] barra_start [] res t1 data vst t1
             (HttpError 500 []) t3
             eq_refl eq_refl eq_refl eq_refl eq_refl).
Defined.

(** C6 as stated fails for the metafields: when the request for the
    metafields of the first product is answered 500, both scripts stop
    after it with the general error message; the second product, which
    passes the tag filter, is never requested. *)
Lemma metafields_error_aborts_batch :
  let net := shop_net [p1; p3] (fails_for 1) (always 200) in
  let stopped :=
    [EvConsole (LogGeneralError (HttpError 500 []));
     EvFetch (Batch.metafields_url shop api p1) (metafields_options token);
     EvFetch page1_url (page_options token)] in
  truthy (Batch.tagMatch p3) = true
  /\ UpdateProductsBarra.updateProducts net sample_env 1 [] = (Ok tt, stopped)
  /\ UpdateProducts.updateProducts net sample_env 1 [] = (Ok tt, stopped).
Proof. vm_compute. repeat split; reflexivity. Qed.

(* ===================================================================== *)
(** ** Only missing values                                                 *)
(* ===================================================================== *)


Lemma newVariants_only_missing productId :
  forall vs index u,
    In u (ProductCreated.newVariants productId index vs) ->
    for_variant_without_barcode vs u.
Proof.
  induction vs as [|variant rest IH]; intros index u Hu; simpl in Hu;
    [destruct Hu|].
  apply in_app_or in Hu. destruct Hu as [Hu | Hu].
  - destruct (truthy (barcode variant)) eqn:Hb; cbn [negb] in Hu;
      [destruct Hu|].
    destruct Hu as [<- | []]. exists variant.
    split; [left; reflexivity | auto].
  - destruct (IH _ _ Hu) as (v & Hv & Hb & Hid).
    exists v. split; [right; exact Hv | auto].
Qed.




Section WebhookTraces.

Variable net : Network.

(** The [shopifyFetch] of the webhook only adds requests for its own
    address and options. *)
Lemma webhook_shopifyFetch_trace url options retries :
  forall k i t r t',
    ProductCreated.shopifyFetch_loop net url options retries i k t = (r, t') ->
    grows t t' /\ only_fetches (fun u o => u = url /\ o = options) t t'.
Proof.
  induction k as [|k IH]; intros i t r t' Hrun.
  - inversion Hrun; subst. split; [apply grows_refl | apply only_fetches_refl].
  - assert (Hnext : forall i' t1,
               grows t t1 ->
               only_fetches (fun u o => u = url /\ o = options) t t1 ->
               ProductCreated.shopifyFetch_loop net url options retries i' k t1
               = (r, t') ->
               grows t t'
               /\ only_fetches (fun u o => u = url /\ o = options) t t').
    { intros i' t1 Hg Ho Hrun'. apply IH in Hrun'. destruct Hrun' as [Hg' Ho'].
      split; [eapply grows_trans | eapply only_fetches_trans]; eassumption. }
    assert (Hf : grows t (EvFetch url options :: t)
                 /\ only_fetches (fun u o => u = url /\ o = options) t
                      (EvFetch url options :: t)).
    { split; [apply grows_cons, grows_refl|].
      apply only_fetches_fetch; [auto | apply only_fetches_refl]. }
    destruct Hf as [Hgf Hof].
    destruct (net t url options) as [res|msg] eqn:Hnet.
    + destruct (Z.eq_dec (status res) 429) as [H429|Hn429].
      * rewrite (webhook_429 net url options retries i k t res Hnet H429)
          in Hrun.
        eapply Hnext; [| |exact Hrun]; unfold after_429.
        -- do 2 apply grows_cons. exact Hgf.
        -- apply only_fetches_sleep, only_fetches_console. exact Hof.
      * destruct (ok res) eqn:Hok.
        -- rewrite (webhook_ok net url options retries i k t res Hnet Hn429 Hok)
             in Hrun.
           inversion Hrun; subst. split; assumption.
        -- destruct (Nat.eq_dec i (retries - 1)) as [Hi|Hi].
           ++ rewrite (webhook_error_last net url options retries i k t res
                         Hnet Hn429 Hok Hi) in Hrun.
              inversion Hrun; subst.
              split; [apply grows_cons; exact Hgf
                     | apply only_fetches_console; exact Hof].
           ++ rewrite (webhook_error_retried net url options retries i k t res
                         Hnet Hn429 Hok Hi) in Hrun.
              eapply Hnext; [| |exact Hrun].
              ** do 2 apply grows_cons. exact Hgf.
              ** apply only_fetches_sleep, only_fetches_console. exact Hof.
    + rewrite (webhook_rejected net url options retries i k t msg Hnet) in Hrun.
      destruct (Nat.eqb i (retries - 1)).
      * inversion Hrun; subst.
        split; [apply grows_cons; exact Hgf
               | apply only_fetches_console; exact Hof].
      * eapply Hnext; [| |exact Hrun].
        -- do 2 apply grows_cons. exact Hgf.
        -- apply only_fetches_sleep, only_fetches_console. exact Hof.
Qed.

Variables SHOP API_VERSION TOKEN : str.



End WebhookTraces.

(* ===================================================================== *)
(** ** The requests of the batch loops, turn by turn                       *)
(* ===================================================================== *)

Lemma bind_assoc {A B C} (c : M A) (f : A -> M B) (k : B -> M C) (t : Trace) :
  bind (bind c f) k t = bind c (fun a => bind (f a) k) t.
Proof. unfold bind. destruct (c t) as [[a|e|] t']; reflexivity. Qed.

Lemma bind_ext {A B} (c : M A) (k1 k2 : A -> M B) (t : Trace) :
  (forall a t', k1 a t' = k2 a t') -> bind c k1 t = bind c k2 t.
Proof.
  intros H. unfold bind. destruct (c t) as [[a|e|] t']; [apply H | |];
    reflexivity.
Qed.


Section BatchTurns.

Variable net : Network.
Variables SHOP API_VERSION TOKEN : str.

Lemma update_sent_grows product t t' :
  grows t t' -> update_sent SHOP API_VERSION TOKEN product t ->
  update_sent SHOP API_VERSION TOKEN product t'.
Proof.
  intros Hg (pp & data & Hin & H). exists pp, data.
  split; [apply Hg; exact Hin | exact H].
Qed.

Lemma batch_urls_differ product :
  Batch.product_url SHOP API_VERSION (id product)
  <> Batch.metafields_url SHOP API_VERSION product.
Proof.
  unfold Batch.metafields_url, Batch.product_url. intros H.
  do 6 (apply app_inv_head in H). discriminate H.
Qed.

(** The request for the metafields adds no update. *)
Lemma get_metafields_requests product t r t' :
  get_metafields net SHOP API_VERSION TOKEN product t = (r, t') ->
  grows t t'
  /\ only_fetches
       (fun u o => u = Batch.metafields_url SHOP API_VERSION product
                   /\ o = metafields_options TOKEN) t t'
  /\ no_update SHOP API_VERSION product t t'.
Proof.
  intros Hrun. apply batch_shopifyFetch_trace in Hrun.
  destruct Hrun as (Hg & Ho & _). split; [exact Hg|]. split; [exact Ho|].
  intros options Hin. destruct (Ho _ _ Hin) as [Hold | [Hurl _]];
    [exact Hold|]. exfalso. exact (batch_urls_differ product Hurl).
Qed.


(** The turn of a product that passes the filter, once its metafields are
    there: the barcode loop, then the update, sent whatever becomes of
    it. *)
Lemma barra_turn_after_metafields productIndex p st t res t1 data :
  truthy (Batch.tagMatch p) = true ->
  get_metafields net SHOP API_VERSION TOKEN p t = (Ok res, t1) ->
  json_body res = Some data ->
  exists vst t2 st' t',
    UpdateProductsBarra.variants_loop p productIndex 0 (variants p)
      (variants_start st) t1 = (Ok vst, t2)
    /\ UpdateProductsBarra.product_step net SHOP API_VERSION TOKEN
         productIndex p st t = (Ok st', t')
    /\ UpdateProductsBarra.existingBarcodes st'
       = UpdateProductsBarra.vs_existingBarcodes vst
    /\ In (EvFetch (Batch.product_url SHOP API_VERSION (id p))
             (put_options TOKEN
                (barra_payload (or_else (Batch.tagMatch p) []) p data vst)))
         t'
    /\ grows t t'
    /\ only_fetches
         (fun u o =>
            (u = Batch.metafields_url SHOP API_VERSION p
             /\ o = metafields_options TOKEN)
            \/ (u = Batch.product_url SHOP API_VERSION (id p)
                /\ o = put_options TOKEN
                         (barra_payload (or_else (Batch.tagMatch p) []) p
                            data vst)))
         t t'.
Proof.
  intros Htag H1 Hj.
  destruct (variants_loop_total p productIndex (variants p) 0%N
              (variants_start st) t1) as (vst & t2 & H2).
  destruct (get_metafields_requests _ _ _ _ H1) as (Hg1 & Ho1 & _).
  destruct (variants_loop_trace _ _ _ _ _ _ _ _ H2) as [Hg2 Ho2].
  destruct (batch_shopifyFetch_total net
              (Batch.product_url SHOP API_VERSION (id p))
              (put_options TOKEN
                 (barra_payload (or_else (Batch.tagMatch p) []) p data vst))
              Batch.default_retries t2)
    as (t3 & [(x & H3) | (e & H3)]);
    pose proof (put_product_issued net SHOP API_VERSION TOKEN _ _ _ _ _ H3)
      as Hin;
    destruct (batch_shopifyFetch_trace _ _ _ _ _ _ _ H3) as (Hg3 & Ho3 & _);
    assert (Ho : only_fetches
                   (fun u o =>
                      (u = Batch.metafields_url SHOP API_VERSION p
                       /\ o = metafields_options TOKEN)
                      \/ (u = Batch.product_url SHOP API_VERSION (id p)
                          /\ o = put_options TOKEN
                                   (barra_payload
                                      (or_else (Batch.tagMatch p) []) p
                                      data vst)))
                   t t3)
      by (eapply only_fetches_trans;
          [eapply only_fetches_weaken; [|exact Ho1]; intros u o Hu; left; exact Hu|];
          eapply only_fetches_trans;
          [eapply only_fetches_weaken; [|exact Ho2]; intros u o []|];
          eapply only_fetches_weaken; [|exact Ho3];
          intros u o Hu; right; exact Hu);
    assert (Hg : grows t t3) by eauto using grows_trans;
    exists vst, t2; do 2 eexists;
    (split; [exact H2|]).
  - split; [exact (barra_step_updated _ _ _ _ _ _ _ _ _ _ _ _ _ _ _
                     Htag H1 Hj H2 H3)|].
    split; [reflexivity|]. split; [right; exact Hin|].
    split; [apply grows_cons; exact Hg|].
    apply only_fetches_sleep. exact Ho.
  - split; [exact (barra_step_update_failed _ _ _ _ _ _ _ _ _ _ _ _ _ _ _
                     Htag H1 Hj H2 H3)|].
    split; [reflexivity|]. split; [right; right; exact Hin|].
    split; [do 2 apply grows_cons; exact Hg|].
    apply only_fetches_sleep, only_fetches_console. exact Ho.
Qed.

Lemma plain_turn_after_metafields p updated t res t1 data :
  truthy (Batch.tagMatch p) = true ->
  get_metafields net SHOP API_VERSION TOKEN p t = (Ok res, t1) ->
  json_body res = Some data ->
  exists updated' t',
    UpdateProducts.product_step net SHOP API_VERSION TOKEN p updated t
    = (Ok updated', t')
    /\ In (EvFetch (Batch.product_url SHOP API_VERSION (id p))
             (put_options TOKEN
                (plain_payload (or_else (Batch.tagMatch p) []) p data)))
         t'
    /\ grows t t'
    /\ only_fetches
         (fun u o =>
            (u = Batch.metafields_url SHOP API_VERSION p
             /\ o = metafields_options TOKEN)
            \/ (u = Batch.product_url SHOP API_VERSION (id p)
                /\ o = put_options TOKEN
                         (plain_payload (or_else (Batch.tagMatch p) []) p
                            data)))
         t t'.
Proof.
  intros Htag H1 Hj.
  pose proof (plain_step_turn net SHOP API_VERSION TOKEN p updated t) as Hturn.
  destruct (get_metafields_requests _ _ _ _ H1) as (Hg1 & Ho1 & _).
  inversion Hturn as [Htag' | e t1' Htag' H1' | res' t1' Htag' H1' Hj'
                     | res' t1' data' x t3 Htag' H1' Hj' H3
                     | res' t1' data' e t3 Htag' H1' Hj' H3];
    try congruence;
    rewrite H1 in H1'; inversion H1'; subst res' t1'; clear H1';
    rewrite Hj in Hj'; inversion Hj'; subst data'; clear Hj';
    pose proof (put_product_issued net SHOP API_VERSION TOKEN _ _ _ _ _ H3)
      as Hin;
    destruct (batch_shopifyFetch_trace _ _ _ _ _ _ _ H3) as (Hg3 & Ho3 & _);
    assert (Ho : only_fetches
                   (fun u o =>
                      (u = Batch.metafields_url SHOP API_VERSION p
                       /\ o = metafields_options TOKEN)
                      \/ (u = Batch.product_url SHOP API_VERSION (id p)
                          /\ o = put_options TOKEN
                                   (plain_payload
                                      (or_else (Batch.tagMatch p) []) p data)))
                   t t3)
      by (eapply only_fetches_trans;
          [eapply only_fetches_weaken; [|exact Ho1]; intros u o Hu; left; exact Hu|];
          eapply only_fetches_weaken; [|exact Ho3];
          intros u o Hu; right; exact Hu);
    assert (Hg : grows t t3) by eauto using grows_trans;
    do 2 eexists; (split; [reflexivity|]).
  - split; [right; exact Hin|]. split; [apply grows_cons; exact Hg|].
    apply only_fetches_sleep. exact Ho.
  - split; [right; right; exact Hin|].
    split; [do 2 apply grows_cons; exact Hg|].
    apply only_fetches_sleep, only_fetches_console. exact Ho.
Qed.

(** A failing metafields request ends the turn with its error. *)
Lemma barra_turn_metafields_fail productIndex p st t e t1 :
  truthy (Batch.tagMatch p) = true ->
  metafields_fail net SHOP API_VERSION TOKEN p t e t1 ->
  UpdateProductsBarra.product_step net SHOP API_VERSION TOKEN productIndex
    p st t = (Throw e, t1)
  /\ no_update SHOP API_VERSION p t t1.
Proof.
  intros Htag [H1 | (res & H1 & Hj & ->)].
  - split; [apply barra_step_metafields_throw; assumption|].
    apply (get_metafields_requests _ _ _ _ H1).
  - split; [eapply barra_step_metafields_not_json; eassumption|].
    apply (get_metafields_requests _ _ _ _ H1).
Qed.

Lemma plain_turn_metafields_fail p updated t e t1 :
  truthy (Batch.tagMatch p) = true ->
  metafields_fail net SHOP API_VERSION TOKEN p t e t1 ->
  UpdateProducts.product_step net SHOP API_VERSION TOKEN p updated t
  = (Throw e, t1)
  /\ no_update SHOP API_VERSION p t t1.
Proof.
  intros Htag Hfail.
  assert (Hno : no_update SHOP API_VERSION p t t1).
  { destruct Hfail as [H1 | (res & H1 & _)];
      apply (get_metafields_requests _ _ _ _ H1). }
  split; [|exact Hno].
  pose proof (plain_step_turn net SHOP API_VERSION TOKEN p updated t) as Hturn.
  destruct Hfail as [H1 | (res & H1 & Hj & ->)];
    inversion Hturn as [Htag' | e' t1' Htag' H1' | res' t1' Htag' H1' Hj'
                       | res' t1' data' x t3 Htag' H1' Hj' H3
                       | res' t1' data' e' t3 Htag' H1' Hj' H3];
    try congruence.
Qed.





(** The loop over a list in two parts. *)
Lemma barra_loop_app :
  forall before productIndex rest st t,
    UpdateProductsBarra.products_loop net SHOP API_VERSION TOKEN productIndex
      (before ++ rest) st t
    = bind (UpdateProductsBarra.products_loop net SHOP API_VERSION TOKEN
              productIndex before st)
        (fun st1 =>
           UpdateProductsBarra.products_loop net SHOP API_VERSION TOKEN
             (productIndex + N.of_nat (length before)) rest st1) t.
Proof.
  intros before. induction before as [|p before IH];
    intros productIndex rest st t.
  - unfold bind, ret. simpl. rewrite N.add_0_r. reflexivity.
  - change ((p :: before) ++ rest) with (p :: (before ++ rest)).
    cbn [UpdateProductsBarra.products_loop]. rewrite bind_assoc.
    apply bind_ext. intros st1 t1. rewrite IH.
    replace (productIndex + 1 + N.of_nat (length before))%N
      with (productIndex + N.of_nat (length (p :: before)))%N
      by (simpl length; lia).
    reflexivity.
Qed.

Lemma plain_loop_app :
  forall before rest updated t,
    UpdateProducts.products_loop net SHOP API_VERSION TOKEN (before ++ rest)
      updated t
    = bind (UpdateProducts.products_loop net SHOP API_VERSION TOKEN before
              updated)
        (fun updated1 =>
           UpdateProducts.products_loop net SHOP API_VERSION TOKEN rest
             updated1) t.
Proof.
  intros before. induction before as [|p before IH]; intros rest updated t.
  - reflexivity.
  - change ((p :: before) ++ rest) with (p :: (before ++ rest)).
    cbn [UpdateProducts.products_loop]. rewrite bind_assoc.
    apply bind_ext. intros updated1 t1. apply IH.
Qed.

(** A product the loop reaches, and whose metafields are there, is sent an
    update. *)
Lemma barra_loop_reaches before p after productIndex st t st1 t1 res t2 data :
  UpdateProductsBarra.products_loop net SHOP API_VERSION TOKEN productIndex
    before st t = (Ok st1, t1) ->
  truthy (Batch.tagMatch p) = true ->
  get_metafields net SHOP API_VERSION TOKEN p t1 = (Ok res, t2) ->
  json_body res = Some data ->
  update_sent SHOP API_VERSION TOKEN p
    (snd (UpdateProductsBarra.products_loop net SHOP API_VERSION TOKEN
            productIndex (before ++ p :: after) st t)).
Proof.
  intros Hbefore Htag H1 Hj.
  rewrite barra_loop_app, (bind_ok Hbefore).
  destruct (barra_turn_after_metafields
              (productIndex + N.of_nat (length before)) p st1 t1 res t2 data
              Htag H1 Hj)
    as (vst & t3 & st' & t' & _ & Hstep & _ & Hin & _ & _).
  cbn [UpdateProductsBarra.products_loop]. rewrite (bind_ok Hstep).
  destruct (UpdateProductsBarra.products_loop net SHOP API_VERSION TOKEN
              (productIndex + N.of_nat (length before) + 1) after st' t')
    as [r t''] eqn:Hrest.
  apply barra_loop_trace in Hrest. destruct Hrest as (Hg & _ & _).
  eapply update_sent_grows; [exact Hg|].
  unfold barra_payload in Hin. do 2 eexists.
  split; [exact Hin|]. split; reflexivity.
Qed.

Lemma plain_loop_reaches before p after updated t updated1 t1 res t2 data :
  UpdateProducts.products_loop net SHOP API_VERSION TOKEN before updated t
  = (Ok updated1, t1) ->
  truthy (Batch.tagMatch p) = true ->
  get_metafields net SHOP API_VERSION TOKEN p t1 = (Ok res, t2) ->
  json_body res = Some data ->
  update_sent SHOP API_VERSION TOKEN p
    (snd (UpdateProducts.products_loop net SHOP API_VERSION TOKEN
            (before ++ p :: after) updated t)).
Proof.
  intros Hbefore Htag H1 Hj.
  rewrite plain_loop_app, (bind_ok Hbefore).
  destruct (plain_turn_after_metafields p updated1 t1 res t2 data Htag H1 Hj)
    as (updated' & t' & Hstep & Hin & _ & _).
  cbn [UpdateProducts.products_loop]. rewrite (bind_ok Hstep).
  destruct (UpdateProducts.products_loop net SHOP API_VERSION TOKEN after
              updated' t') as [r t''] eqn:Hrest.
  apply plain_loop_trace in Hrest. destruct Hrest as (Hg & _ & _).
  eapply update_sent_grows; [exact Hg|].
  unfold plain_payload in Hin. do 2 eexists.
  split; [exact Hin|]. split; reflexivity.
Qed.

(** A failing metafields request ends the loop: the product gets no
    update, and the products after it no request at all. *)
Lemma barra_loop_metafields_fail before p after productIndex st t st1 t1 e t2 :
  UpdateProductsBarra.products_loop net SHOP API_VERSION TOKEN productIndex
    before st t = (Ok st1, t1) ->
  truthy (Batch.tagMatch p) = true ->
  metafields_fail net SHOP API_VERSION TOKEN p t1 e t2 ->
  UpdateProductsBarra.products_loop net SHOP API_VERSION TOKEN productIndex
    (before ++ p :: after) st t = (Throw e, t2)
  /\ no_update SHOP API_VERSION p t1 t2.
Proof.
  intros Hbefore Htag Hfail.
  destruct (barra_turn_metafields_fail
              (productIndex + N.of_nat (length before)) p st1 t1 e t2
              Htag Hfail) as [Hstep Hno].
  split; [|exact Hno].
  rewrite barra_loop_app, (bind_ok Hbefore).
  cbn [UpdateProductsBarra.products_loop]. apply bind_throw. exact Hstep.
Qed.

Lemma plain_loop_metafields_fail before p after updated t updated1 t1 e t2 :
  UpdateProducts.products_loop net SHOP API_VERSION TOKEN before updated t
  = (Ok updated1, t1) ->
  truthy (Batch.tagMatch p) = true ->
  metafields_fail net SHOP API_VERSION TOKEN p t1 e t2 ->
  UpdateProducts.products_loop net SHOP API_VERSION TOKEN
    (before ++ p :: after) updated t = (Throw e, t2)
  /\ no_update SHOP API_VERSION p t1 t2.
Proof.
  intros Hbefore Htag Hfail.
  destruct (plain_turn_metafields_fail p updated1 t1 e t2 Htag Hfail)
    as [Hstep Hno].
  split; [|exact Hno].
  rewrite plain_loop_app, (bind_ok Hbefore).
  cbn [UpdateProducts.products_loop]. apply bind_throw. exact Hstep.
Qed.

Lemma barra_loop_stopped before rest productIndex st t e t1 :
  UpdateProductsBarra.products_loop net SHOP API_VERSION TOKEN productIndex
    before st t = (Throw e, t1) ->
  UpdateProductsBarra.products_loop net SHOP API_VERSION TOKEN productIndex
    (before ++ rest) st t = (Throw e, t1).
Proof. intros H. rewrite barra_loop_app. apply bind_throw. exact H. Qed.

Lemma plain_loop_stopped before rest updated t e t1 :
  UpdateProducts.products_loop net SHOP API_VERSION TOKEN before updated t
  = (Throw e, t1) ->
  UpdateProducts.products_loop net SHOP API_VERSION TOKEN (before ++ rest)
    updated t = (Throw e, t1).
Proof. intros H. rewrite plain_loop_app. apply bind_throw. exact H. Qed.

End BatchTurns.

(** C7 (amended): in both batch scripts a product passes the filter
    exactly when one entry of its comma-separated [tags], trimmed and
    lowercased, is in the target list.  A product that does not pass is
    skipped without any request, and every request of the loop is for a
    product that passes.  A product that passes is sent an update when
    the loop reaches it and the request for its metafields is answered
    with JSON; so when the loop runs to its end, every product that
    passes was sent one.  When the request for its metafields fails, the
    loop ends there with the error and the product gets no update; and
    once the loop has ended with an error, the products after it, tagged
    or not, get no request. *)
Theorem batch_tag_filter :
  (forall product,
      truthy (Batch.tagMatch product) = true <-> has_target_tag product)
  /\ (forall net SHOP API_VERSION TOKEN,
         (forall productIndex product st t,
             truthy (Batch.tagMatch product) = false ->
             UpdateProductsBarra.product_step net SHOP API_VERSION TOKEN
               productIndex product st t = (Ok st, t))
         /\ (forall product updated t,
                truthy (Batch.tagMatch product) = false ->
                UpdateProducts.product_step net SHOP API_VERSION TOKEN
                  product updated t = (Ok updated, t))
         /\ (forall ps productIndex st t r t',
                UpdateProductsBarra.products_loop net SHOP API_VERSION TOKEN
                  productIndex ps st t = (r, t') ->
                only_tagged SHOP API_VERSION ps t t'
                /\ (forall st', r = Ok st' ->
                      all_tagged_updated SHOP API_VERSION TOKEN ps t'))
         /\ (forall ps updated t r t',
                UpdateProducts.products_loop net SHOP API_VERSION TOKEN
                  ps updated t = (r, t') ->
                only_tagged SHOP API_VERSION ps t t'
                /\ (forall updated', r = Ok updated' ->
                      all_tagged_updated SHOP API_VERSION TOKEN ps t'))
         /\ (forall before p after productIndex st t st1 t1,
                UpdateProductsBarra.products_loop net SHOP API_VERSION TOKEN
                  productIndex before st t = (Ok st1, t1) ->
                truthy (Batch.tagMatch p) = true ->
                (forall res t2 data,
                    get_metafields net SHOP API_VERSION TOKEN p t1
                    = (Ok res, t2) ->
                    json_body res = Some data ->
                    update_sent SHOP API_VERSION TOKEN p
                      (snd (UpdateProductsBarra.products_loop net SHOP
                              API_VERSION TOKEN productIndex
                              (before ++ p :: after) st t)))
                /\ (forall e t2,
                       metafields_fail net SHOP API_VERSION TOKEN p t1 e t2 ->
                       UpdateProductsBarra.products_loop net SHOP API_VERSION
                         TOKEN productIndex (before ++ p :: after) st t
                       = (Throw e, t2)
                       /\ no_update SHOP API_VERSION p t1 t2))
         /\ (forall before p after updated t updated1 t1,
                UpdateProducts.products_loop net SHOP API_VERSION TOKEN
                  before updated t = (Ok updated1, t1) ->
                truthy (Batch.tagMatch p) = true ->
                (forall res t2 data,
                    get_metafields net SHOP API_VERSION TOKEN p t1
                    = (Ok res, t2) ->
                    json_body res = Some data ->
                    update_sent SHOP API_VERSION TOKEN p
                      (snd (UpdateProducts.products_loop net SHOP API_VERSION
                              TOKEN (before ++ p :: after) updated t)))
                /\ (forall e t2,
                       metafields_fail net SHOP API_VERSION TOKEN p t1 e t2 ->
                       UpdateProducts.products_loop net SHOP API_VERSION
                         TOKEN (before ++ p :: after) updated t
                       = (Throw e, t2)
                       /\ no_update SHOP API_VERSION p t1 t2))
         /\ (forall before rest productIndex st t e t1,
                UpdateProductsBarra.products_loop net SHOP API_VERSION TOKEN
                  productIndex before st t = (Throw e, t1) ->
                UpdateProductsBarra.products_loop net SHOP API_VERSION TOKEN
                  productIndex (before ++ rest) st t = (Throw e, t1))
         /\ (forall before rest updated t e t1,
                UpdateProducts.products_loop net SHOP API_VERSION TOKEN
                  before updated t = (Throw e, t1) ->
                UpdateProducts.products_loop net SHOP API_VERSION TOKEN
                  (before ++ rest) updated t = (Throw e, t1))).
Proof.
  split; [exact tagMatch_truthy|].
  intros net SHOP API_VERSION TOKEN.
  split; [|split; [|split; [|split; [|split; [|split; [|split]]]]]].
  - intros. apply barra_step_skip. assumption.
  - intros product updated t H. unfold UpdateProducts.product_step.
    rewrite H. reflexivity.
  - intros ps productIndex st t r t' Hrun.
    apply barra_loop_trace in Hrun. tauto.
  - intros ps updated t r t' Hrun.
    apply plain_loop_trace in Hrun. tauto.
  - intros before p after productIndex st t st1 t1 Hbefore Htag. split.
    + intros res t2 data H1 Hj.
      exact (barra_loop_reaches net SHOP API_VERSION TOKEN before p after
               productIndex st t st1 t1 res t2 data Hbefore Htag H1 Hj).
    + intros e t2 Hfail.
      exact (barra_loop_metafields_fail net SHOP API_VERSION TOKEN before p
               after productIndex st t st1 t1 e t2 Hbefore Htag Hfail).
  - intros before p after updated t updated1 t1 Hbefore Htag. split.
    + intros res t2 data H1 Hj.
      exact (plain_loop_reaches net SHOP API_VERSION TOKEN before p after
               updated t updated1 t1 res t2 data Hbefore Htag H1 Hj).
    + intros e t2 Hfail.
      exact (plain_loop_metafields_fail net SHOP API_VERSION TOKEN before p
               after updated t updated1 t1 e t2 Hbefore Htag Hfail).
  - intros before rest productIndex st t e t1. apply barra_loop_stopped.
  - intros before rest updated t e t1. apply plain_loop_stopped.
Qed.

Lemma batch_tag_filter_witness :
  let net := shop_net [p1; p2; p3] (always 200) (always 200) in
  let run := UpdateProducts.products_loop net shop api token [p1; p2; p3] [] [] in
  truthy (Batch.tagMatch p2) = false
  /\ fst run = Ok [title p1; title p3]
  /\ only_tagged shop api [p1; p2; p3] [] (snd run)
  /\ all_tagged_updated shop api token [p1; p2; p3] (snd run).
Proof.
  intros net run.
  assert (Hrun : run = (Ok [title p1; title p3], snd run)).
  { rewrite (surjective_pairing run) at 1. f_equal. }
  split; [reflexivity|]. split; [reflexivity|].
  destruct (proj1 (proj2 (proj2 (proj2 (proj2 batch_tag_filter net shop api
                                           token))))
              [p1; p2; p3] [] [] _ _ Hrun) as [Honly Hall].
  split; [exact Honly | exact (Hall _ eq_refl)].
Defined.

(** C7 as stated fails when a request for metafields fails: the first
    product is answered 500, both loops end there with the error, and the
    second product, whose tag [Water-Slides] is in the list once it is
    lowercased, is never requested, let alone updated. *)
Lemma tagged_product_is_left_out_after_an_error :
  let net := shop_net [p1; p3] (fails_for 1) (always 200) in
  let stopped :=
    [EvFetch (Batch.metafields_url shop api p1) (metafields_options token)] in
  has_target_tag p3
  /\ UpdateProductsBarra.products_loop net shop api token 0 [p1; p3]
       (barra_initial [p1; p3]) []
     = (Throw (HttpError 500 []), stopped)
  /\ UpdateProducts.products_loop net shop api token [p1; p3] [] []
     = (Throw (HttpError 500 []), stopped)
  /\ (forall url options,
         In (EvFetch url options) stopped -> ~ request_for shop api p3 url).
Proof.
  intros net stopped. split; [apply tagMatch_truthy; reflexivity|].
  split; [reflexivity|]. split; [reflexivity|].
  intros url options [H | []]. inversion H; subst.
  intros [E | E]; vm_compute in E; discriminate E.
Qed.




(* ===================================================================== *)
(** ** The webhook handler                                                 *)
(* ===================================================================== *)

Section Handler.

Variable net : Network.
Variable hmac : str -> str -> str.
Variable JSON_parse : str -> option (option Product).
Variable env : Env.

Lemma handleProduct_status event t a t' :
  ProductCreated.handleProduct net JSON_parse env event t = (Ok a, t') ->
  ProductCreated.statusCode a = 400%Z \/ ProductCreated.statusCode a = 200%Z.
Proof.
  unfold ProductCreated.handleProduct.
  destruct (JSON_parse _) as [[product|]|]; [| |discriminate].
  - destruct (id product =? 0)%N.
    + intros H. inversion H; subst. left. reflexivity.
    + unfold bind at 1.
      destruct (ProductCreated.processNewProduct _ _ _ _ _ _) as [[x|e|] t1];
        intros H; inversion H; subst. right. reflexivity.
  - intros H. inversion H; subst. left. reflexivity.
Qed.

Lemma handler_unchecked_status event t a t' :
  handler_unchecked net JSON_parse env event t = (Ok a, t') ->
  ProductCreated.statusCode a <> 401%Z.
Proof.
  unfold handler_unchecked, try_catch.
  destruct (ProductCreated.handleProduct _ _ _ _ _) as [[x|e|] t1] eqn:E;
    intros H; inversion H; subst.
  - apply handleProduct_status in E. destruct E as [-> | ->]; discriminate.
  - discriminate.
Qed.

(** Without a secret or without the header, the handler goes straight to
    parsing and processing. *)
Lemma handler_skips_check event t :
  str_eqb (ProductCreated.httpMethod event) (lit "POST") = true ->
  truthy (SHOPIFY_WEBHOOK_SECRET env) = false
  \/ truthy (hmac_header event) = false ->
  ProductCreated.handler net hmac JSON_parse env event t
  = handler_unchecked net JSON_parse env event t.
Proof.
  intros Hpost Hmissing. unfold ProductCreated.handler. rewrite Hpost.
  cbn [negb]. fold (hmac_header event).
  replace (truthy (SHOPIFY_WEBHOOK_SECRET env) && truthy (hmac_header event))
    with false.
  - reflexivity.
  - destruct Hmissing as [-> | ->];
      [reflexivity | rewrite andb_false_r; reflexivity].
Qed.

(** With both, the handler compares the HMAC of the body with the header. *)
Lemma handler_checks event t secret h :
  str_eqb (ProductCreated.httpMethod event) (lit "POST") = true ->
  SHOPIFY_WEBHOOK_SECRET env = Some secret -> secret <> [] ->
  hmac_header event = Some h -> h <> [] ->
  ProductCreated.handler net hmac JSON_parse env event t
  = if str_eqb (hmac secret (ProductCreated.ev_body event)) h
    then handler_unchecked net JSON_parse env event t
    else (Ok {| ProductCreated.statusCode := 401;
                ProductCreated.answer := ProductCreated.NotAuthorized |},
          EvConsole LogNotAuthentic :: t).
Proof.
  intros Hpost Hs Hsne Hh Hhne. unfold ProductCreated.handler. rewrite Hpost.
  cbn [negb]. fold (hmac_header event). rewrite Hs, Hh.
  destruct secret as [|c secret]; [congruence|].
  destruct h as [|d h]; [congruence|].
  simpl truthy. cbn [andb]. unfold ProductCreated.verifyWebhook. rewrite Hs.
  simpl or_else. unfold handler_unchecked, try_catch, bind at 1, ret at 1.
  destruct (str_eqb (hmac (c :: secret) (ProductCreated.ev_body event))
              (d :: h)); reflexivity.
Qed.

Lemma handler_401_only_on_mismatch event t a t' :
  ProductCreated.handler net hmac JSON_parse env event t = (Ok a, t') ->
  ProductCreated.statusCode a = 401%Z ->
  str_eqb (ProductCreated.httpMethod event) (lit "POST") = true
  /\ signature_mismatch hmac env event.
Proof.
  intros Hrun H401.
  destruct (str_eqb (ProductCreated.httpMethod event) (lit "POST")) eqn:Hpost.
  2:{ unfold ProductCreated.handler in Hrun. rewrite Hpost in Hrun.
      inversion Hrun; subst. discriminate H401. }
  split; [reflexivity|].
  destruct (SHOPIFY_WEBHOOK_SECRET env) as [[|c secret]|] eqn:Hs;
    try (rewrite handler_skips_check in Hrun by (auto; left; rewrite Hs; reflexivity);
         apply handler_unchecked_status in Hrun; contradiction).
  destruct (hmac_header event) as [[|d h]|] eqn:Hh;
    try (rewrite handler_skips_check in Hrun by (auto; right; rewrite Hh; reflexivity);
         apply handler_unchecked_status in Hrun; contradiction).
  rewrite (handler_checks event t (c :: secret) (d :: h)) in Hrun
    by (auto; discriminate).
  destruct (str_eqb _ _) eqn:Heq.
  - apply handler_unchecked_status in Hrun. contradiction.
  - exists (c :: secret), (d :: h).
    split; [exact Hs|]. split; [discriminate|].
    split; [exact Hh|]. split; [discriminate|].
    apply str_eqb_neq. exact Heq.
Qed.

End Handler.

(** C10: for a POST request the handler checks the signature only when
    the secret is configured and the [x-shopify-hmac-sha256] header is
    present: when either is missing the body is parsed and the product
    processed as if there were no check, whatever the HMAC function; when
    both are there the HMAC of the body is compared with the header and a
    mismatch is answered 401; and an answer 401 is given in no other
    case. *)
Theorem handler_signature_check :
  forall net hmac JSON_parse env event t,
    (str_eqb (ProductCreated.httpMethod event) (lit "POST") = true ->
     truthy (SHOPIFY_WEBHOOK_SECRET env) = false
     \/ truthy (hmac_header event) = false ->
     ProductCreated.handler net hmac JSON_parse env event t
     = handler_unchecked net JSON_parse env event t
     /\ forall a t',
          ProductCreated.handler net hmac JSON_parse env event t = (Ok a, t') ->
          ProductCreated.statusCode a <> 401%Z)
    /\ (str_eqb (ProductCreated.httpMethod event) (lit "POST") = true ->
        signature_mismatch hmac env event ->
        ProductCreated.handler net hmac JSON_parse env event t
        = (Ok {| ProductCreated.statusCode := 401;
                 ProductCreated.answer := ProductCreated.NotAuthorized |},
           EvConsole LogNotAuthentic :: t))
    /\ (forall a t',
           ProductCreated.handler net hmac JSON_parse env event t = (Ok a, t') ->
           ProductCreated.statusCode a = 401%Z ->
           str_eqb (ProductCreated.httpMethod event) (lit "POST") = true
           /\ signature_mismatch hmac env event).
Proof.
  intros net hmac JSON_parse env event t. split; [|split].
  - intros Hpost Hmissing.
    rewrite (handler_skips_check net hmac JSON_parse env event t Hpost Hmissing).
    split; [reflexivity|]. intros a t'. apply handler_unchecked_status.
  - intros Hpost (secret & h & Hs & Hsne & Hh & Hhne & Hneq).
    rewrite (handler_checks net hmac JSON_parse env event t secret h)
      by assumption.
    apply str_eqb_neq in Hneq. rewrite Hneq. reflexivity.
  - apply handler_401_only_on_mismatch.
Qed.

Lemma handler_signature_check_witness :
  let net := shop_net [p_described] (always 200) (always 200) in
  let forged := post_event [] in
  let wrong := post_event [(lit "x-shopify-hmac-sha256", lit "bad")] in
  str_eqb (ProductCreated.httpMethod forged) (lit "POST") = true
  /\ truthy (hmac_header forged) = false
  /\ ProductCreated.handler net sample_hmac parse_described env_with_secret
       forged []
     = (Ok {| ProductCreated.statusCode := 200;
              ProductCreated.answer :=
                ProductCreated.Processed true false 5 (title p_described) 0
                  false false |}, [])
  /\ signature_mismatch sample_hmac env_with_secret wrong
  /\ ProductCreated.handler net sample_hmac parse_described env_with_secret
       wrong []
     = (Ok {| ProductCreated.statusCode := 401;
              ProductCreated.answer := ProductCreated.NotAuthorized |},
        [EvConsole LogNotAuthentic]).
Proof.
  intros net forged wrong.
  assert (Hmis : signature_mismatch sample_hmac env_with_secret wrong).
  { exists (lit "secret"), (lit "bad").
    repeat split; try reflexivity; discriminate. }
  split; [reflexivity|]. split; [reflexivity|]. split; [|split].
  - rewrite (proj1 (proj1 (handler_signature_check net sample_hmac
                             parse_described env_with_secret forged [])
                      eq_refl (or_intror eq_refl))).
    reflexivity.
  - exact Hmis.
  - exact (proj1 (proj2 (handler_signature_check net sample_hmac
                           parse_described env_with_secret wrong []))
             eq_refl Hmis).
Defined.

(* ===================================================================== *)
(** ** Uniqueness of the barcodes                                          *)
(* ===================================================================== *)

Lemma Set_has_In (s : StrSet) (x : str) : Set_has s x = true <-> In x s.
Proof. apply includes_In. Qed.

Lemma Set_has_not_In (s : StrSet) (x : str) : Set_has s x = false <-> ~ In x s.
Proof.
  rewrite <- Set_has_In. destruct (Set_has s x); split; congruence.
Qed.

Lemma Set_add_In (s : StrSet) (x y : str) :
  In y (Set_add s x) <-> In y s \/ y = x.
Proof.
  unfold Set_add. destruct (Set_has s x) eqn:E.
  - apply Set_has_In in E. split; [auto | intros [H | ->]; assumption].
  - rewrite in_app_iff. simpl. split; intros [H | H]; auto.
    + destruct H as [<- | []]. auto.
Qed.

(** When the [do ... while] loop leaves with fewer than [maxAttempts]
    attempts, the barcode it found is not in the set. *)
Lemma doWhile_fresh productId base existingBarcodes :
  forall fuel attempts b a,
    (UpdateProductsBarra.maxAttempts <= N.of_nat fuel + attempts)%N ->
    UpdateProductsBarra.doWhile fuel productId base attempts existingBarcodes
    = (b, a) ->
    (a < UpdateProductsBarra.maxAttempts)%N ->
    Set_has existingBarcodes b = false.
Proof.
  induction fuel as [|fuel IH]; intros attempts b a Hfuel Hrun Ha;
    simpl in Hrun;
    destruct (Set_has existingBarcodes
                (Barcode.generateUniqueBarcode productId (base + attempts)))
      eqn:Hhas;
    destruct (attempts + 1 <? UpdateProductsBarra.maxAttempts)%N eqn:Hlt;
    cbn [andb] in Hrun;
    try (inversion Hrun; subst; clear Hrun;
         first [ exact Hhas
               | apply N.ltb_ge in Hlt; lia
               | apply N.ltb_lt in Hlt; simpl in Hfuel; lia ]).
  rewrite Nat2N.inj_succ in Hfuel.
  apply (IH (attempts + 1)%N b a); [lia | exact Hrun | exact Ha].
Qed.

(** The loop over the variants only adds barcodes that are new, and
    records them in the set. *)
Lemma variants_loop_fresh product productIndex :
  forall vs variantIndex st t st' t',
    UpdateProductsBarra.variants_loop product productIndex variantIndex vs st t
    = (Ok st', t') ->
    exists new,
      UpdateProductsBarra.vs_updatedVariants st'
      = UpdateProductsBarra.vs_updatedVariants st ++ new
      /\ NoDup (map uv_barcode new)
      /\ (forall b, In b (map uv_barcode new) ->
                    ~ In b (UpdateProductsBarra.vs_existingBarcodes st))
      /\ (forall b, In b (UpdateProductsBarra.vs_existingBarcodes st') <->
                    In b (UpdateProductsBarra.vs_existingBarcodes st)
                    \/ In b (map uv_barcode new)).
Proof.
  induction vs as [|variant rest IH]; intros variantIndex st t st' t' Hrun;
    simpl in Hrun.
  - inversion Hrun; subst. exists []. rewrite app_nil_r.
    repeat split; try constructor; simpl; tauto.
  - destruct (variant_step_total product productIndex variantIndex variant st t)
      as (st1 & t1 & H1).
    rewrite (bind_ok H1) in Hrun.
    destruct (IH _ _ _ _ _ Hrun) as (new & Hnew & Hnd & Hfresh & Hset).
    unfold UpdateProductsBarra.variant_step in H1.
    destruct (negb (truthy (barcode variant))).
    2:{ inversion H1; subst. exists new. auto. }
    destruct (UpdateProductsBarra.doWhile _ _ _ _ _) as [b a] eqn:Hdo.
    destruct (UpdateProductsBarra.maxAttempts <=? a)%N eqn:Hmax.
    { inversion H1; subst. exists new. auto. }
    apply N.leb_gt in Hmax.
    apply doWhile_fresh in Hdo; [|vm_compute; discriminate|exact Hmax].
    apply Set_has_not_In in Hdo.
    inversion H1; subst; clear H1. simpl in *.
    exists ({| uv_id := variant_id variant; uv_barcode := b |} :: new).
    split; [rewrite Hnew, <- app_assoc; reflexivity|].
    split; [|split].
    + simpl. constructor; [|exact Hnd].
      intros Hin. apply (Hfresh b Hin). apply Set_add_In. right. reflexivity.
    + simpl. intros b' [<- | Hin]; [exact Hdo|].
      intros Hold. apply (Hfresh b' Hin). apply Set_add_In. left. exact Hold.
    + intros b'. rewrite Hset, Set_add_In. simpl. intuition.
Qed.

(** The set computed by [getExistingBarcodes] holds the barcodes of the
    catalog. *)
Lemma getExistingBarcodes_present (ps : list Product) (b : str) :
  In b (UpdateProductsBarra.getExistingBarcodes ps) <-> present_barcode ps b.
Proof.
  unfold UpdateProductsBarra.getExistingBarcodes, present_barcode.
  set (inner := fun existingBarcodes variant =>
                  if truthy (barcode variant)
                  then Set_add existingBarcodes (or_else (barcode variant) [])
                  else existingBarcodes).
  assert (Hinner : forall vs acc,
             In b (fold_left inner vs acc) <->
             In b acc \/ exists v, In v vs /\ barcode v = Some b /\ b <> []).
  { induction vs as [|v vs IH]; intros acc; simpl.
    - split; [auto | intros [H | (v & [] & _)]; exact H].
    - rewrite IH. unfold inner.
      destruct (barcode v) as [[|c s]|] eqn:Hb; simpl.
      + split; [intros [H | (w & Hw & Hrest)]; eauto
               | intros [H | (w & [<- | Hw] & Hwb & Hne)]; eauto].
        rewrite Hb in Hwb. inversion Hwb; subst. congruence.
      + rewrite Set_add_In.
        split.
        * intros [[H | ->] | (w & Hw & Hrest)]; eauto.
          right. exists v. repeat split; auto. discriminate.
        * intros [H | (w & [<- | Hw] & Hwb & Hne)]; eauto.
          rewrite Hb in Hwb. inversion Hwb; subst. auto.
      + split; [intros [H | (w & Hw & Hrest)]; eauto
               | intros [H | (w & [<- | Hw] & Hwb & Hne)]; eauto].
        rewrite Hb in Hwb. discriminate. }
  assert (Houter : forall qs acc,
             In b (fold_left
                     (fun existingBarcodes product =>
                        fold_left inner (variants product) existingBarcodes)
                     qs acc) <->
             In b acc
             \/ exists p v, In p qs /\ In v (variants p)
                            /\ barcode v = Some b /\ b <> []).
  { induction qs as [|q qs IH]; intros acc; simpl.
    - split; [auto | intros [H | (p & v & [] & _)]; exact H].
    - rewrite IH, Hinner. split.
      + intros [[H | (v & Hv & Hrest)] | (p & v & Hp & Hrest)]; eauto 8.
      + intros [H | (p & v & [<- | Hp] & Hrest)]; eauto 8. }
  rewrite Houter. simpl. tauto.
Qed.

Section BarraRun.

Variable net : Network.
Variables SHOP API_VERSION TOKEN : str.

Ltac next_turn :=
  match goal with
  | Hnext : forall st1 t1, exists others, _,
    E : _ = (Ok ?s, ?tt) |- _ =>
      destruct (Hnext s tt) as (others & Hothers)
  end.

(** Every run of the loop is described by [barra_run]. *)
Lemma barra_run_total :
  forall ps productIndex st t,
    exists assigned,
      barra_run net SHOP API_VERSION TOKEN productIndex ps st t assigned.
Proof.
  intros ps. induction ps as [|p rest IH]; intros productIndex st t.
  - exists []. constructor.
  - assert (Hnext : forall st1 t1,
               exists others,
                 barra_run net SHOP API_VERSION TOKEN (productIndex + 1) rest
                   st1 t1 others) by (intros; apply IH).
    pose proof (barra_step_turn net SHOP API_VERSION TOKEN productIndex p st t)
      as Hturn.
    destruct (UpdateProductsBarra.product_step _ _ _ _ _ _ _ _) as [r1 t1] eqn:E.
    inversion Hturn as [Htag | e t1' Htag H1 | res t1' Htag H1 Hj
                       | res t1' data vst t2 x t3 Htag H1 Hj H2 H3
                       | res t1' data vst t2 e t3 Htag H1 Hj H2 H3]; subst.
    + next_turn. exists ([] ++ others).
      eapply barra_run_turn; [constructor; exact Htag | exact E | exact Hothers].
    + exists []. eapply barra_run_thrown. exact E.
    + exists []. eapply barra_run_thrown. exact E.
    + next_turn. exists (UpdateProductsBarra.vs_updatedVariants vst ++ others).
      eapply barra_run_turn; [|exact E | exact Hothers].
      eapply assigns_generated; eassumption.
    + next_turn. exists (UpdateProductsBarra.vs_updatedVariants vst ++ others).
      eapply barra_run_turn; [|exact E | exact Hothers].
      eapply assigns_generated; eassumption.
Qed.

(** The barcodes of a turn are new, distinct, and recorded in the set. *)
Lemma turn_assigns_fresh productIndex p st t mine st1 t1 :
  turn_assigns net SHOP API_VERSION TOKEN productIndex p st t mine ->
  UpdateProductsBarra.product_step net SHOP API_VERSION TOKEN productIndex
    p st t = (Ok st1, t1) ->
  NoDup (map uv_barcode mine)
  /\ (forall b, In b (map uv_barcode mine) ->
                ~ In b (UpdateProductsBarra.existingBarcodes st))
  /\ (forall b, In b (UpdateProductsBarra.existingBarcodes st1) <->
                In b (UpdateProductsBarra.existingBarcodes st)
                \/ In b (map uv_barcode mine)).
Proof.
  intros Hassigns Hstep.
  destruct Hassigns as [Htag | res t1' data vst t2 Htag H1 Hj H2].
  - rewrite barra_step_skip in Hstep by assumption.
    inversion Hstep; subst. simpl.
    repeat split; try constructor; tauto.
  - destruct (variants_loop_fresh _ _ _ _ _ _ _ _ H2)
      as (new & Hnew & Hnd & Hfresh & Hset).
    simpl in Hnew. rewrite Hnew.
    assert (Hst1 : UpdateProductsBarra.existingBarcodes st1
                   = UpdateProductsBarra.vs_existingBarcodes vst).
    { destruct (batch_shopifyFetch_total net
                  (Batch.product_url SHOP API_VERSION (id p))
                  (put_options TOKEN
                     (barra_payload (or_else (Batch.tagMatch p) []) p data vst))
                  Batch.default_retries t2)
        as (t3 & [(x & H3) | (e & H3)]).
      - rewrite (barra_step_updated _ _ _ _ _ _ _ _ _ _ _ _ _ _ _
                   Htag H1 Hj H2 H3) in Hstep.
        inversion Hstep; subst. reflexivity.
      - rewrite (barra_step_update_failed _ _ _ _ _ _ _ _ _ _ _ _ _ _ _
                   Htag H1 Hj H2 H3) in Hstep.
        inversion Hstep; subst. reflexivity. }
    rewrite Hst1. auto.
Qed.

(** The barcodes generated in a run are pairwise distinct and none of
    them was in the set the run started with. *)
Lemma barra_run_fresh productIndex ps st t assigned :
  barra_run net SHOP API_VERSION TOKEN productIndex ps st t assigned ->
  NoDup (map uv_barcode assigned)
  /\ (forall b, In b (map uv_barcode assigned) ->
                ~ In b (UpdateProductsBarra.existingBarcodes st)).
Proof.
  induction 1 as [productIndex st t
                 |productIndex p rest st t mine st1 t1 others Hmine Hstep _ IH
                 |productIndex p rest st t e t1 Hstep].
  - split; [constructor | intros b []].
  - destruct IH as [Hnd Hfresh].
    destruct (turn_assigns_fresh _ _ _ _ _ _ _ Hmine Hstep)
      as (Hnd1 & Hfresh1 & Hset1).
    rewrite map_app. split.
    + apply NoDup_app; try assumption.
      intros b Hb Hb'. apply (Hfresh b Hb'). apply Hset1. right. exact Hb.
    + intros b Hb. apply in_app_or in Hb. destruct Hb as [Hb | Hb].
      * apply Hfresh1. exact Hb.
      * intros Hold. apply (Hfresh b Hb). apply Hset1. left. exact Hold.
  - split; [constructor | intros b []].
Qed.

(** The batch script does keep its barcodes unique: what a run generates
    is pairwise distinct and differs from every barcode of the catalog. *)
Lemma batch_barcodes_unique ps t :
  exists assigned,
    barra_run net SHOP API_VERSION TOKEN 0 ps (barra_initial ps) t assigned
    /\ NoDup (map uv_barcode assigned)
    /\ (forall u, In u assigned -> ~ present_barcode ps (uv_barcode u)).
Proof.
  destruct (barra_run_total ps 0%N (barra_initial ps) t) as (assigned & Hrun).
  exists assigned. split; [exact Hrun|].
  destruct (barra_run_fresh _ _ _ _ _ Hrun) as [Hnd Hfresh].
  split; [exact Hnd|].
  intros u Hu Hpresent. apply (Hfresh (uv_barcode u)).
  - apply in_map. exact Hu.
  - apply getExistingBarcodes_present. exact Hpresent.
Qed.

End BarraRun.

(** C3 (the code departs from the claim): in the webhook path nothing
    compares a generated barcode with the barcodes that exist.  For a
    product with id 1 whose first variant already carries 2000000010014
    and whose second variant has no barcode, [processNewProduct] sends an
    update that gives the second variant the same 2000000010014; so does
    a later delivery for the product with id 1000001.  The batch script,
    run on the first product, finds the code in its set and gives
    2000000010021 instead. *)
Theorem webhook_assigns_barcode_in_use :
  let net := shop_net [p_clash] (always 200) (always 200) in
  map barcode (variants p_clash) = [Some (lit "2000000010014"); None]
  /\ ProductCreated.newVariants 1000001 0
       [{| variant_id := 20; barcode := None |};
        {| variant_id := 21; barcode := None |}]
     = [{| uv_id := 20; uv_barcode := lit "2000000010007" |};
        {| uv_id := 21; uv_barcode := lit "2000000010014" |}]
  /\ snd (ProductCreated.processNewProduct net shop api token p_clash [])
     = [EvFetch (Batch.product_url shop api 1)
          (put_options token
             (PayloadProduct
                {| pp_id := 1; pp_body_html := None;
                   pp_variants :=
                     Some [{| uv_id := 11;
                              uv_barcode := lit "2000000010014" |}] |}))]
  /\ option_map UpdateProductsBarra.vs_updatedVariants
       (match fst (UpdateProductsBarra.variants_loop p_clash 0 0
                     (variants p_clash)
                     (variants_start (barra_initial [p_clash])) []) with
        | Ok vst => Some vst
        | _ => None
        end)
     = Some [{| uv_id := 11; uv_barcode := lit "2000000010021" |}].
Proof. vm_compute. repeat split; reflexivity. Qed.

(* ===================================================================== *)
(** ** More on the generator: shape, length and collisions                 *)
(* ===================================================================== *)

Lemma value_of_snoc (s : str) (c : ascii) :
  value_of (s ++ [c]) = (10 * value_of s + (N_of_ascii c - 48))%N.
Proof. unfold value_of. rewrite fold_left_app. reflexivity. Qed.

Lemma digit_char_value (d : N) :
  (d < 10)%N -> (N_of_ascii (digit_char d) - 48 = d)%N.
Proof. intros H. each_digit H; reflexivity. Qed.

(** Reading back the rendering of a number gives the number. *)
Lemma value_of_String_of_N (n : N) : value_of (String_of_N n) = n.
Proof.
  induction n as [n IH] using (well_founded_induction N.lt_wf_0).
  rewrite String_of_N_step, value_of_snoc.
  rewrite digit_char_value by (apply N.mod_lt; discriminate).
  destruct (n / 10 =? 0)%N eqn:Hq.
  - apply N.eqb_eq in Hq. simpl.
    rewrite (N.div_mod n 10) at 2 by discriminate. rewrite Hq. lia.
  - apply N.eqb_neq in Hq.
    rewrite IH.
    + rewrite (N.div_mod n 10) at 3 by discriminate. lia.
    + apply N.div_lt; [|reflexivity].
      destruct n; [exfalso; apply Hq; reflexivity | reflexivity].
Qed.

Lemma value_of_zeros (k : nat) (s : str) :
  value_of (repeat "0"%char k ++ s) = value_of s.
Proof.
  unfold value_of. rewrite fold_left_app. f_equal.
  induction k as [|k IH]; [reflexivity|].
  simpl. exact IH.
Qed.

(** Padding with zeros does not change the number. *)
Lemma value_of_padStart (k : nat) (n : N) :
  value_of (padStart k "0"%char (String_of_N n)) = n.
Proof. unfold padStart. rewrite value_of_zeros. apply value_of_String_of_N. Qed.

Lemma value_of_fixed_digits (k : nat) :
  forall n, value_of (fixed_digits k n) = (n mod 10 ^ N.of_nat k)%N.
Proof.
  induction k as [|k IH]; intros n.
  - simpl. rewrite N.mod_1_r. reflexivity.
  - cbn [fixed_digits]. rewrite value_of_snoc, IH.
    rewrite digit_char_value by (apply N.mod_lt; discriminate).
    rewrite Nat2N.inj_succ, N.pow_succ_r', N.Div0.mod_mul_r. lia.
Qed.

(** The rendering of a number is a non-empty string of digits. *)
Lemma String_of_N_digits (n : N) :
  exists ds, String_of_N n = map digit_char ds
             /\ Forall (fun d => (d < 10)%N) ds /\ ds <> [].
Proof.
  induction n as [n IH] using (well_founded_induction N.lt_wf_0).
  rewrite String_of_N_step.
  assert (Hd : (n mod 10 < 10)%N) by (apply N.mod_lt; discriminate).
  destruct (n / 10 =? 0)%N eqn:Hq.
  - exists [(n mod 10)%N]. repeat split; [repeat constructor; exact Hd|].
    discriminate.
  - apply N.eqb_neq in Hq.
    destruct (IH (n / 10)%N) as (ds & -> & HF & Hne).
    { apply N.div_lt; [|reflexivity].
      destruct n; [exfalso; apply Hq; reflexivity | reflexivity]. }
    exists (ds ++ [(n mod 10)%N]). rewrite map_app. split; [reflexivity|].
    split; [apply Forall_app; split; [exact HF | repeat constructor; exact Hd]|].
    destruct ds; discriminate.
Qed.

Lemma padStart_digits (k : nat) (ds : list N) :
  padStart k "0"%char (map digit_char ds)
  = map digit_char (repeat 0%N (k - length ds) ++ ds).
Proof.
  unfold padStart. rewrite length_map, map_app. f_equal.
  induction (k - length ds) as [|m IH]; [reflexivity|].
  simpl. rewrite <- IH. reflexivity.
Qed.

(** The length of the rendering is at most three exactly below 1000. *)
Lemma String_of_N_length_3 (n : N) :
  length (String_of_N n) <= 3 <-> (n < 1000)%N.
Proof.
  split.
  - intros Hlen. destruct (N.lt_ge_cases n 1000) as [H | H]; [exact H|].
    exfalso.
    assert (H1 : (n / 10 <> 0)%N).
    { intros E. apply N.div_small_iff in E; [lia | discriminate]. }
    assert (H2 : (n / 10 / 10 <> 0)%N).
    { rewrite N.Div0.div_div. intros E.
      apply N.div_small_iff in E; [lia | discriminate]. }
    assert (H3 : (n / 10 / 10 / 10 <> 0)%N).
    { rewrite !N.Div0.div_div. intros E.
      apply N.div_small_iff in E; [simpl in E; lia | discriminate]. }
    rewrite (String_of_N_step n) in Hlen.
    apply N.eqb_neq in H1. rewrite H1 in Hlen.
    rewrite (String_of_N_step (n / 10)) in Hlen.
    apply N.eqb_neq in H2. rewrite H2 in Hlen.
    rewrite (String_of_N_step (n / 10 / 10)) in Hlen.
    apply N.eqb_neq in H3. rewrite H3 in Hlen.
    destruct (String_of_N_digits (n / 10 / 10 / 10)) as (ds & E & _ & Hne).
    rewrite E in Hlen. rewrite !length_app, length_map in Hlen. simpl in Hlen.
    destruct ds; [congruence | simpl in Hlen; lia].
  - intros Hn. pose proof (padStart3_digits n Hn) as Hp.
    apply (f_equal (@length ascii)) in Hp.
    rewrite fixed_digits_length in Hp. unfold padStart in Hp.
    rewrite length_app, repeat_length in Hp. lia.
Qed.

Lemma app_eq_same_length {A} (a a' b b' : list A) :
  length a = length a' -> a ++ b = a' ++ b' -> a = a' /\ b = b'.
Proof.
  revert a'. induction a as [|x a IH]; intros [|x' a'] Hlen Heq;
    try discriminate Hlen.
  - split; [reflexivity | exact Heq].
  - simpl in Heq. inversion Heq; subst.
    destruct (IH a' ltac:(simpl in Hlen; lia) ltac:(assumption)) as [-> ->].
    split; reflexivity.
Qed.

(** The code before the check digit is a string of at least twelve
    digits. *)
Lemma baseCode_digits (productId index : N) :
  exists L,
    Barcode.baseCode productId index = map digit_char L
    /\ Forall (fun d => (d < 10)%N) L
    /\ length L = 9 + Nat.max 3 (length (String_of_N index)).
Proof.
  rewrite baseCode_id.
  destruct (fixed_digits_spec 6 productId) as (a & -> & Ha & HaF).
  destruct (String_of_N_digits index) as (ds & -> & HdF & _).
  rewrite padStart_digits, length_map.
  change (lit "200") with (map digit_char [2; 0; 0]%N).
  rewrite <- !map_app.
  exists ([2; 0; 0]%N ++ a ++ repeat 0%N (3 - length ds) ++ ds).
  split; [reflexivity|]. split.
  - repeat (apply Forall_app; split); try assumption.
    + repeat constructor.
    + apply Forall_forall. intros x Hx. apply repeat_spec in Hx. subst.
      reflexivity.
  - rewrite !length_app, Ha, repeat_length.
    change (length [2; 0; 0]%N) with 3. lia.
Qed.

(** The result is the code followed by one digit. *)
Lemma generateUniqueBarcode_digits (productId index : N) :
  exists L c,
    Barcode.baseCode productId index = map digit_char L
    /\ Forall (fun d => (d < 10)%N) L
    /\ length L = 9 + Nat.max 3 (length (String_of_N index))
    /\ (c < 10)%N
    /\ Barcode.generateUniqueBarcode productId index
       = map digit_char (L ++ [c]).
Proof.
  destruct (baseCode_digits productId index) as (L & HL & HF & Hlen).
  assert (Hlen12 : length (firstn 12 L) = 12)
    by (rewrite length_firstn; lia).
  assert (HF12 : Forall (fun d => (d < 10)%N) (firstn 12 L)).
  { pose proof HF as HF'. rewrite <- (firstn_skipn 12 L) in HF'.
    apply Forall_app in HF'. exact (proj1 HF'). }
  assert (Hws : Barcode.weighted_sum (map digit_char L)
                = Some (dot ean13_weights (map Z.of_N (firstn 12 L)))).
  { rewrite <- (firstn_skipn 12 L) at 1.
    apply weighted_sum_digits; assumption. }
  assert (Hnn : (0 <= dot ean13_weights (map Z.of_N (firstn 12 L)))%Z).
  { apply dot_nonneg; [repeat constructor; lia|].
    apply Forall_map. eapply Forall_impl; [|exact HF12]. intros; simpl; lia. }
  set (c := ((10 - dot ean13_weights (map Z.of_N (firstn 12 L)) mod 10)
             mod 10)%Z).
  assert (Hc : (0 <= c < 10)%Z) by (apply Z.mod_pos_bound; lia).
  exists L, (Z.to_N c). repeat split; try assumption; [lia|].
  unfold Barcode.generateUniqueBarcode. rewrite HL, Hws.
  rewrite checkDigit_ean13 by assumption. fold c.
  rewrite map_app. f_equal. unfold String_of_num.
  destruct c; simpl; try lia; [reflexivity | apply String_of_N_digit; lia].
Qed.

Lemma baseCode_injective (id1 id2 i j : N) :
  Barcode.baseCode id1 i = Barcode.baseCode id2 j ->
  i = j /\ (id1 mod 1000000 = id2 mod 1000000)%N.
Proof.
  rewrite !baseCode_id. intros Heq. apply app_inv_head in Heq.
  apply app_eq_same_length in Heq; [|rewrite !fixed_digits_length; reflexivity].
  destruct Heq as [H6 H3]. split.
  - apply (f_equal value_of) in H3. rewrite !value_of_padStart in H3. exact H3.
  - apply (f_equal value_of) in H6. rewrite !value_of_fixed_digits in H6.
    exact H6.
Qed.

Lemma generateUniqueBarcode_injective (id1 id2 i j : N) :
  Barcode.generateUniqueBarcode id1 i = Barcode.generateUniqueBarcode id2 j ->
  i = j /\ (id1 mod 1000000 = id2 mod 1000000)%N.
Proof.
  intros Heq. apply baseCode_injective.
  destruct (generateUniqueBarcode_digits id1 i) as (L1 & c1 & H1 & _ & _ & _ & G1).
  destruct (generateUniqueBarcode_digits id2 j) as (L2 & c2 & H2 & _ & _ & _ & G2).
  rewrite G1, G2, !map_app in Heq. simpl in Heq.
  apply app_inj_tail in Heq. destruct Heq as [Heq _].
  rewrite H1, H2. exact Heq.
Qed.

(** Every barcode of the webhook path is the generator's result for an
    index not below the starting one. *)
Lemma newVariants_barcodes productId :
  forall vs index u,
    In u (ProductCreated.newVariants productId index vs) ->
    exists k, (index <= k)%N
              /\ uv_barcode u = Barcode.generateUniqueBarcode productId k.
Proof.
  induction vs as [|variant rest IH]; intros index u Hu; simpl in Hu;
    [destruct Hu|].
  apply in_app_or in Hu. destruct Hu as [Hu | Hu].
  - destruct (negb (truthy (barcode variant))); [|destruct Hu].
    destruct Hu as [<- | []]. exists index. split; [lia | reflexivity].
  - destruct (IH _ _ Hu) as (k & Hk & Hb). exists k. split; [lia | exact Hb].
Qed.

Lemma newVariants_NoDup productId :
  forall vs index,
    NoDup (map uv_barcode (ProductCreated.newVariants productId index vs)).
Proof.
  induction vs as [|variant rest IH]; intros index; simpl; [constructor|].
  rewrite map_app. apply NoDup_app; [| apply IH |].
  - destruct (negb (truthy (barcode variant))); simpl; repeat constructor.
    intros [].
  - intros b Hb Hrest.
    destruct (negb (truthy (barcode variant))); [|destruct Hb].
    destruct Hb as [<- | []]. simpl in Hrest.
    apply in_map_iff in Hrest. destruct Hrest as (u & Hub & Hu).
    destruct (newVariants_barcodes _ _ _ _ Hu) as (k & Hk & Hbk).
    rewrite Hbk in Hub. unfold ProductCreated.generateUniqueBarcode in Hub.
    apply generateUniqueBarcode_injective in Hub. lia.
Qed.

(** X1: for every product id and every index below 1000 the result is a
    string of exactly 13 decimal digits whose last digit is the EAN-13
    check digit of the first twelve. *)
Theorem generateUniqueBarcode_valid_below_1000 (productId index : N) :
  (index < 1000)%N ->
  is_ean13 (Barcode.generateUniqueBarcode productId index) = true.
Proof. apply generateUniqueBarcode_ean13. Qed.

Lemma generateUniqueBarcode_valid_below_1000_witness :
  (999 < 1000)%N
  /\ is_ean13 (Barcode.generateUniqueBarcode 7890123456789 999) = true.
Proof.
  split; [reflexivity|].
  apply generateUniqueBarcode_valid_below_1000. reflexivity.
Defined.

(** X2: two calls return the same barcode only when their indices are
    equal and their product ids agree in the last six decimal digits. *)
Theorem generateUniqueBarcode_collisions (id1 id2 i j : N) :
  Barcode.generateUniqueBarcode id1 i = Barcode.generateUniqueBarcode id2 j ->
  i = j /\ (id1 mod 1000000 = id2 mod 1000000)%N.
Proof. apply generateUniqueBarcode_injective. Qed.

Lemma generateUniqueBarcode_collisions_witness :
  Barcode.generateUniqueBarcode 1 5 = Barcode.generateUniqueBarcode 1000001 5
  /\ 5%N = 5%N /\ (1 mod 1000000 = 1000001 mod 1000000)%N.
Proof.
  split; [reflexivity|].
  apply (generateUniqueBarcode_collisions 1 1000001 5 5). reflexivity.
Defined.

(** X3: the result is always a string of decimal digits that starts with
    200; it has 10 characters more than the rendering of the index padded
    to three, so it has 13 characters exactly when the index is below
    1000. *)
Theorem generateUniqueBarcode_length (productId index : N) :
  forallb is_digit (Barcode.generateUniqueBarcode productId index) = true
  /\ starts_with (lit "200") (Barcode.generateUniqueBarcode productId index)
     = true
  /\ length (Barcode.generateUniqueBarcode productId index)
     = 10 + Nat.max 3 (length (String_of_N index))
  /\ (length (Barcode.generateUniqueBarcode productId index) = 13
      <-> (index < 1000)%N).
Proof.
  destruct (generateUniqueBarcode_digits productId index)
    as (L & c & HL & HF & Hlen & Hc & ->).
  assert (Hlength : length (map digit_char (L ++ [c]))
                    = 10 + Nat.max 3 (length (String_of_N index))).
  { rewrite length_map, length_app, Hlen. simpl. lia. }
  split; [|split; [|split]].
  - apply forallb_is_digit. apply Forall_app. split; [exact HF|].
    repeat constructor. exact Hc.
  - rewrite map_app, <- HL, baseCode_id, <- !app_assoc.
    apply starts_with_app.
  - exact Hlength.
  - rewrite Hlength, <- String_of_N_length_3. lia.
Qed.

(** X4: within one webhook delivery the barcodes generated for the
    variants of the product are pairwise distinct. *)
Theorem webhook_barcodes_pairwise_distinct (product : Product) :
  NoDup (map uv_barcode
           (ProductCreated.newVariants (id product) 0 (variants product))).
Proof. apply newVariants_NoDup. Qed.

(* ===================================================================== *)
(** ** The search for an unused barcode                                    *)
(* ===================================================================== *)

(** What the [do ... while] loop returns: the number of attempts, the
    barcode of the last one, the earlier ones all in the set. *)
Lemma doWhile_spec productId base existingBarcodes :
  forall fuel attempts b a,
    (UpdateProductsBarra.maxAttempts <= N.of_nat fuel + attempts)%N ->
    UpdateProductsBarra.doWhile fuel productId base attempts existingBarcodes
    = (b, a) ->
    (attempts < a)%N
    /\ (a <= N.max UpdateProductsBarra.maxAttempts (attempts + 1))%N
    /\ b = Barcode.generateUniqueBarcode productId (base + (a - 1))
    /\ (forall j, (attempts <= j < a - 1)%N ->
          Set_has existingBarcodes
            (Barcode.generateUniqueBarcode productId (base + j)) = true)
    /\ ((a < UpdateProductsBarra.maxAttempts)%N ->
        Set_has existingBarcodes b = false).
Proof.
  unfold UpdateProductsBarra.maxAttempts.
  induction fuel as [|fuel IH]; intros attempts b a Hfuel Hrun;
    simpl in Hrun;
    destruct (Set_has existingBarcodes
                (Barcode.generateUniqueBarcode productId (base + attempts)))
      eqn:Hhas;
    destruct (attempts + 1 <? UpdateProductsBarra.maxAttempts)%N eqn:Hlt;
    unfold UpdateProductsBarra.maxAttempts in Hlt;
    cbn [andb] in Hrun;
    try (apply N.ltb_ge in Hlt); try (apply N.ltb_lt in Hlt);
    try (inversion Hrun; subst; clear Hrun;
         replace (attempts + 1 - 1)%N with attempts by lia;
         repeat split; try lia; try reflexivity;
         first [ intros; lia | intros _; exact Hhas | simpl in Hfuel; lia ]).
  rewrite Nat2N.inj_succ in Hfuel.
  destruct (IH (attempts + 1)%N b a ltac:(lia) Hrun)
    as (H1 & H2 & H3 & H4 & H5).
  repeat split; try lia; try assumption.
  intros j Hj. destruct (N.eq_dec j attempts) as [-> | Hne]; [exact Hhas|].
  apply H4. lia.
Qed.

Lemma NoDup_map_injective {A B} (f : A -> B) (l : list A) :
  (forall x y, f x = f y -> x = y) -> NoDup l -> NoDup (map f l).
Proof.
  intros Hinj. induction 1 as [|x l Hx _ IH]; simpl; constructor; [|exact IH].
  intros Hin. apply in_map_iff in Hin. destruct Hin as (y & Hy & Hyl).
  apply Hinj in Hy. subst. contradiction.
Qed.

Section VariantStep.

Variable product : Product.
Variables productIndex variantIndex : N.
Variable variant : Variant.
Variable st : UpdateProductsBarra.VariantsState.

Let existing := UpdateProductsBarra.vs_existingBarcodes st.
Let cand := candidate product productIndex variantIndex.

Lemma doWhile_of_variant b a :
  UpdateProductsBarra.doWhile (N.to_nat UpdateProductsBarra.maxAttempts)
    (id product) (productIndex * 100 + variantIndex) 0 existing = (b, a) ->
  (0 < a <= 100)%N /\ b = cand (a - 1)%N
  /\ (forall j, (j < a - 1)%N -> Set_has existing (cand j) = true)
  /\ ((a < 100)%N -> Set_has existing b = false).
Proof.
  intros Hrun. apply doWhile_spec in Hrun; [|vm_compute; discriminate].
  unfold UpdateProductsBarra.maxAttempts in Hrun.
  destruct Hrun as (H1 & H2 & H3 & H4 & H5).
  split; [lia|]. split; [exact H3|]. split; [|exact H5].
  intros j Hj. apply H4. lia.
Qed.

(** When the first 99 candidates are all taken, the variant is left
    without a barcode, whatever the hundredth candidate is. *)
Lemma variant_step_gives_up t :
  truthy (barcode variant) = false ->
  (forall j, (j < 99)%N -> Set_has existing (cand j) = true) ->
  UpdateProductsBarra.variant_step product productIndex variantIndex variant
    st t
  = (Ok st, EvConsole (LogNoUniqueBarcode (variant_id variant)) :: t).
Proof.
  intros Hb Hall. unfold UpdateProductsBarra.variant_step. rewrite Hb.
  cbn [negb]. fold existing.
  destruct (UpdateProductsBarra.doWhile _ _ _ _ _) as [b a] eqn:Hdo.
  apply doWhile_of_variant in Hdo. destruct Hdo as (Ha & Hcand & Hused & Hfree).
  destruct (N.lt_ge_cases a 100) as [Hlt | Hge].
  - specialize (Hfree Hlt). rewrite Hcand, Hall in Hfree by lia.
    discriminate.
  - replace (UpdateProductsBarra.maxAttempts <=? a)%N with true
      by (symmetry; apply N.leb_le; exact Hge).
    reflexivity.
Qed.

(** Otherwise the variant gets the first candidate that is not taken. *)
Lemma variant_step_first_free t j :
  truthy (barcode variant) = false ->
  (j < 99)%N ->
  Set_has existing (cand j) = false ->
  (forall i, (i < j)%N -> Set_has existing (cand i) = true) ->
  UpdateProductsBarra.variant_step product productIndex variantIndex variant
    st t
  = (Ok (with_barcode st variant (cand j)), t).
Proof.
  intros Hb Hj Hfree Hused. unfold UpdateProductsBarra.variant_step.
  rewrite Hb. cbn [negb]. fold existing.
  destruct (UpdateProductsBarra.doWhile _ _ _ _ _) as [b a] eqn:Hdo.
  apply doWhile_of_variant in Hdo.
  destruct Hdo as (Ha & Hcand & Hused' & Hfree').
  assert (Haj : (a - 1 = j)%N).
  { destruct (N.lt_trichotomy (a - 1) j) as [Hlt | [Heq | Hgt]].
    - assert (Ha100 : (a < 100)%N) by lia.
      specialize (Hfree' Ha100). rewrite Hcand, Hused in Hfree' by exact Hlt.
      discriminate.
    - exact Heq.
    - rewrite Hused' in Hfree by exact Hgt. discriminate. }
  replace (UpdateProductsBarra.maxAttempts <=? a)%N with false
    by (symmetry; apply N.leb_gt; unfold UpdateProductsBarra.maxAttempts; lia).
  rewrite Hcand, Haj. reflexivity.
Qed.

(** With fewer than 99 barcodes in the set, a candidate is always found. *)
Lemma variant_step_finds_one t :
  truthy (barcode variant) = false ->
  length existing < 99 ->
  exists j, (j < 99)%N /\ ~ In (cand j) existing
    /\ UpdateProductsBarra.variant_step product productIndex variantIndex
         variant st t
       = (Ok (with_barcode st variant (cand j)), t).
Proof.
  intros Hb Hlen.
  destruct (UpdateProductsBarra.doWhile
              (N.to_nat UpdateProductsBarra.maxAttempts) (id product)
              (productIndex * 100 + variantIndex) 0 existing) as [b a] eqn:Hdo.
  pose proof (doWhile_of_variant _ _ Hdo) as (Ha & Hcand & Hused & Hfree).
  destruct (N.lt_ge_cases a 100) as [Hlt | Hge].
  - exists (a - 1)%N. split; [lia|]. specialize (Hfree Hlt).
    rewrite Hcand in Hfree. split; [apply Set_has_not_In; exact Hfree|].
    apply variant_step_first_free; [exact Hb | lia | exact Hfree | exact Hused].
  - exfalso.
    assert (Ha100 : a = 100%N) by lia. subst a.
    set (tried := map (fun k => cand (N.of_nat k)) (seq 0 99)).
    assert (Hnd : NoDup tried).
    { apply NoDup_map_injective; [|apply seq_NoDup].
      intros x y Heq. unfold cand, candidate in Heq.
      apply generateUniqueBarcode_injective in Heq. lia. }
    assert (Hincl : incl tried existing).
    { intros c Hc. apply in_map_iff in Hc. destruct Hc as (k & <- & Hk).
      apply in_seq in Hk. apply Set_has_In. apply Hused. lia. }
    pose proof (NoDup_incl_length Hnd Hincl) as Hle.
    unfold tried in Hle. rewrite length_map, length_seq in Hle. lia.
Qed.

End VariantStep.

(** X5: a variant without a barcode gets the first of the 99 candidates
    [generateUniqueBarcode(id, productIndex * 100 + variantIndex + j)],
    [j = 0..98], that is not in the set of existing barcodes; when all 99
    are in the set it gets none and a warning is logged, whether or not
    the hundredth candidate is in the set. *)
Theorem variant_barcode_search
    (product : Product) (productIndex variantIndex : N) (variant : Variant)
    (st : UpdateProductsBarra.VariantsState) (t : Trace) :
  truthy (barcode variant) = false ->
  let existing := UpdateProductsBarra.vs_existingBarcodes st in
  let cand := candidate product productIndex variantIndex in
  (forall j, (j < 99)%N ->
     Set_has existing (cand j) = false ->
     (forall i, (i < j)%N -> Set_has existing (cand i) = true) ->
     UpdateProductsBarra.variant_step product productIndex variantIndex
       variant st t
     = (Ok (with_barcode st variant (cand j)), t))
  /\ ((forall j, (j < 99)%N -> Set_has existing (cand j) = true) ->
      UpdateProductsBarra.variant_step product productIndex variantIndex
        variant st t
      = (Ok st, EvConsole (LogNoUniqueBarcode (variant_id variant)) :: t)).
Proof.
  intros Hb existing cand. split.
  - intros j Hj Hfree Hused. apply variant_step_first_free; assumption.
  - intros Hall. apply variant_step_gives_up; assumption.
Qed.

(** X6: as long as the set of existing barcodes has fewer than 99
    elements, every variant without a barcode is given one, and it is not
    in the set. *)
Theorem variant_gets_barcode_when_set_is_small
    (product : Product) (productIndex variantIndex : N) (variant : Variant)
    (st : UpdateProductsBarra.VariantsState) (t : Trace) :
  truthy (barcode variant) = false ->
  length (UpdateProductsBarra.vs_existingBarcodes st) < 99 ->
  exists j,
    (j < 99)%N
    /\ ~ In (candidate product productIndex variantIndex j)
         (UpdateProductsBarra.vs_existingBarcodes st)
    /\ UpdateProductsBarra.variant_step product productIndex variantIndex
         variant st t
       = (Ok (with_barcode st variant
                (candidate product productIndex variantIndex j)), t).
Proof. apply variant_step_finds_one. Qed.

Lemma variant_barcode_search_witness :
  truthy (barcode variant_11) = false
  /\ (1 < 99)%N
  /\ Set_has (UpdateProductsBarra.vs_existingBarcodes clash_state)
       (candidate p_clash 0 1 1) = false
  /\ (forall i, (i < 1)%N ->
        Set_has (UpdateProductsBarra.vs_existingBarcodes clash_state)
          (candidate p_clash 0 1 i) = true)
  /\ UpdateProductsBarra.variant_step p_clash 0 1 variant_11 clash_state []
     = (Ok (with_barcode clash_state variant_11 (lit "2000000010021")), []).
Proof.
  assert (Hused : forall i, (i < 1)%N ->
            Set_has (UpdateProductsBarra.vs_existingBarcodes clash_state)
              (candidate p_clash 0 1 i) = true).
  { intros i Hi. assert (i = 0%N) by lia. subst. reflexivity. }
  split; [reflexivity|]. split; [reflexivity|]. split; [reflexivity|].
  split; [exact Hused|].
  exact (proj1 (variant_barcode_search p_clash 0 1 variant_11 clash_state []
                  eq_refl) 1%N eq_refl eq_refl Hused).
Defined.

Lemma variant_gets_barcode_when_set_is_small_witness :
  truthy (barcode variant_11) = false
  /\ length (UpdateProductsBarra.vs_existingBarcodes clash_state) < 99
  /\ exists j,
       (j < 99)%N
       /\ ~ In (candidate p_clash 0 1 j)
            (UpdateProductsBarra.vs_existingBarcodes clash_state)
       /\ UpdateProductsBarra.variant_step p_clash 0 1 variant_11 clash_state
            []
          = (Ok (with_barcode clash_state variant_11
                   (candidate p_clash 0 1 j)), []).
Proof.
  assert (Hlen : length (UpdateProductsBarra.vs_existingBarcodes clash_state)
                 < 99) by (vm_compute; lia).
  split; [reflexivity|]. split; [exact Hlen|].
  exact (variant_gets_barcode_when_set_is_small p_clash 0 1 variant_11
           clash_state [] eq_refl Hlen).
Defined.

(* ===================================================================== *)
(** ** The set of existing barcodes                                        *)
(* ===================================================================== *)

Lemma Set_add_NoDup (s : StrSet) (x : str) : NoDup s -> NoDup (Set_add s x).
Proof.
  intros Hnd. unfold Set_add. destruct (Set_has s x) eqn:E; [exact Hnd|].
  apply Set_has_not_In in E.
  apply NoDup_app; [exact Hnd | repeat constructor; intros [] |].
  intros a Ha [<- | []]. contradiction.
Qed.

Lemma getExistingBarcodes_NoDup (ps : list Product) :
  NoDup (UpdateProductsBarra.getExistingBarcodes ps).
Proof.
  unfold UpdateProductsBarra.getExistingBarcodes.
  assert (Hinner : forall vs acc,
             NoDup acc ->
             NoDup (fold_left
                      (fun existingBarcodes variant =>
                         if truthy (barcode variant)
                         then Set_add existingBarcodes
                                (or_else (barcode variant) [])
                         else existingBarcodes) vs acc)).
  { induction vs as [|v vs IH]; intros acc Hacc; simpl; [exact Hacc|].
    apply IH. destruct (truthy (barcode v)); [apply Set_add_NoDup|];
      exact Hacc. }
  assert (Houter : forall qs acc,
             NoDup acc ->
             NoDup (fold_left
                      (fun existingBarcodes product =>
                         fold_left
                           (fun existingBarcodes variant =>
                              if truthy (barcode variant)
                              then Set_add existingBarcodes
                                     (or_else (barcode variant) [])
                              else existingBarcodes)
                           (variants product) existingBarcodes) qs acc)).
  { induction qs as [|q qs IH]; intros acc Hacc; simpl; [exact Hacc|].
    apply IH, Hinner, Hacc. }
  apply Houter. constructor.
Qed.

(** X7: [getExistingBarcodes] returns, without repetition, exactly the
    non-empty barcodes carried by the variants of the products; a missing
    or empty barcode is never in the set. *)
Theorem getExistingBarcodes_spec (ps : list Product) :
  NoDup (UpdateProductsBarra.getExistingBarcodes ps)
  /\ (forall b, In b (UpdateProductsBarra.getExistingBarcodes ps)
                <-> present_barcode ps b)
  /\ ~ In [] (UpdateProductsBarra.getExistingBarcodes ps).
Proof.
  split; [apply getExistingBarcodes_NoDup|].
  split; [apply getExistingBarcodes_present|].
  intros Hin. apply getExistingBarcodes_present in Hin.
  destruct Hin as (p & v & _ & _ & _ & Hne). apply Hne. reflexivity.
Qed.

(* ===================================================================== *)
(** ** The [shopifyFetch] of the webhook handler                           *)
(* ===================================================================== *)

Section WebhookFetch.

Variable net : Network.
Variables (url : str) (options : Options).

(** One turn of the loop: the request is issued, and then the function
    returns the response, throws, or goes on with one attempt less. *)
Lemma webhook_turn retries i k t :
  exists t1,
    In (EvFetch url options) t1 /\ grows t t1
    /\ count_fetches t1 = S (count_fetches t)
    /\ (ProductCreated.shopifyFetch_loop net url options retries i (S k) t
        = ProductCreated.shopifyFetch_loop net url options retries (S i) k t1
        \/ (exists res, ok res = true /\ status res <> 429%Z
              /\ ProductCreated.shopifyFetch_loop net url options retries i
                   (S k) t = (Ok (Some res), t1))
        \/ (exists e, i = retries - 1
              /\ ProductCreated.shopifyFetch_loop net url options retries i
                   (S k) t = (Throw e, t1))).
Proof.
  destruct (net t url options) as [res|msg] eqn:Hnet.
  - destruct (Z.eq_dec (status res) 429) as [H429|Hn429].
    + exists (after_429 url options res t). unfold after_429.
      split; [right; right; left; reflexivity|].
      split; [do 3 apply grows_cons; apply grows_refl|].
      split; [reflexivity|]. left. apply webhook_429; assumption.
    + destruct (ok res) eqn:Hok.
      * exists (EvFetch url options :: t).
        split; [left; reflexivity|].
        split; [apply grows_cons, grows_refl|]. split; [reflexivity|].
        right; left. exists res. repeat split; try assumption.
        apply webhook_ok; assumption.
      * destruct (Nat.eq_dec i (retries - 1)) as [Hi|Hi].
        -- eexists. split; [|split; [|split; [|right; right; eexists; split;
             [exact Hi | apply webhook_error_last; eassumption]]]].
           ++ right; left; reflexivity.
           ++ do 2 apply grows_cons. apply grows_refl.
           ++ reflexivity.
        -- eexists. split; [|split; [|split; [|left;
             apply webhook_error_retried; eassumption]]].
           ++ right; right; left; reflexivity.
           ++ do 3 apply grows_cons. apply grows_refl.
           ++ reflexivity.
  - pose proof (webhook_rejected net url options retries i k t msg Hnet) as Hr.
    destruct (Nat.eqb i (retries - 1)) eqn:Hi.
    + apply Nat.eqb_eq in Hi. eexists.
      split; [|split; [|split; [|right; right; eexists; split;
        [exact Hi | exact Hr]]]].
      * right; left; reflexivity.
      * do 2 apply grows_cons. apply grows_refl.
      * reflexivity.
    + eexists. split; [|split; [|split; [|left; exact Hr]]].
      * right; right; left; reflexivity.
      * do 3 apply grows_cons. apply grows_refl.
      * reflexivity.
Qed.

(** The loop returns a response that is not an error, returns
    [undefined], or throws; it issues at most one request per attempt. *)
Lemma webhook_loop_shape retries :
  forall k i t,
    exists r t',
      ProductCreated.shopifyFetch_loop net url options retries i k t = (r, t')
      /\ count_fetches t' <= count_fetches t + k
      /\ (k > 0 -> In (EvFetch url options) t')
      /\ ((r = Ok None /\ count_fetches t' = count_fetches t + k)
          \/ (exists res, r = Ok (Some res) /\ ok res = true
                          /\ status res <> 429%Z)
          \/ (exists e, r = Throw e /\ k > 0)).
Proof.
  induction k as [|k IH]; intros i t.
  - exists (Ok None), t. split; [reflexivity|]. split; [lia|].
    split; [lia|]. left. split; [reflexivity | lia].
  - destruct (webhook_turn retries i k t)
      as (t1 & Hin & Hg & Hc & [Hnext | [(res & Hok & Hst & Hret)
                                       | (e & Hi & Hthrow)]]).
    + destruct (IH (S i) t1) as (r & t' & Hrun & Hcount & Hin' & Hshape).
      exists r, t'. rewrite Hnext. split; [exact Hrun|]. split; [lia|].
      split.
      * intros _. destruct k as [|k'].
        -- simpl in Hrun. inversion Hrun; subst. exact Hin.
        -- apply Hin'. lia.
      * destruct Hshape as [[-> Hk] | [(res & -> & Hok & Hst)
                                     | (e & -> & Hk)]].
        -- left. split; [reflexivity | lia].
        -- right; left. eauto.
        -- right; right. exists e. split; [reflexivity | lia].
    + exists (Ok (Some res)), t1. split; [exact Hret|]. split; [lia|].
      split; [intros _; exact Hin|]. right; left. eauto.
    + exists (Throw e), t1. split; [exact Hthrow|]. split; [lia|].
      split; [intros _; exact Hin|]. right; right.
      exists e. split; [reflexivity | lia].
Qed.

End WebhookFetch.

(** When every request is answered 429, the loop leaves after [k]
    requests and returns [undefined]. *)
Lemma webhook_loop_always_429 net url options retries :
  always_429 net ->
  forall k i t,
    exists t',
      ProductCreated.shopifyFetch_loop net url options retries i k t
      = (Ok None, t')
      /\ count_fetches t' = count_fetches t + k
      /\ grows t t'.
Proof.
  intros Hbusy. induction k as [|k IH]; intros i t.
  - exists t. split; [reflexivity|]. split; [lia | apply grows_refl].
  - destruct (Hbusy t url options) as (res & Hnet & Hst).
    rewrite (webhook_429 net url options retries i k t res Hnet Hst).
    destruct (IH (S i) (after_429 url options res t)) as (t' & Hrun & Hc & Hg).
    exists t'. split; [exact Hrun|]. split.
    + rewrite Hc. unfold after_429. simpl. lia.
    + eapply grows_trans; [|exact Hg]. unfold after_429.
      do 3 apply grows_cons. apply grows_refl.
Qed.

(** X8: the [shopifyFetch] of the webhook handler never returns an error
    response: what it returns is a 2xx response or, once every attempt is
    used up, [undefined]; it issues at most [retries] requests. *)
Theorem webhook_shopifyFetch_results
    (net : Network) (url : str) (options : Options) (retries : nat)
    (t : Trace) :
  exists r t',
    ProductCreated.shopifyFetch net url options retries t = (r, t')
    /\ count_fetches t' <= count_fetches t + retries
    /\ ((r = Ok None /\ count_fetches t' = count_fetches t + retries)
        \/ (exists res, r = Ok (Some res) /\ ok res = true
                        /\ status res <> 429%Z)
        \/ (exists e, r = Throw e /\ retries > 0)).
Proof.
  destruct (webhook_loop_shape net url options retries retries 0 t)
    as (r & t' & Hrun & Hcount & _ & Hshape).
  exists r, t'. auto.
Qed.

(** X9: when the shop answers 429 to every request, the [shopifyFetch] of
    the webhook handler does not throw: after [retries] requests it
    returns [undefined]. *)
Theorem webhook_shopifyFetch_undefined_when_busy
    (net : Network) (url : str) (options : Options) (retries : nat)
    (t : Trace) :
  always_429 net ->
  exists t',
    ProductCreated.shopifyFetch net url options retries t = (Ok None, t')
    /\ count_fetches t' = count_fetches t + retries.
Proof.
  intros Hbusy.
  destruct (webhook_loop_always_429 net url options retries Hbusy retries 0 t)
    as (t' & Hrun & Hc & _).
  exists t'. auto.
Qed.

Lemma always_429_busy_net : always_429 busy_net.
Proof. intros t url options. exists res_429_plain. split; reflexivity. Qed.

Lemma webhook_shopifyFetch_undefined_when_busy_witness :
  always_429 busy_net
  /\ exists t',
       ProductCreated.shopifyFetch busy_net sample_url get_options 3 []
       = (Ok None, t')
       /\ count_fetches t' = 0 + 3.
Proof.
  split; [exact always_429_busy_net|].
  exact (webhook_shopifyFetch_undefined_when_busy busy_net sample_url
           get_options 3 [] always_429_busy_net).
Defined.

(* ===================================================================== *)
(** ** [processNewProduct]                                                 *)
(* ===================================================================== *)

Section ProcessNewProduct.

Variable net : Network.
Variables SHOP API_VERSION TOKEN : str.

(** The fallback asks for every variant and never throws. *)
Lemma updateVariants_shape :
  forall us n t,
    exists m t',
      ProductCreated.updateVariants net SHOP API_VERSION TOKEN us n t
      = (Ok m, t')
      /\ n <= m <= n + length us
      /\ grows t t'
      /\ (forall u, In u us -> In (variant_put SHOP API_VERSION TOKEN u) t').
Proof.
  induction us as [|u rest IH]; intros n t.
  - exists n, t. split; [reflexivity|]. split; [simpl; lia|].
    split; [apply grows_refl | intros u []].
  - destruct (webhook_loop_shape net
                (ProductCreated.variant_url SHOP API_VERSION (uv_id u))
                (put_options TOKEN (PayloadVariant u))
                ProductCreated.default_retries
                ProductCreated.default_retries 0 t)
      as (r & t1 & Hrun & _ & Hin & _).
    specialize (Hin ltac:(unfold ProductCreated.default_retries; lia)).
    assert (Hg1 : grows t t1).
    { apply (webhook_shopifyFetch_trace net _ _ _ _ _ _ _ _ Hrun). }
    assert (Hstep : exists n1 t2,
               n <= n1 <= S n /\ grows t1 t2
               /\ ProductCreated.updateVariants net SHOP API_VERSION TOKEN
                    (u :: rest) n t
                  = ProductCreated.updateVariants net SHOP API_VERSION TOKEN
                      rest n1 t2).
    { simpl. unfold bind at 1, try_catch, bind at 1.
      unfold ProductCreated.shopifyFetch, put_options in *. rewrite Hrun.
      destruct r as [x|e|].
      - exists (S n), t1. split; [lia|]. split; [apply grows_refl|].
        reflexivity.
      - exists n, (EvConsole (LogVariantError (uv_id u) e) :: t1).
        split; [lia|]. split; [apply grows_cons, grows_refl|]. reflexivity.
      - exfalso.
        destruct (webhook_loop_shape net
                    (ProductCreated.variant_url SHOP API_VERSION (uv_id u))
                    {| method := PUT; req_headers := Batch.json_headers TOKEN;
                       body := Some (PayloadVariant u) |}
                    ProductCreated.default_retries
                    ProductCreated.default_retries 0 t)
          as (r' & t1' & Hrun' & _ & _ & Hshape).
        rewrite Hrun in Hrun'. inversion Hrun'; subst.
        destruct Hshape as [[H _] | [(res & H & _) | (e & H & _)]];
          discriminate H. }
    destruct Hstep as (n1 & t2 & Hn1 & Hg2 & Heq).
    destruct (IH n1 t2) as (m & t' & Hrest & Hm & Hg3 & Hall).
    exists m, t'. rewrite Heq. split; [exact Hrest|].
    split; [simpl; lia|].
    split; [eauto using grows_trans|].
    intros v [<- | Hv]; [|apply Hall; exact Hv].
    apply Hg3, Hg2. exact Hin.
Qed.

Lemma updateVariants_busy :
  always_429 net ->
  forall us n t,
    exists t',
      ProductCreated.updateVariants net SHOP API_VERSION TOKEN us n t
      = (Ok (n + length us), t').
Proof.
  intros Hbusy. induction us as [|u rest IH]; intros n t.
  - exists t. simpl. rewrite Nat.add_0_r. reflexivity.
  - destruct (webhook_loop_always_429 net
                (ProductCreated.variant_url SHOP API_VERSION (uv_id u))
                {| method := PUT; req_headers := Batch.json_headers TOKEN;
                   body := Some (PayloadVariant u) |}
                ProductCreated.default_retries Hbusy
                ProductCreated.default_retries 0 t) as (t1 & Hrun & _ & _).
    destruct (IH (S n) t1) as (t' & Hrest).
    exists t'. simpl. unfold bind at 1, try_catch, bind at 1.
    unfold ProductCreated.shopifyFetch. rewrite Hrun.
    unfold ret at 1. rewrite Hrest. f_equal. f_equal. lia.
Qed.

Lemma generateProductDescription_nonempty (product : Product) :
  truthy (Some (ProductCreated.generateProductDescription product)) = true.
Proof.
  unfold ProductCreated.generateProductDescription.
  destruct (negb (truthy _)); reflexivity.
Qed.

Lemma newVariants_nil_iff productId :
  forall vs index,
    ProductCreated.newVariants productId index vs = []
    <-> forall v, In v vs -> truthy (barcode v) = true.
Proof.
  induction vs as [|variant rest IH]; intros index; simpl.
  - split; [intros _ v [] | reflexivity].
  - destruct (truthy (barcode variant)) eqn:Hb; cbn [negb]; simpl.
    + rewrite IH. split.
      * intros H v [<- | Hv]; [exact Hb | apply H; exact Hv].
      * intros H v Hv. apply H. right. exact Hv.
    + split; [discriminate|]. intros H.
      rewrite (H variant (or_introl eq_refl)) in Hb. discriminate.
Qed.

(** The test [!updatePayload.product.body_html && updatedVariants.length
    === 0] holds exactly when nothing is missing. *)
Lemma nothing_to_write_iff (product : Product) :
  negb (truthy (pp_body_html (ProductCreated.updatePayload product)))
  && Nat.eqb (length (ProductCreated.newVariants (id product) 0
                        (variants product))) 0 = false
  <-> lacks_something product.
Proof.
  unfold lacks_something, ProductCreated.updatePayload. simpl pp_body_html.
  destruct (ProductCreated.needsDescription product) eqn:Hd.
  - rewrite generateProductDescription_nonempty. simpl. tauto.
  - simpl.
    destruct (ProductCreated.newVariants (id product) 0 (variants product))
      as [|u us] eqn:Hnv; simpl.
    + split; [discriminate|].
      intros [H | (v & Hv & Hb)]; [discriminate H|].
      pose proof (proj1 (newVariants_nil_iff _ _ _) Hnv) as Hall.
      rewrite (Hall v Hv) in Hb. discriminate.
    + split; [|reflexivity]. intros _. right.
      destruct (newVariants_only_missing (id product) (variants product) 0 u)
        as (v & Hv & Hb & _); [rewrite Hnv; left; reflexivity|].
      exists v. auto.
Qed.

(** The [catch] block of [processNewProduct]. *)
Lemma processNewProduct_catch (product : Product) (e : Error) (t : Trace) :
  let us := ProductCreated.newVariants (id product) 0 (variants product) in
  exists r t',
    bind (console (LogUpdateError (title product) e))
      (fun _ =>
         if Nat.ltb 0 (length us)
         then bind (ProductCreated.updateVariants net SHOP API_VERSION TOKEN
                      us 0)
                (fun variantsUpdated => ret (partial_result variantsUpdated))
         else throw e) t = (r, t')
    /\ grows t t'
    /\ ((exists m, r = Ok (partial_result m) /\ us <> [] /\ m <= length us
                   /\ (forall u, In u us ->
                         In (variant_put SHOP API_VERSION TOKEN u) t')
                   /\ (always_429 net -> m = length us))
        \/ (r = Throw e /\ us = [])).
Proof.
  intros us. unfold bind at 1, console.
  destruct (Nat.ltb 0 (length us)) eqn:Hlen.
  - destruct (updateVariants_shape us 0
                (EvConsole (LogUpdateError (title product) e) :: t))
      as (m & t' & Hrun & Hm & Hg & Hall).
    exists (Ok (partial_result m)), t'. unfold bind, ret. rewrite Hrun.
    split; [reflexivity|].
    split; [eapply grows_trans; [apply grows_cons, grows_refl | exact Hg]|].
    left. exists m. split; [reflexivity|].
    split; [intros E; rewrite E in Hlen; discriminate Hlen|].
    split; [exact (proj2 Hm)|]. split; [exact Hall|].
    intros Hbusy.
    destruct (updateVariants_busy Hbusy us 0
                (EvConsole (LogUpdateError (title product) e) :: t))
      as (t'' & Hrun').
    rewrite Hrun in Hrun'. inversion Hrun'; subst. reflexivity.
  - do 2 eexists. split; [reflexivity|].
    split; [apply grows_cons, grows_refl|]. right. split; [reflexivity|].
    destruct us; [reflexivity | discriminate Hlen].
Qed.

(** How [processNewProduct] ends. *)
Lemma processNewProduct_shape (product : Product) (t : Trace) :
  let us := ProductCreated.newVariants (id product) 0 (variants product) in
  exists r t',
    ProductCreated.processNewProduct net SHOP API_VERSION TOKEN product t
    = (r, t')
    /\ ((~ lacks_something product /\ r = Ok no_changes /\ t' = t)
        \/ (lacks_something product
            /\ In (webhook_put SHOP API_VERSION TOKEN product) t'
            /\ ((r = Ok (full_result product) /\ ~ always_429 net)
                \/ (exists m, r = Ok (partial_result m) /\ us <> []
                              /\ m <= length us
                              /\ (forall u, In u us ->
                                    In (variant_put SHOP API_VERSION TOKEN u)
                                      t')
                              /\ (always_429 net -> m = length us))
                \/ (exists e, r = Throw e /\ us = [])))).
Proof.
  intros us. unfold ProductCreated.processNewProduct. fold us.
  pose proof (nothing_to_write_iff product) as Hiff. fold us in Hiff.
  destruct (negb _ && Nat.eqb (length us) 0) eqn:Hnothing.
  { do 2 eexists. split; [reflexivity|]. left.
    split; [|split; reflexivity].
    intros Hl. apply Hiff in Hl. discriminate. }
  assert (Hl : lacks_something product) by (apply Hiff; reflexivity).
  destruct (webhook_loop_shape net
              (Batch.product_url SHOP API_VERSION (id product))
              (put_options TOKEN
                 (PayloadProduct (ProductCreated.updatePayload product)))
              ProductCreated.default_retries
              ProductCreated.default_retries 0 t)
    as (r1 & t1 & Hrun & _ & Hin & Hshape).
  specialize (Hin ltac:(unfold ProductCreated.default_retries; lia)).
  assert (Hg1 : grows t t1).
  { apply (webhook_shopifyFetch_trace net _ _ _ _ _ _ _ _ Hrun). }
  assert (Hcatch : forall e t2,
             grows t1 t2 ->
             exists r t',
               bind (console (LogUpdateError (title product) e))
                 (fun _ =>
                    if Nat.ltb 0 (length us)
                    then bind (ProductCreated.updateVariants net SHOP
                                 API_VERSION TOKEN us 0)
                           (fun variantsUpdated =>
                              ret (partial_result variantsUpdated))
                    else throw e) t2 = (r, t')
               /\ (lacks_something product
                   /\ In (webhook_put SHOP API_VERSION TOKEN product) t'
                   /\ ((r = Ok (full_result product) /\ ~ always_429 net)
                       \/ (exists m, r = Ok (partial_result m) /\ us <> []
                              /\ m <= length us
                              /\ (forall u, In u us ->
                                    In (variant_put SHOP API_VERSION TOKEN u)
                                      t')
                              /\ (always_429 net -> m = length us))
                       \/ (exists e, r = Throw e /\ us = [])))).
  { intros e t2 Hg2.
    destruct (processNewProduct_catch product e t2)
      as (r & t' & Hc & Hg & Hcases).
    exists r, t'. split; [exact Hc|]. split; [exact Hl|].
    split; [apply Hg, Hg2; exact Hin|].
    destruct Hcases as [H | [-> H]]; [right; left; exact H|].
    right; right. exists e. auto. }
  unfold try_catch, bind at 1.
  unfold ProductCreated.shopifyFetch, put_options, partial_result in *.
  rewrite Hrun.
  destruct r1 as [[res|]|e|].
  - unfold bind at 1, json.
    destruct (json_body res) as [data|].
    + do 2 eexists. split; [reflexivity|]. right.
      split; [exact Hl|]. split; [exact Hin|]. left. split; [reflexivity|].
      intros Hbusy.
      destruct (webhook_loop_always_429 net
                  (Batch.product_url SHOP API_VERSION (id product))
                  {| method := PUT; req_headers := Batch.json_headers TOKEN;
                     body := Some (PayloadProduct
                                     (ProductCreated.updatePayload product)) |}
                  ProductCreated.default_retries Hbusy
                  ProductCreated.default_retries 0 t) as (t'' & Hrun' & _).
      rewrite Hrun in Hrun'. discriminate Hrun'.
    + destruct (Hcatch SyntaxError t1 (grows_refl _)) as (r & t' & Hc & H).
      exists r, t'. split; [exact Hc|]. right. exact H.
  - destruct (Hcatch TypeError t1 (grows_refl _)) as (r & t' & Hc & H).
    exists r, t'. split; [exact Hc|]. right. exact H.
  - destruct (Hcatch e t1 (grows_refl _)) as (r & t' & Hc & H).
    exists r, t'. split; [exact Hc|]. right. exact H.
  - exfalso. destruct Hshape as [[H _] | [(res & H & _) | (e & H & _)]];
      discriminate H.
Qed.

End ProcessNewProduct.

(** X10: [processNewProduct] makes a request exactly when something is
    missing: when the description is blank or a variant has no barcode,
    the update of the product is requested; otherwise it returns at once,
    without any effect. *)
Theorem processNewProduct_requests_iff_missing
    (net : Network) (SHOP API_VERSION TOKEN : str) (product : Product)
    (t : Trace) :
  (lacks_something product ->
   In (webhook_put SHOP API_VERSION TOKEN product)
     (snd (ProductCreated.processNewProduct net SHOP API_VERSION TOKEN
             product t)))
  /\ (~ lacks_something product ->
      ProductCreated.processNewProduct net SHOP API_VERSION TOKEN product t
      = (Ok no_changes, t)).
Proof.
  destruct (processNewProduct_shape net SHOP API_VERSION TOKEN product t)
    as (r & t' & Hrun & [(Hn & -> & ->) | (Hl & Hin & _)]); rewrite Hrun.
  - split; [intros Hl; contradiction | reflexivity].
  - split; [intros _; exact Hin | intros Hn; contradiction].
Qed.

Lemma processNewProduct_requests_iff_missing_witness :
  lacks_something p_clash
  /\ In (webhook_put shop api token p_clash)
       (snd (ProductCreated.processNewProduct busy_net shop api token
               p_clash [])).
Proof.
  assert (Hl : lacks_something p_clash).
  { right. exists variant_11. split; [right; left; reflexivity | reflexivity]. }
  split; [exact Hl|].
  exact (proj1 (processNewProduct_requests_iff_missing busy_net shop api token
                  p_clash []) Hl).
Defined.

(** X11: [processNewProduct] throws only when no barcode was generated:
    then the description was the only thing to write and its request
    failed.  With generated barcodes a failure leads to the fallback
    instead. *)
Theorem processNewProduct_throws_only_without_barcodes
    (net : Network) (SHOP API_VERSION TOKEN : str) (product : Product)
    (t : Trace) (e : Error) (t' : Trace) :
  ProductCreated.processNewProduct net SHOP API_VERSION TOKEN product t
  = (Throw e, t') ->
  ProductCreated.newVariants (id product) 0 (variants product) = []
  /\ ProductCreated.needsDescription product = true.
Proof.
  intros Hrun.
  destruct (processNewProduct_shape net SHOP API_VERSION TOKEN product t)
    as (r & t'' & Hrun' & Hcases).
  rewrite Hrun in Hrun'. inversion Hrun'; subst; clear Hrun'.
  destruct Hcases as [(_ & H & _) | (Hl & _ & [[H _] | [(m & H & _)
                                                      | (e' & _ & Hus)]])];
    try discriminate H.
  split; [exact Hus|].
  destruct Hl as [Hd | (v & Hv & Hb)]; [exact Hd|].
  pose proof (proj1 (newVariants_nil_iff _ _ _) Hus v Hv) as Hb'.
  rewrite Hb in Hb'. discriminate.
Qed.

Lemma processNewProduct_throws_only_without_barcodes_witness :
  let net := shop_net [p_bare] (always 200) (always 500) in
  ProductCreated.processNewProduct net shop api token p_bare []
  = (Throw (HttpError 500 []),
     snd (ProductCreated.processNewProduct net shop api token p_bare []))
  /\ ProductCreated.newVariants (id p_bare) 0 (variants p_bare) = []
  /\ ProductCreated.needsDescription p_bare = true.
Proof.
  intros net.
  assert (Hrun : ProductCreated.processNewProduct net shop api token p_bare []
                 = (Throw (HttpError 500 []),
                    snd (ProductCreated.processNewProduct net shop api token
                           p_bare []))).
  { rewrite (surjective_pairing
               (ProductCreated.processNewProduct net shop api token p_bare []))
      at 1.
    f_equal. }
  split; [exact Hrun|].
  exact (processNewProduct_throws_only_without_barcodes net shop api token
           p_bare [] _ _ Hrun).
Defined.

(** X12: when the update of the product fails and barcodes were
    generated, each of them is sent on its own, whatever happens to the
    others; the result is marked partial, counts at most the generated
    barcodes and reports no description. *)
Theorem processNewProduct_fallback
    (net : Network) (SHOP API_VERSION TOKEN : str) (product : Product)
    (t : Trace) (result : ProductCreated.ProcessResult) (t' : Trace) :
  ProductCreated.processNewProduct net SHOP API_VERSION TOKEN product t
  = (Ok result, t') ->
  ProductCreated.partial result = Some true ->
  let us := ProductCreated.newVariants (id product) 0 (variants product) in
  us <> []
  /\ (exists m, result = partial_result m /\ m <= length us)
  /\ (forall u, In u us -> In (variant_put SHOP API_VERSION TOKEN u) t').
Proof.
  intros Hrun Hpartial us.
  destruct (processNewProduct_shape net SHOP API_VERSION TOKEN product t)
    as (r & t'' & Hrun' & Hcases).
  rewrite Hrun in Hrun'. inversion Hrun'; subst; clear Hrun'.
  destruct Hcases as [(_ & H & _) | (_ & _ & [[H _] | [(m & H & Hne & Hm & Hall & _)
                                                     | (e' & H & _)]])];
    try discriminate H; inversion H; subst; try discriminate Hpartial.
  split; [exact Hne|]. split; [exists m; auto | exact Hall].
Qed.

Lemma processNewProduct_fallback_witness :
  let net := shop_net [p_clash] (always 200) (always 500) in
  let run := ProductCreated.processNewProduct net shop api token p_clash [] in
  run = (Ok (partial_result 0), snd run)
  /\ ProductCreated.partial (partial_result 0) = Some true
  /\ (forall u,
         In u (ProductCreated.newVariants (id p_clash) 0 (variants p_clash)) ->
         In (variant_put shop api token u) (snd run)).
Proof.
  intros net run.
  assert (Hrun : run = (Ok (partial_result 0), snd run)).
  { rewrite (surjective_pairing run) at 1. f_equal. }
  split; [exact Hrun|]. split; [reflexivity|].
  exact (proj2 (proj2 (processNewProduct_fallback net shop api token p_clash
                         [] _ _ Hrun eq_refl))).
Defined.

(** X13: when the shop answers 429 to every request and barcodes were
    generated, [processNewProduct] reports success: the unanswered
    requests return [undefined] instead of throwing, so the fallback
    counts every barcode as applied although no request went through. *)
Theorem processNewProduct_success_when_busy
    (net : Network) (SHOP API_VERSION TOKEN : str) (product : Product)
    (t : Trace) :
  always_429 net ->
  let us := ProductCreated.newVariants (id product) 0 (variants product) in
  us <> [] ->
  exists t',
    ProductCreated.processNewProduct net SHOP API_VERSION TOKEN product t
    = (Ok (partial_result (length us)), t')
    /\ ProductCreated.success (partial_result (length us)) = true.
Proof.
  intros Hbusy us Hne.
  destruct (processNewProduct_shape net SHOP API_VERSION TOKEN product t)
    as (r & t' & Hrun & Hcases).
  exists t'. rewrite Hrun. fold us in Hcases.
  destruct Hcases as [(Hn & _ & _) | (_ & _ & [[_ Hnb] | [(m & -> & _ & _ & _ & Hm)
                                                       | (e & _ & Hus)]])].
  - exfalso. apply Hn. right.
    destruct us as [|u us'] eqn:Hus; [congruence|].
    destruct (newVariants_only_missing (id product) (variants product) 0 u)
      as (v & Hv & Hb & _); [fold us; rewrite Hus; left; reflexivity|].
    exists v. auto.
  - contradiction.
  - rewrite (Hm Hbusy). split; [reflexivity|].
    destruct us; [congruence | reflexivity].
  - congruence.
Qed.

Lemma processNewProduct_success_when_busy_witness :
  always_429 busy_net
  /\ ProductCreated.newVariants (id p_clash) 0 (variants p_clash) <> []
  /\ exists t',
       ProductCreated.processNewProduct busy_net shop api token p_clash []
       = (Ok (partial_result 1), t')
       /\ ProductCreated.success (partial_result 1) = true.
Proof.
  assert (Hne : ProductCreated.newVariants (id p_clash) 0 (variants p_clash)
                <> []) by discriminate.
  split; [exact always_429_busy_net|]. split; [exact Hne|].
  exact (processNewProduct_success_when_busy busy_net shop api token p_clash []
           always_429_busy_net Hne).
Defined.

(* ===================================================================== *)
(** ** The handler: every request is answered                              *)
(* ===================================================================== *)

Section HandlerAnswers.

Variable net : Network.
Variable hmac : str -> str -> str.
Variable JSON_parse : str -> option (option Product).
Variable env : Env.

Lemma handleProduct_shape event t :
  exists r t',
    ProductCreated.handleProduct net JSON_parse env event t = (r, t')
    /\ ((exists a, r = Ok a) \/ (exists e, r = Throw e)).
Proof.
  unfold ProductCreated.handleProduct.
  destruct (JSON_parse _) as [[product|]|].
  - destruct (id product =? 0)%N.
    + do 2 eexists. split; [reflexivity|]. left. eauto.
    + destruct (processNewProduct_shape net
                  (interpolate (SHOPIFY_SHOP env))
                  (or_else (SHOPIFY_API_VERSION env) (lit "2024-10"))
                  (interpolate (SHOPIFY_ADMIN_TOKEN env)) product t)
        as (r & t' & Hrun & Hcases).
      unfold bind. rewrite Hrun.
      destruct Hcases as [(_ & -> & _) | (_ & _ & [[-> _] | [(m & -> & _)
                                                          | (e & -> & _)]])];
        do 2 eexists; (split; [reflexivity|]); eauto.
  - do 2 eexists. split; [reflexivity|]. left. eauto.
  - do 2 eexists. split; [reflexivity|]. right. eauto.
Qed.

Lemma handler_unchecked_answers event t :
  exists a t',
    handler_unchecked net JSON_parse env event t = (Ok a, t')
    /\ handler_status (ProductCreated.statusCode a).
Proof.
  destruct (handleProduct_shape event t) as (r & t1 & Hrun & [(a & ->) | (e & ->)]).
  - exists a, t1. unfold handler_unchecked, try_catch. rewrite Hrun.
    split; [reflexivity|].
    apply handleProduct_status in Hrun. unfold handler_status. tauto.
  - do 2 eexists. unfold handler_unchecked, try_catch. rewrite Hrun.
    split; [reflexivity|]. unfold handler_status. simpl. tauto.
Qed.

(** An event that passes the check is handled as if there were none. *)
Lemma handler_when_passes event t :
  str_eqb (ProductCreated.httpMethod event) (lit "POST") = true ->
  passes_check hmac env event ->
  ProductCreated.handler net hmac JSON_parse env event t
  = handler_unchecked net JSON_parse env event t.
Proof.
  intros Hpost [Hs | [Hh | (secret & h & Hs & Hsne & Hh & Hhne & Heq)]].
  - apply handler_skips_check; auto.
  - apply handler_skips_check; auto.
  - rewrite (handler_checks net hmac JSON_parse env event t secret h)
      by assumption.
    rewrite (proj2 (str_eqb_eq _ _) Heq). reflexivity.
Qed.

Lemma handler_answers event t :
  exists a t',
    ProductCreated.handler net hmac JSON_parse env event t = (Ok a, t')
    /\ handler_status (ProductCreated.statusCode a).
Proof.
  destruct (str_eqb (ProductCreated.httpMethod event) (lit "POST")) eqn:Hpost.
  2:{ unfold ProductCreated.handler. rewrite Hpost.
      do 2 eexists. split; [reflexivity|]. left. reflexivity. }
  destruct (SHOPIFY_WEBHOOK_SECRET env) as [[|c secret]|] eqn:Hs;
    try (rewrite handler_when_passes
           by (auto; left; rewrite Hs; reflexivity);
         apply handler_unchecked_answers).
  destruct (hmac_header event) as [[|d h]|] eqn:Hh;
    try (rewrite handler_when_passes
           by (auto; right; left; rewrite Hh; reflexivity);
         apply handler_unchecked_answers).
  rewrite (handler_checks net hmac JSON_parse env event t (c :: secret) (d :: h))
    by (auto; discriminate).
  destruct (str_eqb (hmac (c :: secret) (ProductCreated.ev_body event))
              (d :: h)).
  - apply handler_unchecked_answers.
  - do 2 eexists. split; [reflexivity|]. right; left. reflexivity.
Qed.

End HandlerAnswers.

(** X14: the handler never throws: whatever the event, the network and
    the parsed body, it returns an answer, and its status code is 405,
    401, 400, 200 or 500. *)
Theorem handler_always_answers
    (net : Network) (hmac : str -> str -> str)
    (JSON_parse : str -> option (option Product)) (env : Env)
    (event : ProductCreated.WebhookEvent) (t : Trace) :
  exists a t',
    ProductCreated.handler net hmac JSON_parse env event t = (Ok a, t')
    /\ handler_status (ProductCreated.statusCode a).
Proof. apply handler_answers. Qed.

(** X15: a request that is not a POST is answered 405 without any effect;
    a POST that passes the signature check but whose body does not parse
    is answered 500, and one whose body is no product with an id is
    answered 400; in neither case is the shop contacted. *)
Theorem handler_rejects_bad_requests
    (net : Network) (hmac : str -> str -> str)
    (JSON_parse : str -> option (option Product)) (env : Env)
    (event : ProductCreated.WebhookEvent) (t : Trace) :
  (str_eqb (ProductCreated.httpMethod event) (lit "POST") = false ->
   ProductCreated.handler net hmac JSON_parse env event t
   = (Ok {| ProductCreated.statusCode := 405;
            ProductCreated.answer := ProductCreated.MethodNotAllowed |}, t))
  /\ (str_eqb (ProductCreated.httpMethod event) (lit "POST") = true ->
      passes_check hmac env event ->
      (JSON_parse (ProductCreated.ev_body event) = None ->
       ProductCreated.handler net hmac JSON_parse env event t
       = (Ok {| ProductCreated.statusCode := 500;
                ProductCreated.answer :=
                  ProductCreated.InternalError SyntaxError |},
          EvConsole (LogHandlerError SyntaxError) :: t))
      /\ (no_product JSON_parse event ->
          ProductCreated.handler net hmac JSON_parse env event t
          = (Ok invalid_data, EvConsole LogInvalidProduct :: t))).
Proof.
  split.
  - intros Hpost. unfold ProductCreated.handler. rewrite Hpost. reflexivity.
  - intros Hpost Hpass.
    rewrite (handler_when_passes net hmac JSON_parse env event t Hpost Hpass).
    unfold handler_unchecked, try_catch, ProductCreated.handleProduct.
    split.
    + intros ->. reflexivity.
    + intros [-> | (p & -> & Hid)]; [reflexivity|].
      rewrite Hid. reflexivity.
Qed.

Lemma handler_rejects_bad_requests_witness :
  str_eqb (ProductCreated.httpMethod signed_event) (lit "POST") = true
  /\ passes_check sample_hmac env_with_secret signed_event
  /\ no_product parse_nothing signed_event
  /\ ProductCreated.handler busy_net sample_hmac parse_nothing env_with_secret
       signed_event []
     = (Ok invalid_data, [EvConsole LogInvalidProduct]).
Proof.
  assert (Hpass : passes_check sample_hmac env_with_secret signed_event).
  { right; right. exists (lit "secret"), (lit "secret").
    repeat split; try reflexivity; discriminate. }
  assert (Hno : no_product parse_nothing signed_event) by (left; reflexivity).
  split; [reflexivity|]. split; [exact Hpass|]. split; [exact Hno|].
  exact (proj2 (proj2 (handler_rejects_bad_requests busy_net sample_hmac
                         parse_nothing env_with_secret signed_event [])
                  eq_refl Hpass) Hno).
Defined.

(** X16: a POST whose signature matches is handled exactly like one that
    is not checked at all: the result does not depend on the HMAC beyond
    the comparison. *)
Theorem handler_accepts_matching_signature
    (net : Network) (hmac : str -> str -> str)
    (JSON_parse : str -> option (option Product)) (env : Env)
    (event : ProductCreated.WebhookEvent) (t : Trace) (secret h : str) :
  str_eqb (ProductCreated.httpMethod event) (lit "POST") = true ->
  SHOPIFY_WEBHOOK_SECRET env = Some secret -> secret <> [] ->
  hmac_header event = Some h -> h <> [] ->
  hmac secret (ProductCreated.ev_body event) = h ->
  ProductCreated.handler net hmac JSON_parse env event t
  = handler_unchecked net JSON_parse env event t.
Proof.
  intros Hpost Hs Hsne Hh Hhne Heq. apply handler_when_passes; [exact Hpost|].
  right; right. exists secret, h. auto.
Qed.

Lemma handler_accepts_matching_signature_witness :
  ProductCreated.handler (shop_net [p_described] (always 200) (always 200))
    sample_hmac parse_described env_with_secret signed_event []
  = (Ok {| ProductCreated.statusCode := 200;
           ProductCreated.answer :=
             ProductCreated.Processed true false 5 (title p_described) 0
               false false |}, []).
Proof.
  rewrite (handler_accepts_matching_signature
             (shop_net [p_described] (always 200) (always 200))
             sample_hmac parse_described env_with_secret signed_event []
             (lit "secret") (lit "secret") eq_refl eq_refl
             ltac:(discriminate) eq_refl ltac:(discriminate) eq_refl).
  reflexivity.
Defined.

(* ===================================================================== *)
(** ** [fetchAllProducts]: what a result means, and when there is none     *)
(* ===================================================================== *)

Lemma fetchAllProducts_loop_inv (net : Network) (TOKEN : str) :
  forall fuel url allProducts t l t',
    url <> [] ->
    Batch.fetchAllProducts_loop net fuel TOKEN (Some url) allProducts t
    = (Ok l, t') ->
    exists pages,
      page_chain net TOKEN t url pages t'
      /\ l = allProducts ++ concat pages
      /\ length pages <= fuel.
Proof.
  induction fuel as [|fuel IH]; intros url allProducts t l t' Hurl Hrun;
    (destruct url as [|c url]; [congruence|]); simpl in Hrun.
  - discriminate.
  - unfold bind at 1 in Hrun. fold (page_options TOKEN) in Hrun.
    destruct (Batch.shopifyFetch net (c :: url) (page_options TOKEN)
                Batch.default_retries t) as [[res|e|] t1] eqn:Hfetch;
      try discriminate.
    unfold bind at 1, json in Hrun.
    destruct (json_body res) as [data|] eqn:Hjson; [|discriminate].
    unfold ret at 1 in Hrun.
    destruct (Batch.nextUrl res) as [url'|] eqn:Hnext.
    + apply IH in Hrun; [|eapply nextUrl_nonempty; eassumption].
      destruct Hrun as (pages & Hchain & -> & Hlen).
      exists (products data :: pages). split; [|split].
      * eapply page_chain_next; eassumption.
      * simpl. rewrite app_assoc. reflexivity.
      * simpl. lia.
    + assert (Hend : (l, t') = (allProducts ++ products data, t1)).
      { destruct fuel; simpl in Hrun; inversion Hrun; reflexivity. }
      inversion Hend; subst.
      exists [products data]. split; [|split].
      * eapply page_chain_last; eassumption.
      * simpl. rewrite app_nil_r. reflexivity.
      * simpl. lia.
Qed.

Lemma products_url_nonempty (SHOP API_VERSION : str) :
  Batch.products_url SHOP API_VERSION <> [].
Proof. discriminate. Qed.

(** X17: whenever [fetchAllProducts] returns a list, every page from the
    first address on was fetched without error and parsed, the last one
    had no [next] link, and the list is the concatenation of the
    [products] of these pages in order: an error on any page leaves no
    partial list. *)
Theorem fetchAllProducts_result_is_a_page_chain
    (net : Network) (fuel : nat) (SHOP API_VERSION TOKEN : str)
    (t : Trace) (l : list Product) (t' : Trace) :
  Batch.fetchAllProducts net fuel SHOP API_VERSION TOKEN t = (Ok l, t') ->
  exists pages,
    page_chain net TOKEN t (Batch.products_url SHOP API_VERSION) pages t'
    /\ l = concat pages
    /\ length pages <= fuel.
Proof.
  intros Hrun. unfold Batch.fetchAllProducts in Hrun.
  apply fetchAllProducts_loop_inv in Hrun; [|apply products_url_nonempty].
  exact Hrun.
Qed.

Lemma fetchAllProducts_result_is_a_page_chain_witness :
  exists pages,
    page_chain three_pages token []
      (Batch.products_url (lit "shop.example") (lit "2025-01")) pages
      [EvFetch page3_url (page_options token);
       EvFetch page2_url (page_options token);
       EvFetch page1_url (page_options token)]
    /\ [p1; p2; p3] = concat pages
    /\ length pages <= 3.
Proof.
  exact (fetchAllProducts_result_is_a_page_chain three_pages 3
           (lit "shop.example") (lit "2025-01") token [] [p1; p2; p3] _
           eq_refl).
Defined.

Lemma fetchAllProducts_loop_endless (net : Network) (TOKEN : str)
    (P : str -> Prop) :
  endless net TOKEN P ->
  forall fuel url allProducts t,
    P url -> url <> [] ->
    fst (Batch.fetchAllProducts_loop net fuel TOKEN (Some url) allProducts t)
    = OutOfFuel.
Proof.
  intros Hend.
  induction fuel as [|fuel IH]; intros url allProducts t HP Hurl;
    (destruct url as [|c url]; [congruence|]); simpl.
  - reflexivity.
  - destruct (Hend _ t HP) as (res & data & t1 & url' & Hfetch & Hjson
                               & Hnext & HP').
    unfold bind at 1. fold (page_options TOKEN). rewrite Hfetch.
    unfold bind at 1, json. rewrite Hjson. unfold ret at 1. rewrite Hnext.
    apply IH; [exact HP'|]. eapply nextUrl_nonempty; eassumption.
Qed.

(** X18: the loop has no guard against [next] links that lead back: when
    the first address lies in a set of addresses whose pages all link into
    the set again, [fetchAllProducts] returns after no number of turns. *)
Theorem fetchAllProducts_never_returns_on_a_cycle
    (net : Network) (SHOP API_VERSION TOKEN : str) (P : str -> Prop) :
  endless net TOKEN P ->
  P (Batch.products_url SHOP API_VERSION) ->
  forall fuel t,
    fst (Batch.fetchAllProducts net fuel SHOP API_VERSION TOKEN t) = OutOfFuel.
Proof.
  intros Hend HP fuel t. unfold Batch.fetchAllProducts.
  eapply fetchAllProducts_loop_endless; eauto using products_url_nonempty.
Qed.

Lemma looping_net_endless : endless looping_net token (fun u => u = page1_url).
Proof.
  intros url t ->.
  exists (page (Some (link_next page1_url)) [p1]),
         {| products := [p1]; metafields := None |},
         (EvFetch page1_url (page_options token) :: t), page1_url.
  repeat split; reflexivity.
Qed.

Lemma fetchAllProducts_never_returns_on_a_cycle_witness :
  endless looping_net token (fun u => u = page1_url)
  /\ forall fuel t,
       fst (Batch.fetchAllProducts looping_net fuel (lit "shop.example")
              (lit "2025-01") token t) = OutOfFuel.
Proof.
  split; [exact looping_net_endless|].
  exact (fetchAllProducts_never_returns_on_a_cycle looping_net
           (lit "shop.example") (lit "2025-01") token (fun u => u = page1_url)
           looping_net_endless eq_refl).
Defined.

(* ===================================================================== *)
(** ** The barcodes of the batch script and the position in the catalog    *)
(* ===================================================================== *)

Lemma barcode_length_13_iff (productId index : N) :
  length (Barcode.generateUniqueBarcode productId index) = 13
  <-> (index < 1000)%N.
Proof.
  destruct (generateUniqueBarcode_digits productId index)
    as (L & c & HL & HF & Hlen & Hc & ->).
  rewrite length_map, length_app, Hlen, <- String_of_N_length_3.
  change (length [c]) with 1. lia.
Qed.

Lemma barcode_length_at_least_13 (productId index : N) :
  13 <= length (Barcode.generateUniqueBarcode productId index).
Proof.
  destruct (generateUniqueBarcode_digits productId index)
    as (L & c & HL & HF & Hlen & Hc & ->).
  rewrite length_map, length_app, Hlen. change (length [c]) with 1. lia.
Qed.

(** A turn of the variants loop leaves the state as it is or adds one of
    the first 99 candidates. *)
Lemma variant_step_candidate product productIndex variantIndex variant st t
    st' t' :
  UpdateProductsBarra.variant_step product productIndex variantIndex variant
    st t = (Ok st', t') ->
  st' = st
  \/ exists j, (j < 99)%N
       /\ st' = with_barcode st variant
                  (candidate product productIndex variantIndex j).
Proof.
  unfold UpdateProductsBarra.variant_step.
  destruct (truthy (barcode variant)); cbn [negb].
  - intros H. inversion H. left. reflexivity.
  - destruct (UpdateProductsBarra.doWhile _ _ _ _ _) as [b a] eqn:Hdo.
    apply doWhile_of_variant in Hdo.
    destruct Hdo as (Ha & Hcand & _ & _).
    destruct (UpdateProductsBarra.maxAttempts <=? a)%N eqn:Hmax.
    + intros H. inversion H. left. reflexivity.
    + intros H. inversion H. right. exists (a - 1)%N.
      apply N.leb_gt in Hmax. unfold UpdateProductsBarra.maxAttempts in Hmax.
      split; [lia|]. rewrite Hcand. reflexivity.
Qed.

Lemma variants_loop_candidates product productIndex :
  forall vs variantIndex st t st' t',
    UpdateProductsBarra.variants_loop product productIndex variantIndex vs
      st t = (Ok st', t') ->
    exists news,
      UpdateProductsBarra.vs_updatedVariants st'
      = UpdateProductsBarra.vs_updatedVariants st ++ news
      /\ forall u, In u news ->
           exists k j, (k < N.of_nat (length vs))%N /\ (j < 99)%N
             /\ uv_barcode u
                = candidate product productIndex (variantIndex + k) j.
Proof.
  intros vs. induction vs as [|variant rest IH];
    intros variantIndex st t st' t' Hrun; simpl in Hrun.
  - inversion Hrun. exists []. rewrite app_nil_r. split; [reflexivity|].
    intros u [].
  - unfold bind at 1 in Hrun.
    destruct (UpdateProductsBarra.variant_step product productIndex
                variantIndex variant st t) as [[st1| |] t1] eqn:Hstep;
      try discriminate.
    apply IH in Hrun. destruct Hrun as (news & Hnews & Hall).
    assert (Hshift : forall u, In u news ->
              exists k j, (k < N.of_nat (length (variant :: rest)))%N
                /\ (j < 99)%N
                /\ uv_barcode u
                   = candidate product productIndex (variantIndex + k) j).
    { intros u Hu. destruct (Hall u Hu) as (k & j & Hk & Hj & Hb).
      exists (1 + k)%N, j. split; [simpl length; lia|]. split; [exact Hj|].
      rewrite Hb. f_equal. lia. }
    apply variant_step_candidate in Hstep.
    destruct Hstep as [-> | (j & Hj & ->)].
    + exists news. split; [exact Hnews | exact Hshift].
    + exists ({| uv_id := variant_id variant;
                 uv_barcode := candidate product productIndex variantIndex j |}
              :: news).
      split.
      * rewrite Hnews. simpl. rewrite <- app_assoc. reflexivity.
      * intros u [<- | Hu]; [|apply Hshift; exact Hu].
        exists 0%N, j. split; [simpl length; lia|]. split; [exact Hj|].
        simpl. f_equal. lia.
Qed.

(** X19: the index the batch script gives to [generateUniqueBarcode]
    starts at 100 times the position of the product in the catalog.  So
    every barcode generated for a product at position 10 or later has more
    than 13 characters and is no EAN-13 code, while the barcodes of a
    product whose position and number of variants keep
    [100 * position + variants + 98] within 1000 are all valid. *)
Theorem batch_barcodes_valid_only_for_first_products
    (product : Product) (productIndex : N)
    (st : UpdateProductsBarra.LoopState) (t : Trace)
    (vst : UpdateProductsBarra.VariantsState) (t' : Trace) :
  UpdateProductsBarra.variants_loop product productIndex 0 (variants product)
    (variants_start st) t = (Ok vst, t') ->
  ((10 <= productIndex)%N ->
   forall u, In u (UpdateProductsBarra.vs_updatedVariants vst) ->
     13 < length (uv_barcode u) /\ is_ean13 (uv_barcode u) = false)
  /\ ((productIndex * 100 + N.of_nat (length (variants product)) + 98
       <= 1000)%N ->
      forall u, In u (UpdateProductsBarra.vs_updatedVariants vst) ->
        is_ean13 (uv_barcode u) = true).
Proof.
  intros Hrun. apply variants_loop_candidates in Hrun.
  destruct Hrun as (news & Hnews & Hall). simpl in Hnews. rewrite Hnews.
  split.
  - intros Hlate u Hu. destruct (Hall u Hu) as (k & j & Hk & Hj & ->).
    unfold candidate.
    assert (Hlen : 13 < length (Barcode.generateUniqueBarcode (id product)
                                  (productIndex * 100 + (0 + k) + j))).
    { pose proof (barcode_length_at_least_13 (id product)
                    (productIndex * 100 + (0 + k) + j)) as Hge.
      pose proof (barcode_length_13_iff (id product)
                    (productIndex * 100 + (0 + k) + j)) as Hiff.
      destruct (Nat.eq_dec
                  (length (Barcode.generateUniqueBarcode (id product)
                             (productIndex * 100 + (0 + k) + j))) 13)
        as [Heq | Hne]; [|lia].
      apply Hiff in Heq. lia. }
    split; [exact Hlen|].
    unfold is_ean13.
    replace (Nat.eqb _ 13) with false
      by (symmetry; apply Nat.eqb_neq; lia).
    reflexivity.
  - intros Hearly u Hu. destruct (Hall u Hu) as (k & j & Hk & Hj & ->).
    unfold candidate. apply generateUniqueBarcode_ean13. lia.
Qed.

Lemma batch_barcodes_valid_only_for_first_products_witness :
  UpdateProductsBarra.variants_loop p_late 10 0 (variants p_late)
    (variants_start (barra_initial [])) []
  = (Ok (with_barcode (variants_start (barra_initial []))
           {| variant_id := 70; barcode := None |} (lit "20000004210001")),
     [])
  /\ (10 <= 10)%N
  /\ 13 < length (lit "20000004210001")
  /\ is_ean13 (lit "20000004210001") = false.
Proof.
  split; [reflexivity|]. split; [discriminate|].
  exact (proj1 (batch_barcodes_valid_only_for_first_products p_late 10
                  (barra_initial []) [] _ [] eq_refl)
           ltac:(discriminate)
           {| uv_id := 70; uv_barcode := lit "20000004210001" |}
           (or_introl eq_refl)).
Defined.

(* ===================================================================== *)
(** ** [updateProducts]: how a run ends                                    *)
(* ===================================================================== *)

Section RunEnds.

Variable net : Network.
Variables SHOP API_VERSION TOKEN : str.

(** The loop over the products ends, normally or by an exception. *)
Lemma barra_loop_ends :
  forall ps productIndex st t,
    exists t',
      (exists st', UpdateProductsBarra.products_loop net SHOP API_VERSION
                     TOKEN productIndex ps st t = (Ok st', t'))
      \/ (exists e, UpdateProductsBarra.products_loop net SHOP API_VERSION
                      TOKEN productIndex ps st t = (Throw e, t')).
Proof.
  intros ps. induction ps as [|p rest IH]; intros productIndex st t; simpl.
  - exists t. left. exists st. reflexivity.
  - pose proof (barra_step_turn net SHOP API_VERSION TOKEN productIndex p st t)
      as Hturn.
    destruct (UpdateProductsBarra.product_step _ _ _ _ _ _ _ _)
      as [r1 t1] eqn:E.
    inversion Hturn; subst;
      try (rewrite (bind_ok E); apply IH);
      rewrite (bind_throw E); eexists; right; eexists; reflexivity.
Qed.

Lemma plain_loop_ends :
  forall ps updated t,
    exists t',
      (exists updated', UpdateProducts.products_loop net SHOP API_VERSION
                          TOKEN ps updated t = (Ok updated', t'))
      \/ (exists e, UpdateProducts.products_loop net SHOP API_VERSION
                      TOKEN ps updated t = (Throw e, t')).
Proof.
  intros ps. induction ps as [|p rest IH]; intros updated t; simpl.
  - exists t. left. exists updated. reflexivity.
  - pose proof (plain_step_turn net SHOP API_VERSION TOKEN p updated t)
      as Hturn.
    destruct (UpdateProducts.product_step _ _ _ _ _ _ _) as [r1 t1] eqn:E.
    inversion Hturn; subst;
      try (rewrite (bind_ok E); apply IH);
      rewrite (bind_throw E); eexists; right; eexists; reflexivity.
Qed.

End RunEnds.

(** Both scripts end without an exception, unless the pagination does not
    end. *)
Lemma barra_updateProducts_ends net env fuel t :
  (exists t', UpdateProductsBarra.updateProducts net env fuel t = (Ok tt, t'))
  \/ (fst (UpdateProductsBarra.updateProducts net env fuel t) = OutOfFuel
      /\ fst (Batch.fetchAllProducts net fuel (or_else (SHOPIFY_SHOP env) [])
                (or_else (SHOPIFY_API_VERSION env) (lit "2025-01"))
                (or_else (SHOPIFY_ADMIN_TOKEN env) []) t) = OutOfFuel).
Proof.
  unfold UpdateProductsBarra.updateProducts.
  destruct (negb (truthy (SHOPIFY_SHOP env))
            || negb (truthy (SHOPIFY_ADMIN_TOKEN env))).
  - left. eexists. reflexivity.
  - destruct (Batch.fetchAllProducts net fuel (or_else (SHOPIFY_SHOP env) [])
                (or_else (SHOPIFY_API_VERSION env) (lit "2025-01"))
                (or_else (SHOPIFY_ADMIN_TOKEN env) []) t)
      as [[ps|e|] t1] eqn:Hf; unfold try_catch, bind; rewrite Hf.
    + destruct (barra_loop_ends net (or_else (SHOPIFY_SHOP env) [])
                  (or_else (SHOPIFY_API_VERSION env) (lit "2025-01"))
                  (or_else (SHOPIFY_ADMIN_TOKEN env) []) ps 0%N
                  (barra_initial ps) t1)
        as (t2 & [(st' & Hloop) | (e & Hloop)]);
        unfold barra_initial in Hloop; rewrite Hloop;
        left; eexists; reflexivity.
    + left. eexists. reflexivity.
    + right. split; reflexivity.
Qed.

Lemma plain_updateProducts_ends net env fuel t :
  (exists t', UpdateProducts.updateProducts net env fuel t = (Ok tt, t'))
  \/ (fst (UpdateProducts.updateProducts net env fuel t) = OutOfFuel
      /\ fst (Batch.fetchAllProducts net fuel (or_else (SHOPIFY_SHOP env) [])
                (or_else (SHOPIFY_API_VERSION env) (lit "2025-01"))
                (or_else (SHOPIFY_ADMIN_TOKEN env) []) t) = OutOfFuel).
Proof.
  unfold UpdateProducts.updateProducts.
  destruct (negb (truthy (SHOPIFY_SHOP env))
            || negb (truthy (SHOPIFY_ADMIN_TOKEN env))).
  - left. eexists. reflexivity.
  - destruct (Batch.fetchAllProducts net fuel (or_else (SHOPIFY_SHOP env) [])
                (or_else (SHOPIFY_API_VERSION env) (lit "2025-01"))
                (or_else (SHOPIFY_ADMIN_TOKEN env) []) t)
      as [[ps|e|] t1] eqn:Hf; unfold try_catch, bind; rewrite Hf.
    + destruct (plain_loop_ends net (or_else (SHOPIFY_SHOP env) [])
                  (or_else (SHOPIFY_API_VERSION env) (lit "2025-01"))
                  (or_else (SHOPIFY_ADMIN_TOKEN env) []) ps [] t1)
        as (t2 & [(st' & Hloop) | (e & Hloop)]);
        rewrite Hloop; left; eexists; reflexivity.
    + left. eexists. reflexivity.
    + right. split; reflexivity.
Qed.

(** X20: [updateProducts] never throws, in either script: whatever the
    shop answers, the run ends normally (errors end up in the log), and
    the only way not to end is a pagination that does not end. *)
Theorem updateProducts_never_throws
    (net : Network) (env : Env) (fuel : nat) (t : Trace) :
  let pages :=
    Batch.fetchAllProducts net fuel (or_else (SHOPIFY_SHOP env) [])
      (or_else (SHOPIFY_API_VERSION env) (lit "2025-01"))
      (or_else (SHOPIFY_ADMIN_TOKEN env) []) t in
  ((exists t', UpdateProductsBarra.updateProducts net env fuel t = (Ok tt, t'))
   \/ (fst (UpdateProductsBarra.updateProducts net env fuel t) = OutOfFuel
       /\ fst pages = OutOfFuel))
  /\ ((exists t', UpdateProducts.updateProducts net env fuel t = (Ok tt, t'))
      \/ (fst (UpdateProducts.updateProducts net env fuel t) = OutOfFuel
          /\ fst pages = OutOfFuel)).
Proof.
  intros pages. split.
  - apply barra_updateProducts_ends.
  - apply plain_updateProducts_ends.
Qed.

(* ===================================================================== *)
(** ** The barcodes in the updates of a run                                *)
(* ===================================================================== *)

Lemma NoDup_app_disjoint {A} (l1 l2 : list A) (b : A) :
  NoDup (l1 ++ l2) -> In b l1 -> In b l2 -> False.
Proof.
  induction l1 as [|a l1 IH]; simpl; intros Hnd H1 H2; [destruct H1|].
  inversion Hnd as [|x l Hnot Hnd']; subst.
  destruct H1 as [-> | H1].
  - apply Hnot. apply in_or_app. right. exact H2.
  - exact (IH Hnd' H1 H2).
Qed.

Lemma NoDup_concat_part {A B} (f : A -> list B) (l : list A) (x : A) :
  NoDup (concat (map f l)) -> In x l -> NoDup (f x).
Proof.
  induction l as [|a l IH]; simpl; intros Hnd Hx; [destruct Hx|].
  destruct Hx as [-> | Hx].
  - exact (NoDup_app_remove_r _ _ Hnd).
  - apply IH; [exact (NoDup_app_remove_l _ _ Hnd) | exact Hx].
Qed.

Lemma NoDup_concat_same {A B} (f : A -> list B) (l : list A) (x y : A) (b : B) :
  NoDup (concat (map f l)) -> In x l -> In y l ->
  In b (f x) -> In b (f y) -> x = y.
Proof.
  induction l as [|a l IH]; simpl; intros Hnd Hx Hy Hbx Hby; [destruct Hx|].
  assert (Hlater : forall z, In z l -> In b (f z) ->
                             In b (concat (map f l))).
  { intros z Hz Hbz. apply in_concat. exists (f z).
    split; [apply in_map; exact Hz | exact Hbz]. }
  destruct Hx as [-> | Hx], Hy as [-> | Hy].
  - reflexivity.
  - exfalso. exact (NoDup_app_disjoint _ _ b Hnd Hbx (Hlater y Hy Hby)).
  - exfalso. exact (NoDup_app_disjoint _ _ b Hnd Hby (Hlater x Hx Hbx)).
  - exact (IH (NoDup_app_remove_l _ _ Hnd) Hx Hy Hbx Hby).
Qed.

Lemma payload_barcodes_barra product description us :
  payload_barcodes (UpdateProductsBarra.updatePayload product description us)
  = map uv_barcode us.
Proof. destruct us; reflexivity. Qed.

Section RunUpdates.

Variable net : Network.
Variables SHOP API_VERSION TOKEN : str.

(** The updates a run of the loop adds to the trace: one payload for each
    turn that reaches its update; their barcodes are pairwise distinct
    and none was in the set the loop started with. *)
Lemma barra_loop_updates :
  forall ps productIndex st t,
    exists turns : list (str * ProductPayload),
      (forall url options pp,
          In (EvFetch url options)
            (snd (UpdateProductsBarra.products_loop net SHOP API_VERSION
                    TOKEN productIndex ps st t)) ->
          body options = Some (PayloadProduct pp) ->
          In (EvFetch url options) t \/ In (url, pp) turns)
      /\ NoDup (concat (map (fun turn => payload_barcodes (snd turn)) turns))
      /\ (forall b,
             In b (concat (map (fun turn => payload_barcodes (snd turn))
                             turns)) ->
             ~ In b (UpdateProductsBarra.existingBarcodes st)).
Proof.
  intros ps. induction ps as [|p rest IH]; intros productIndex st t.
  - exists []. split; [intros url options pp Hin _; left; exact Hin|].
    split; [constructor | intros b []].
  - cbn [UpdateProductsBarra.products_loop].
    destruct (truthy (Batch.tagMatch p)) eqn:Htag.
    2:{ rewrite (bind_ok (barra_step_skip net SHOP API_VERSION TOKEN
                            productIndex p st t Htag)).
        apply IH. }
    destruct (get_metafields net SHOP API_VERSION TOKEN p t)
      as [r1 t1] eqn:H1.
    assert (Hold : forall url options pp,
               In (EvFetch url options) t1 ->
               body options = Some (PayloadProduct pp) ->
               In (EvFetch url options) t).
    { intros url options pp Hin Hbody.
      destruct (get_metafields_requests net SHOP API_VERSION TOKEN p t r1 t1
                  H1) as (_ & Ho & _).
      destruct (Ho _ _ Hin) as [H | [_ ->]]; [exact H | discriminate Hbody]. }
    assert (Hstopped : forall e,
               UpdateProductsBarra.product_step net SHOP API_VERSION TOKEN
                 productIndex p st t = (Throw e, t1) ->
               exists turns : list (str * ProductPayload),
                 (forall url options pp,
                     In (EvFetch url options)
                       (snd (bind (UpdateProductsBarra.product_step net SHOP
                                     API_VERSION TOKEN productIndex p st)
                               (fun st' =>
                                  UpdateProductsBarra.products_loop net SHOP
                                    API_VERSION TOKEN (productIndex + 1) rest
                                    st') t)) ->
                     body options = Some (PayloadProduct pp) ->
                     In (EvFetch url options) t \/ In (url, pp) turns)
                 /\ NoDup (concat (map (fun turn => payload_barcodes (snd turn))
                                     turns))
                 /\ (forall b,
                        In b (concat (map (fun turn =>
                                             payload_barcodes (snd turn))
                                        turns)) ->
                        ~ In b (UpdateProductsBarra.existingBarcodes st))).
    { intros e Hstep. exists []. rewrite (bind_throw Hstep).
      split; [intros url options pp Hin Hbody; left; eauto|].
      split; [constructor | intros b []]. }
    destruct r1 as [res|e|].
    + destruct (json_body res) as [data|] eqn:Hj.
      2:{ apply (Hstopped SyntaxError).
          eapply barra_step_metafields_not_json; eassumption. }
      destruct (barra_turn_after_metafields net SHOP API_VERSION TOKEN
                  productIndex p st t res t1 data Htag H1 Hj)
        as (vst & t2 & st' & t' & H2 & Hstep & Hset' & _ & _ & Ho).
      rewrite (bind_ok Hstep).
      destruct (IH (productIndex + 1)%N st' t') as (turns & Hin & Hnd & Hfresh).
      destruct (variants_loop_fresh _ _ _ _ _ _ _ _ H2)
        as (new & Hnew & Hnd1 & Hfresh1 & Hset).
      simpl in Hnew, Hfresh1, Hset.
      exists ((Batch.product_url SHOP API_VERSION (id p),
               UpdateProductsBarra.updatePayload p
                 (Batch.descriptionOf (or_else (Batch.tagMatch p) []) p data)
                 (UpdateProductsBarra.vs_updatedVariants vst)) :: turns).
      cbn [map concat snd]. rewrite payload_barcodes_barra, Hnew.
      split; [|split].
      * intros url options pp Hev Hbody.
        destruct (Hin url options pp Hev Hbody) as [Hev' | Hturn];
          [|right; right; exact Hturn].
        destruct (Ho _ _ Hev') as [Hev0 | [[_ ->] | [-> ->]]].
        -- left. exact Hev0.
        -- discriminate Hbody.
        -- right. left. unfold put_options, barra_payload in Hbody.
           simpl in Hbody. inversion Hbody. rewrite Hnew. reflexivity.
      * apply NoDup_app; [exact Hnd1 | exact Hnd|].
        intros b Hb Hb'. apply (Hfresh b Hb'). rewrite Hset'. apply Hset.
        right. exact Hb.
      * intros b Hb. apply in_app_or in Hb. destruct Hb as [Hb | Hb].
        -- apply Hfresh1. exact Hb.
        -- intros Hold'. apply (Hfresh b Hb). rewrite Hset'. apply Hset.
           left. exact Hold'.
    + apply (Hstopped e).
      apply barra_step_metafields_throw; assumption.
    + exfalso.
      destruct (batch_shopifyFetch_total net
                  (Batch.metafields_url SHOP API_VERSION p)
                  (metafields_options TOKEN) Batch.default_retries t)
        as (t1' & [(res & H) | (e & H)]);
        unfold get_metafields in H1; rewrite H in H1; discriminate.
Qed.

(** The pagination only asks for pages. *)
Lemma fetchAllProducts_loop_requests :
  forall fuel url allProducts t,
    only_fetches (fun _ options => options = page_options TOKEN) t
      (snd (Batch.fetchAllProducts_loop net fuel TOKEN url allProducts t)).
Proof.
  induction fuel as [|fuel IH]; intros url allProducts t;
    (destruct url as [[|c url]|]; simpl; [apply only_fetches_refl| |
                                          apply only_fetches_refl]).
  - apply only_fetches_refl.
  - unfold bind at 1. fold (page_options TOKEN).
    destruct (Batch.shopifyFetch net (c :: url) (page_options TOKEN)
                Batch.default_retries t) as [r t1] eqn:Hfetch.
    assert (Hfirst : only_fetches (fun _ options => options = page_options TOKEN)
                       t t1).
    { destruct (batch_shopifyFetch_trace _ _ _ _ _ _ _ Hfetch) as (_ & Ho & _).
      eapply only_fetches_weaken; [|exact Ho]. intros u o [_ H]. exact H. }
    destruct r as [res|e|]; try exact Hfirst.
    unfold bind at 1, json.
    destruct (json_body res) as [data|]; [|exact Hfirst].
    unfold ret at 1.
    eapply only_fetches_trans; [exact Hfirst | apply IH].
Qed.

End RunUpdates.

(** What [updateProducts] does once the catalog is there. *)
Lemma barra_updateProducts_trace net env fuel ps t1 :
  truthy (SHOPIFY_SHOP env) = true -> truthy (SHOPIFY_ADMIN_TOKEN env) = true ->
  Batch.fetchAllProducts net fuel (or_else (SHOPIFY_SHOP env) [])
    (or_else (SHOPIFY_API_VERSION env) (lit "2025-01"))
    (or_else (SHOPIFY_ADMIN_TOKEN env) []) [] = (Ok ps, t1) ->
  forall url options,
    In (EvFetch url options)
      (snd (UpdateProductsBarra.updateProducts net env fuel [])) ->
    In (EvFetch url options)
      (snd (UpdateProductsBarra.products_loop net
              (or_else (SHOPIFY_SHOP env) [])
              (or_else (SHOPIFY_API_VERSION env) (lit "2025-01"))
              (or_else (SHOPIFY_ADMIN_TOKEN env) []) 0 ps
              (barra_initial ps) t1)).
Proof.
  intros Hshop Htoken Hfetch url options.
  unfold UpdateProductsBarra.updateProducts. rewrite Hshop, Htoken.
  cbn [negb orb]. unfold try_catch. rewrite (bind_ok Hfetch).
  fold (barra_initial ps).
  destruct (UpdateProductsBarra.products_loop net _ _ _ 0 ps
              (barra_initial ps) t1) as [[st'|e|] t2] eqn:Hloop;
    unfold bind; rewrite Hloop; simpl.
  - intros H. exact H.
  - intros [H | H]; [discriminate | exact H].
  - intros H. exact H.
Qed.

(** X21: in a run of [update-products-barra.js] the barcodes of an update
    request are pairwise distinct, none of them is a barcode a variant of
    the fetched catalog already had, and two update requests that carry
    the same barcode are the same request (a retry): no barcode is given
    to two products. *)
Theorem batch_generated_barcodes_are_new
    (net : Network) (env : Env) (fuel : nat)
    (url1 : str) (pp1 : ProductPayload) :
  let run := UpdateProductsBarra.updateProducts net env fuel [] in
  update_in (snd run) url1 pp1 ->
  NoDup (payload_barcodes pp1)
  /\ (forall ps t1,
         Batch.fetchAllProducts net fuel (or_else (SHOPIFY_SHOP env) [])
           (or_else (SHOPIFY_API_VERSION env) (lit "2025-01"))
           (or_else (SHOPIFY_ADMIN_TOKEN env) []) [] = (Ok ps, t1) ->
         forall b, In b (payload_barcodes pp1) -> ~ present_barcode ps b)
  /\ (forall url2 pp2 b,
         update_in (snd run) url2 pp2 ->
         In b (payload_barcodes pp1) -> In b (payload_barcodes pp2) ->
         url1 = url2 /\ pp1 = pp2).
Proof.
  intros run Hup1.
  assert (Hno : forall t url pp,
             (forall u o, In (EvFetch u o) t -> body o = None) ->
             ~ update_in t url pp).
  { intros t url pp Hnone (o & Hin & Hbody).
    rewrite (Hnone _ _ Hin) in Hbody. discriminate. }
  destruct (truthy (SHOPIFY_SHOP env)) eqn:Hshop.
  2:{ exfalso. revert Hup1. apply Hno. unfold run.
      unfold UpdateProductsBarra.updateProducts. rewrite Hshop.
      intros u o [H | []]. discriminate H. }
  destruct (truthy (SHOPIFY_ADMIN_TOKEN env)) eqn:Htoken.
  2:{ exfalso. revert Hup1. apply Hno. unfold run.
      unfold UpdateProductsBarra.updateProducts. rewrite Hshop, Htoken.
      intros u o [H | []]. discriminate H. }
  destruct (Batch.fetchAllProducts net fuel (or_else (SHOPIFY_SHOP env) [])
              (or_else (SHOPIFY_API_VERSION env) (lit "2025-01"))
              (or_else (SHOPIFY_ADMIN_TOKEN env) []) []) as [r0 t1] eqn:Hfetch.
  assert (Hpages : forall u o, In (EvFetch u o) t1 -> body o = None).
  { intros u o Hin.
    pose proof (fetchAllProducts_loop_requests net
                  (or_else (SHOPIFY_ADMIN_TOKEN env) []) fuel
                  (Some (Batch.products_url (or_else (SHOPIFY_SHOP env) [])
                           (or_else (SHOPIFY_API_VERSION env) (lit "2025-01"))))
                  [] []) as Ho.
    unfold Batch.fetchAllProducts in Hfetch. rewrite Hfetch in Ho.
    destruct (Ho _ _ Hin) as [[] | ->]. reflexivity. }
  destruct r0 as [ps|e|].
  2:{ exfalso. revert Hup1. apply Hno. unfold run.
      unfold UpdateProductsBarra.updateProducts. rewrite Hshop, Htoken.
      cbn [negb orb]. unfold try_catch. rewrite (bind_throw Hfetch).
      intros u o [H | H]; [discriminate H | eauto]. }
  2:{ exfalso. revert Hup1. apply Hno. unfold run.
      unfold UpdateProductsBarra.updateProducts. rewrite Hshop, Htoken.
      cbn [negb orb]. unfold try_catch, bind at 1. rewrite Hfetch.
      exact Hpages. }
  destruct (barra_loop_updates net (or_else (SHOPIFY_SHOP env) [])
              (or_else (SHOPIFY_API_VERSION env) (lit "2025-01"))
              (or_else (SHOPIFY_ADMIN_TOKEN env) []) ps 0%N
              (barra_initial ps) t1) as (turns & Hin & Hnd & Hfresh).
  assert (Hturn : forall url pp, update_in (snd run) url pp ->
                                 In (url, pp) turns).
  { intros url pp (o & Hev & Hbody).
    apply (barra_updateProducts_trace net env fuel ps t1 Hshop Htoken Hfetch)
      in Hev.
    destruct (Hin url o pp Hev Hbody) as [Hold | Hturn]; [|exact Hturn].
    rewrite (Hpages _ _ Hold) in Hbody. discriminate. }
  pose proof (Hturn _ _ Hup1) as H1.
  split; [|split].
  - exact (NoDup_concat_part (fun turn => payload_barcodes (snd turn)) turns
             (url1, pp1) Hnd H1).
  - intros ps' t1' Heq b Hb Hpresent. inversion Heq; subst ps' t1'.
    apply (Hfresh b).
    + apply in_concat. exists (payload_barcodes pp1).
      split; [|exact Hb].
      apply (in_map (fun turn => payload_barcodes (snd turn)) turns
               (url1, pp1) H1).
    + apply getExistingBarcodes_present. exact Hpresent.
  - intros url2 pp2 b Hup2 Hb1 Hb2.
    pose proof (Hturn _ _ Hup2) as H2.
    pose proof (NoDup_concat_same (fun turn => payload_barcodes (snd turn))
                  turns (url1, pp1) (url2, pp2) b Hnd H1 H2 Hb1 Hb2) as Heq.
    inversion Heq. split; reflexivity.
Qed.

Lemma batch_generated_barcodes_are_new_witness :
  let net := shop_net [p_clash] (always 200) (always 200) in
  let pp :=
    UpdateProductsBarra.updatePayload p_clash
      (Batch.descriptionOf (lit "all-jumpers") p_clash
         {| products := []; metafields := Some [] |})
      [{| uv_id := 11; uv_barcode := lit "2000000010021" |}] in
  update_in (snd (UpdateProductsBarra.updateProducts net sample_env 1 []))
    (Batch.product_url shop api 1) pp
  /\ NoDup (payload_barcodes pp)
  /\ ~ present_barcode [p_clash] (lit "2000000010021").
Proof.
  intros net pp.
  assert (Hup : update_in
                  (snd (UpdateProductsBarra.updateProducts net sample_env 1 []))
                  (Batch.product_url shop api 1) pp).
  { exists (put_options token (PayloadProduct pp)).
    split; [right; left; reflexivity | reflexivity]. }
  split; [exact Hup|].
  destruct (batch_generated_barcodes_are_new net sample_env 1 _ _ Hup)
    as (Hnd & Hcatalog & _).
  split; [exact Hnd|].
  apply (Hcatalog [p_clash] _ eq_refl). left. reflexivity.
Defined.

(* ===================================================================== *)
(** ** The [link] header: what the regular expression finds                *)
(* ===================================================================== *)

Lemma span_not_spec (c : ascii) :
  forall s run after,
    span_not c s = (run, after) -> s = run ++ after /\ ~ In c run.
Proof.
  induction s as [|x s IH]; intros run after H; simpl in H.
  - inversion H. split; [reflexivity | intros []].
  - destruct (Ascii.eqb x c) eqn:E.
    + inversion H. split; [reflexivity | intros []].
    + destruct (span_not c s) as [run' after'].
      inversion H; subst. destruct (IH _ _ eq_refl) as [-> Hnot].
      split; [reflexivity|].
      intros [Hx | Hin]; [|exact (Hnot Hin)].
      apply Ascii.eqb_neq in E. congruence.
Qed.

Lemma starts_with_split (p : str) :
  forall s, starts_with p s = true -> exists r, s = p ++ r.
Proof.
  induction p as [|x p IH]; intros s H.
  - exists s. reflexivity.
  - destruct s as [|y s]; simpl in H; [discriminate|].
    apply andb_true_iff in H. destruct H as [Hxy Hrest].
    apply Ascii.eqb_eq in Hxy. subst y.
    destruct (IH _ Hrest) as (r & ->). exists r. reflexivity.
Qed.

Lemma match_next_here_sound (s u : str) :
  match_next_here s = Some u ->
  exists post, s = u ++ next_suffix ++ post /\ u <> [] /\ ~ In ">"%char u.
Proof.
  unfold match_next_here.
  destruct (span_not ">"%char s) as [run after] eqn:Hspan.
  apply span_not_spec in Hspan. destruct Hspan as [-> Hnot].
  destruct run as [|c run]; [discriminate|].
  destruct (starts_with next_suffix after) eqn:Hsuffix; [|discriminate].
  intros H. inversion H; subst.
  apply starts_with_split in Hsuffix. destruct Hsuffix as (post & ->).
  exists post. split; [reflexivity|]. split; [discriminate | exact Hnot].
Qed.

Lemma match_next_capture (s u : str) :
  match_next s = Some u ->
  exists pre post, s = pre ++ link_next u ++ post /\ u <> [] /\ ~ In ">"%char u.
Proof.
  induction s as [|c s IH]; [discriminate|].
  assert (Hlater : match_next s = Some u ->
            exists pre post, c :: s = pre ++ link_next u ++ post
                             /\ u <> [] /\ ~ In ">"%char u).
  { intros H. destruct (IH H) as (pre & post & -> & Hne & Hnot).
    exists (c :: pre), post. auto. }
  simpl. destruct (Ascii.eqb c "<"%char) eqn:E; [|exact Hlater].
  destruct (match_next_here s) as [u'|] eqn:Hhere; [|exact Hlater].
  intros H. inversion H; subst u'. apply Ascii.eqb_eq in E. subst c.
  apply match_next_here_sound in Hhere.
  destruct Hhere as (post & -> & Hne & Hnot).
  exists [], post. split; [|auto].
  unfold link_next. simpl. rewrite <- app_assoc. reflexivity.
Qed.

Lemma match_next_complete (s : str) :
  has_next_link s -> match_next s <> None.
Proof.
  intros (pre & u & post & -> & Hne & Hnot).
  induction pre as [|c pre IH].
  - change ([] ++ link_next u ++ post)
      with ("<"%char :: (u ++ next_suffix) ++ post).
    rewrite <- app_assoc, match_next_bracket.
    rewrite match_next_here_hit by assumption. discriminate.
  - simpl. destruct (Ascii.eqb c "<"%char); [|exact IH].
    destruct (match_next_here _); [discriminate | exact IH].
Qed.

Lemma has_next_link_includes (h : str) :
  has_next_link h -> h <> [] /\ str_includes rel_next h = true.
Proof.
  intros (pre & u & post & -> & _ & _). split.
  - destruct pre; discriminate.
  - apply includes_rel_next.
Qed.

Lemma nextUrl_some (res : Response) (u : str) :
  Batch.nextUrl res = Some u ->
  exists h pre post,
    headers_get res (lit "link") = Some h
    /\ h = pre ++ link_next u ++ post /\ u <> [] /\ ~ In ">"%char u.
Proof.
  unfold Batch.nextUrl.
  destruct (headers_get res (lit "link")) as [h|]; [|discriminate].
  destruct (truthy (Some h) && str_includes rel_next (or_else (Some h) []));
    [|discriminate].
  destruct h as [|c h]; [discriminate|]. simpl or_else.
  intros H. apply match_next_capture in H.
  destruct H as (pre & post & Heq & Hne & Hnot).
  exists (c :: h), pre, post. auto.
Qed.

Lemma nextUrl_none (res : Response) :
  Batch.nextUrl res = None
  <-> (forall h, headers_get res (lit "link") = Some h -> ~ has_next_link h).
Proof.
  split.
  - intros Hnone h Hh Hlink.
    destruct (has_next_link_includes h Hlink) as [Hne Hinc].
    unfold Batch.nextUrl in Hnone. rewrite Hh in Hnone.
    destruct h as [|c h]; [congruence|].
    simpl truthy in Hnone. simpl or_else in Hnone. rewrite Hinc in Hnone.
    simpl in Hnone. exact (match_next_complete _ Hlink Hnone).
  - intros Hno. destruct (Batch.nextUrl res) as [u|] eqn:Hnext; [|reflexivity].
    exfalso. apply nextUrl_some in Hnext.
    destruct Hnext as (h & pre & post & Hh & Heq & Hne & Hnot).
    apply (Hno h Hh). exists pre, u, post. auto.
Qed.

(** X22: the next address of the pagination is always taken from the
    [link] header: it is a non-empty text without [>] that stands there
    between [<] and [>; rel="next"]; and there is no next address exactly
    when the header is absent or holds no such bracketed text. *)
Theorem nextUrl_reads_the_link_header (res : Response) :
  (forall u, Batch.nextUrl res = Some u ->
     exists h pre post,
       headers_get res (lit "link") = Some h
       /\ h = pre ++ link_next u ++ post /\ u <> [] /\ ~ In ">"%char u)
  /\ (Batch.nextUrl res = None
      <-> (forall h, headers_get res (lit "link") = Some h ->
             ~ has_next_link h)).
Proof.
  split; [intros u; apply nextUrl_some | apply nextUrl_none].
Qed.

Lemma nextUrl_reads_the_link_header_witness :
  exists h pre post,
    headers_get (page (Some (link_previous_next page1_url page3_url)) [p3])
      (lit "link") = Some h
    /\ h = pre ++ link_next page3_url ++ post
    /\ page3_url <> [] /\ ~ In ">"%char page3_url.
Proof.
  exact (proj1 (nextUrl_reads_the_link_header
                  (page (Some (link_previous_next page1_url page3_url)) [p3]))
           page3_url eq_refl).
Defined.

(* ===================================================================== *)
(** ** The tag lists                                                       *)
(* ===================================================================== *)

Lemma lower_char_not_upper (c : ascii) :
  let n := N_of_ascii (lower_char c) in
  ((65 <=? n) && (n <=? 90))%N = false.
Proof.
  destruct c as [[] [] [] [] [] [] [] []]; reflexivity.
Qed.

Lemma toLowerCase_not_capitalised (s : str) (c : ascii) (rest : str) :
  ((65 <=? N_of_ascii c) && (N_of_ascii c <=? 90))%N = true ->
  str_eqb (toLowerCase s) (c :: rest) = false.
Proof.
  intros Hupper. destruct s as [|x s]; [reflexivity|]. simpl.
  destruct (Ascii.eqb (lower_char x) c) eqn:E; [|reflexivity].
  apply Ascii.eqb_eq in E. subst c.
  pose proof (lower_char_not_upper x) as Hlow. simpl in Hlow. congruence.
Qed.

Lemma includes_lower_case (s : str) :
  includes Batch.targetTags (toLowerCase s)
  = includes ProductCreated.targetTags (toLowerCase s).
Proof.
  unfold includes, Batch.targetTags, ProductCreated.targetTags.
  cbn [existsb].
  change (lit "Obstacle Courses") with ("O"%char :: lit "bstacle Courses").
  change (lit "Slide Combos") with ("S"%char :: lit "lide Combos").
  rewrite !toLowerCase_not_capitalised by reflexivity.
  reflexivity.
Qed.

Lemma find_map_ext {A B} (f g : B -> bool) (h : A -> B) (l : list A) :
  (forall a, f (h a) = g (h a)) -> find f (map h l) = find g (map h l).
Proof.
  intros Hext. induction l as [|a l IH]; [reflexivity|].
  simpl. rewrite Hext, IH. reflexivity.
Qed.

Lemma toLowerCase_idempotent (s : str) : toLowerCase (toLowerCase s) = toLowerCase s.
Proof.
  unfold toLowerCase. rewrite map_map. apply map_ext. intros c.
  destruct c as [[] [] [] [] [] [] [] []]; reflexivity.
Qed.

(** X23: the two capitalised entries of the tag list of the batch
    scripts never match, because the tags are put in lower case before
    the comparison: for every product the batch filter finds the same tag
    as the seven-entry list of the webhook, and the tag it finds is in
    lower case and one of the seven. *)
Theorem capitalised_target_tags_never_match (product : Product) :
  Batch.tagMatch product
  = find (includes ProductCreated.targetTags) (Batch.tagsOf product)
  /\ (forall m, Batch.tagMatch product = Some m ->
        toLowerCase m = m /\ In m ProductCreated.targetTags).
Proof.
  assert (Hsame : Batch.tagMatch product
                  = find (includes ProductCreated.targetTags)
                      (Batch.tagsOf product)).
  { unfold Batch.tagMatch, Batch.tagsOf.
    apply (find_map_ext (includes Batch.targetTags)
             (includes ProductCreated.targetTags)
             (fun t => toLowerCase (trim t))).
    intros a. apply includes_lower_case. }
  split; [exact Hsame|].
  intros m Hm. rewrite Hsame in Hm. apply find_some in Hm.
  destruct Hm as [Hin Hinc]. split.
  - unfold Batch.tagsOf in Hin. apply in_map_iff in Hin.
    destruct Hin as (t & <- & _). apply toLowerCase_idempotent.
  - apply includes_In. exact Hinc.
Qed.

Lemma capitalised_target_tags_never_match_witness :
  toLowerCase (lit "slide combos") = lit "slide combos"
  /\ In (lit "slide combos") ProductCreated.targetTags.
Proof.
  exact (proj2 (capitalised_target_tags_never_match
                  (sample_product 9 "New,  Slide Combos " None []))
           (lit "slide combos") eq_refl).
Defined.

(* ===================================================================== *)
(** ** [barcodeExists]                                                     *)
(* ===================================================================== *)

(** X24: [barcodeExists] never throws.  It answers [true] only when the
    request went through, the body parsed and [products] is not empty; a
    request that fails is logged and answered [false], as if the barcode
    were free. *)
Theorem barcodeExists_reads_failure_as_free
    (net : Network) (warn : str -> Error -> Log)
    (SHOP API_VERSION TOKEN barcode : str) (t : Trace) :
  let request :=
    Batch.shopifyFetch net
      (UpdateProductsBarra.barcode_url SHOP API_VERSION barcode)
      (page_options TOKEN) Batch.default_retries t in
  exists b t',
    UpdateProductsBarra.barcodeExists net warn SHOP API_VERSION TOKEN barcode t
    = (Ok b, t')
    /\ (b = true <->
        exists res data,
          request = (Ok res, t') /\ json_body res = Some data
          /\ products data <> [])
    /\ (forall e t1, request = (Throw e, t1) ->
          b = false /\ t' = EvConsole (warn barcode e) :: t1).
Proof.
  intros request. unfold UpdateProductsBarra.barcodeExists, try_catch.
  fold (page_options TOKEN).
  destruct (batch_shopifyFetch_total net
              (UpdateProductsBarra.barcode_url SHOP API_VERSION barcode)
              (page_options TOKEN) Batch.default_retries t)
    as (t1 & [(res & Hreq) | (e & Hreq)]); subst request.
  - rewrite (bind_ok Hreq). unfold bind, json.
    destruct (json_body res) as [data|] eqn:Hjson.
    + exists (Nat.ltb 0 (length (products data))), t1.
      split; [reflexivity|]. split.
      * split.
        -- intros Hb. exists res, data. split; [exact Hreq|].
           split; [exact Hjson|]. intros Hnil. rewrite Hnil in Hb.
           discriminate.
        -- intros (res' & data' & Hreq' & Hjson' & Hne).
           rewrite Hreq in Hreq'. inversion Hreq'; subst res'.
           rewrite Hjson in Hjson'. inversion Hjson'; subst data'.
           destruct (products data); [congruence | reflexivity].
      * intros e t2 Hthrow. rewrite Hreq in Hthrow. discriminate.
    + exists false, (EvConsole (warn barcode SyntaxError) :: t1).
      split; [reflexivity|]. split.
      * split; [discriminate|].
        intros (res' & data' & Hreq' & Hjson' & _).
        rewrite Hreq in Hreq'. inversion Hreq'; subst res'.
        rewrite Hjson in Hjson'. discriminate.
      * intros e t2 Hthrow. rewrite Hreq in Hthrow. discriminate.
  - rewrite (bind_throw Hreq).
    exists false, (EvConsole (warn barcode e) :: t1).
    split; [reflexivity|]. split.
    + split; [discriminate|].
      intros (res' & data' & Hreq' & _). rewrite Hreq in Hreq'. discriminate.
    + intros e' t2 Hthrow. rewrite Hreq in Hthrow.
      inversion Hthrow; subst. split; reflexivity.
Qed.

(* ===================================================================== *)
(** ** The webhook: blank descriptions, barcodes by position               *)
(* ===================================================================== *)

Lemma skip_spaces_nil (s : str) :
  skip_spaces s = [] <-> forallb is_space s = true.
Proof.
  induction s as [|c s IH]; simpl; [tauto|].
  destruct (is_space c); simpl; [exact IH|].
  split; discriminate.
Qed.

Lemma skip_spaces_idempotent (s : str) :
  skip_spaces (skip_spaces s) = skip_spaces s.
Proof.
  induction s as [|c s IH]; simpl; [reflexivity|].
  destruct (is_space c) eqn:E; [exact IH|]. simpl. rewrite E. reflexivity.
Qed.

Lemma forallb_rev_eq {A} (f : A -> bool) (l : list A) :
  forallb f (rev l) = true <-> forallb f l = true.
Proof.
  rewrite !forallb_forall. split; intros H x Hx; apply H.
  - apply in_rev in Hx. exact Hx.
  - apply in_rev. exact Hx.
Qed.

Lemma trim_nil (s : str) : trim s = [] <-> forallb is_space s = true.
Proof.
  unfold trim.
  assert (Hrev : forall l : str, rev l = [] <-> l = []).
  { intros l. split; intros H.
    - rewrite <- (rev_involutive l), H. reflexivity.
    - rewrite H. reflexivity. }
  rewrite Hrev, skip_spaces_nil, forallb_rev_eq, <- skip_spaces_nil,
    skip_spaces_idempotent.
  apply skip_spaces_nil.
Qed.

(** X25: the webhook takes the description of a product for missing
    exactly when there is none, or when it is empty or made of white
    space only (tab, line feed, vertical tab, form feed, carriage return,
    space, no-break space); a text with any other character is kept. *)
Theorem blank_description_counts_as_missing (product : Product) :
  ProductCreated.needsDescription product = true
  <-> match body_html product with
      | None => True
      | Some s => forallb is_space s = true
      end.
Proof.
  unfold ProductCreated.needsDescription.
  destruct (body_html product) as [s|]; [|simpl; tauto].
  destruct s as [|c s]; [simpl; tauto|].
  simpl truthy. simpl or_else. cbn [negb orb].
  rewrite str_eqb_eq. apply trim_nil.
Qed.

Lemma blank_description_counts_as_missing_witness :
  ProductCreated.needsDescription p_blank = true
  /\ pp_body_html (ProductCreated.updatePayload p_blank)
     = Some (ProductCreated.generateProductDescription p_blank).
Proof.
  assert (H : ProductCreated.needsDescription p_blank = true)
    by exact (proj2 (blank_description_counts_as_missing p_blank) eq_refl).
  split; [exact H | reflexivity].
Defined.

Lemma newVariants_positions productId :
  forall vs index u,
    In u (ProductCreated.newVariants productId index vs)
    <-> exists k v,
          nth_error vs k = Some v /\ truthy (barcode v) = false
          /\ u = {| uv_id := variant_id v;
                    uv_barcode := ProductCreated.generateUniqueBarcode
                                    productId (index + N.of_nat k) |}.
Proof.
  induction vs as [|variant rest IH]; intros index u; simpl.
  - split; [intros [] | intros (k & v & H & _); destruct k; discriminate].
  - rewrite in_app_iff, IH. split.
    + intros [Hhere | (k & v & Hk & Hb & ->)].
      * destruct (truthy (barcode variant)) eqn:Hb; [destruct Hhere|].
        destruct Hhere as [<- | []]. exists 0, variant.
        split; [reflexivity|]. split; [exact Hb|].
        rewrite N.add_0_r. reflexivity.
      * exists (S k), v. split; [exact Hk|]. split; [exact Hb|].
        do 2 f_equal. lia.
    + intros (k & v & Hk & Hb & ->). destruct k as [|k].
      * left. simpl in Hk. inversion Hk; subst. rewrite Hb. left.
        rewrite N.add_0_r. reflexivity.
      * right. exists k, v. split; [exact Hk|]. split; [exact Hb|].
        do 2 f_equal. lia.
Qed.

(** X26: in the webhook the variant at position [k] of the product, when
    it has no barcode (none, or the empty string), is given
    [generateUniqueBarcode(product.id, k)], and nothing else is
    generated: the barcode depends only on the product id and on the
    position of the variant. *)
Theorem webhook_barcode_by_position (product : Product) (u : UpdatedVariant) :
  In u (ProductCreated.newVariants (id product) 0 (variants product))
  <-> exists k v,
        nth_error (variants product) k = Some v
        /\ truthy (barcode v) = false
        /\ u = new_variant product k v.
Proof. apply newVariants_positions. Qed.

(** X27: a product with at most 1000 variants only gets valid EAN-13
    barcodes from the webhook. *)
Theorem webhook_barcodes_valid (product : Product) :
  length (variants product) <= 1000 ->
  forall u,
    In u (ProductCreated.newVariants (id product) 0 (variants product)) ->
    is_ean13 (uv_barcode u) = true.
Proof.
  intros Hlen u Hu. apply newVariants_positions in Hu.
  destruct Hu as (k & v & Hk & _ & ->). simpl.
  apply generateUniqueBarcode_ean13.
  assert (Hlt : k < length (variants product)).
  { apply nth_error_Some. congruence. }
  lia.
Qed.

Lemma webhook_barcodes_valid_witness :
  length (variants p_clash) <= 1000
  /\ is_ean13 (lit "2000000010014") = true.
Proof.
  split; [simpl; lia|].
  apply (webhook_barcodes_valid p_clash ltac:(simpl; lia)
           {| uv_id := 11; uv_barcode := lit "2000000010014" |}).
  left. reflexivity.
Defined.

(* ===================================================================== *)
(** ** A [Retry-After] header that is no number                            *)
(* ===================================================================== *)

Lemma parseInt_not_numeric (v : str) : not_numeric v = true -> parseInt v = None.
Proof.
  unfold not_numeric, parseInt.
  destruct (skip_spaces v) as [|c rest]; [reflexivity|].
  intros H. apply andb_true_iff in H. destruct H as [H Hplus].
  apply andb_true_iff in H. destruct H as [Hdigit Hminus].
  apply negb_true_iff in Hdigit, Hminus, Hplus.
  rewrite Hminus, Hplus. simpl. rewrite Hdigit. reflexivity.
Qed.

(** X28: when the [Retry-After] header of a 429 response is a non-empty
    text that does not start with a number (a date, say), the delay the
    batch [shopifyFetch] computes is [NaN]: it logs, sleeps [NaN]
    milliseconds and goes on with the next attempt. *)
Theorem retry_after_date_gives_no_delay
    (net : Network) (url : str) (options : Options) (retries k : nat)
    (t : Trace) (res : Response) (v : str) :
  net t url options = Responded res -> status res = 429%Z ->
  headers_get res (lit "Retry-After") = Some v -> v <> [] ->
  not_numeric v = true ->
  Batch.shopifyFetch_loop net url options retries (S k) t
  = Batch.shopifyFetch_loop net url options retries k
      (EvSleep None :: EvConsole (LogRateLimit None)
       :: EvFetch url options :: t).
Proof.
  intros Hnet Hst Hh Hne Hnum.
  rewrite (batch_429 net url options retries k t res Hnet Hst).
  assert (Hretry : Batch.retryAfter res = None).
  { unfold Batch.retryAfter. rewrite Hh.
    destruct v as [|c v]; [congruence|]. simpl or_else.
    apply parseInt_not_numeric. exact Hnum. }
  unfold after_429. rewrite Hretry. reflexivity.
Qed.

Lemma retry_after_date_gives_no_delay_witness :
  Batch.shopifyFetch
    (scripted [Responded res_429_date] (Responded res_200))
    sample_url get_options 5 []
  = (Ok res_200,
     [EvFetch sample_url get_options; EvSleep None;
      EvConsole (LogRateLimit None); EvFetch sample_url get_options]).
Proof.
  unfold Batch.shopifyFetch.
  rewrite (retry_after_date_gives_no_delay
             (scripted [Responded res_429_date] (Responded res_200))
             sample_url get_options 5 4 [] res_429_date
             (lit "Wed, 21 Oct 2026 07:28:00 GMT")
             eq_refl eq_refl eq_refl ltac:(discriminate) eq_refl).
  reflexivity.
Defined.

(* ===================================================================== *)
(** ** The webhook: what follows the answer to the update                  *)
(* ===================================================================== *)

Lemma ok_not_429 (res : Response) : ok res = true -> status res <> 429%Z.
Proof.
  unfold ok. intros H. apply andb_true_iff in H. destruct H as [_ H].
  apply Z.leb_le in H. lia.
Qed.

(** X29: when the update of the product is answered with a 2xx response,
    [processNewProduct] reports full success only if the body of the
    response parses as JSON.  If it does not, the update is treated as
    failed although the shop accepted it: with new barcodes the fallback
    sends them again, one request per variant, and reports a partial
    result; without new barcodes the parse error is thrown. *)
Theorem processNewProduct_after_accepted_update
    (net : Network) (SHOP API_VERSION TOKEN : str) (product : Product)
    (t : Trace) (res : Response) :
  lacks_something product ->
  net t (Batch.product_url SHOP API_VERSION (id product))
    (put_options TOKEN (PayloadProduct (ProductCreated.updatePayload product)))
  = Responded res ->
  ok res = true ->
  let us := ProductCreated.newVariants (id product) 0 (variants product) in
  let sent := webhook_put SHOP API_VERSION TOKEN product :: t in
  (json_body res <> None ->
   ProductCreated.processNewProduct net SHOP API_VERSION TOKEN product t
   = (Ok (full_result product), sent))
  /\ (json_body res = None -> us <> [] ->
      exists m t',
        ProductCreated.processNewProduct net SHOP API_VERSION TOKEN product t
        = (Ok (partial_result m), t')
        /\ forall u, In u us -> In (variant_put SHOP API_VERSION TOKEN u) t')
  /\ (json_body res = None -> us = [] ->
      ProductCreated.processNewProduct net SHOP API_VERSION TOKEN product t
      = (Throw SyntaxError,
         EvConsole (LogUpdateError (title product) SyntaxError) :: sent)).
Proof.
  intros Hl Hnet Hok us sent.
  assert (Hfetch :
            ProductCreated.shopifyFetch net
              (Batch.product_url SHOP API_VERSION (id product))
              {| method := PUT; req_headers := Batch.json_headers TOKEN;
                 body := Some (PayloadProduct
                                 (ProductCreated.updatePayload product)) |}
              ProductCreated.default_retries t
            = (Ok (Some res), sent)).
  { exact (webhook_ok net _ _ ProductCreated.default_retries 0 2 t res
             Hnet (ok_not_429 res Hok) Hok). }
  apply nothing_to_write_iff in Hl.
  unfold ProductCreated.processNewProduct. rewrite Hl.
  unfold try_catch. rewrite (bind_ok Hfetch). unfold json.
  destruct (json_body res) as [data|] eqn:Hjson.
  - split; [intros _; reflexivity|].
    split; intros Hnone; discriminate Hnone.
  - split; [intros Hsome; congruence|].
    fold us.
    destruct (processNewProduct_catch net SHOP API_VERSION TOKEN product
                SyntaxError sent) as (r & t' & Hcatch & _ & Hcases).
    fold us in Hcatch, Hcases.
    split.
    + intros _ Hne.
      destruct Hcases as [(m & -> & _ & _ & Hall & _) | [_ Hnil]];
        [|contradiction].
      exists m, t'. split; [|exact Hall].
      unfold bind, throw, ret, console in *. cbv beta iota. exact Hcatch.
    + intros _ Hnil. unfold bind, throw, ret, console. cbv beta iota.
      rewrite Hnil. reflexivity.
Qed.

Lemma processNewProduct_after_accepted_update_witness :
  lacks_something p_clash
  /\ exists m t',
       ProductCreated.processNewProduct mute_net shop api token p_clash []
       = (Ok (partial_result m), t')
       /\ forall u,
            In u (ProductCreated.newVariants (id p_clash) 0 (variants p_clash)) ->
            In (variant_put shop api token u) t'.
Proof.
  assert (Hl : lacks_something p_clash).
  { right. exists variant_11. split; [right; left; reflexivity | reflexivity]. }
  split; [exact Hl|].
  exact (proj1 (proj2 (processNewProduct_after_accepted_update mute_net shop api
                         token p_clash [] res_200_no_json Hl eq_refl eq_refl))
           eq_refl ltac:(discriminate)).
Defined.
